(** * Smali emulator: the opcode handlers of [smali/opcodes.py]

    A shallow embedding of the opcode layer of the emulator: the regular
    expressions that recognise an instruction line, the semantic actions
    ([eval]) over the VM state, and [OpCode.parse] which ties them together
    and routes Python exceptions to [vm.exception].

    Python 3 semantics is assumed throughout (integers are unbounded, [//] and
    [%] round towards minus infinity, indexing [bytes] yields an [int],
    negative indices count from the end of a sequence).  A text is a [string]
    whose characters stand for the code points below 256. *)

From Stdlib Require Import ZArith Ascii String Lia Bool.
From stdpp Require Import gmap strings list.

Local Open Scope string_scope.
Local Open Scope Z_scope.

(** ** Characters and the Python string methods used by the handlers *)

Module Py.

Definition code (c : ascii) : N := N_of_ascii c.

(** [str.isspace] on code points below 256; also the class [\s] of [re]. *)
Definition is_space (c : ascii) : bool :=
  let n := code c in
  (((9 <=? n) && (n <=? 13)) || ((28 <=? n) && (n <=? 32))
   || (n =? 133) || (n =? 160))%N.

(** The class [\d] on code points below 256. *)
Definition is_digit (c : ascii) : bool :=
  let n := code c in ((48 <=? n) && (n <=? 57))%N.

(** The class [[a-z]]. *)
Definition is_lower (c : ascii) : bool :=
  let n := code c in ((97 <=? n) && (n <=? 122))%N.

(** The class [.]: anything but a newline. *)
Definition is_dot (c : ascii) : bool := negb (code c =? 10)%N.

Definition is_char (a c : ascii) : bool := Ascii.eqb a c.

(** [s.lstrip(chars)], with the set of characters given as a predicate. *)
Fixpoint lstrip_by (p : ascii -> bool) (s : string) : string :=
  match s with
  | EmptyString => EmptyString
  | String c s' => if p c then lstrip_by p s' else s
  end.

(** [s.rstrip(chars)]. *)
Fixpoint rstrip_by (p : ascii -> bool) (s : string) : string :=
  match s with
  | EmptyString => EmptyString
  | String c s' =>
      match rstrip_by p s' with
      | EmptyString => if p c then EmptyString else String c EmptyString
      | r => String c r
      end
  end.

(** [s.strip()] *)
Definition strip (s : string) : string :=
  rstrip_by is_space (lstrip_by is_space s).

(** [s.rstrip(c)] for a one-character argument. *)
Definition rstrip (c : ascii) (s : string) : string := rstrip_by (is_char c) s.

Fixpoint starts_with (p s : string) : bool :=
  match p, s with
  | EmptyString, _ => true
  | String a p', String b s' => Ascii.eqb a b && starts_with p' s'
  | String _ _, EmptyString => false
  end.

Fixpoint rev_string (acc s : string) : string :=
  match s with
  | EmptyString => acc
  | String c s' => rev_string (String c acc) s'
  end.

(** [s.split(sep)] for a non-empty separator: [skip] counts the characters of
    an occurrence of [sep] still to be dropped, [cur] is the current piece,
    reversed. *)
Fixpoint split_go (sep : string) (skip : nat) (cur : string) (s : string)
  : list string :=
  match s with
  | EmptyString => [rev_string EmptyString cur]
  | String c s' =>
      match skip with
      | S n => split_go sep n cur s'
      | O =>
          if starts_with sep s
          then rev_string EmptyString cur
                 :: split_go sep (Nat.pred (String.length sep)) EmptyString s'
          else split_go sep O (String c cur) s'
      end
  end.

Definition split (sep : string) (s : string) : list string :=
  split_go sep O EmptyString s.

(** Every character of [s] satisfies [p]. *)
Fixpoint all_chars (p : ascii -> bool) (s : string) : bool :=
  match s with
  | EmptyString => true
  | String c s' => p c && all_chars p s'
  end.

End Py.

(** ** Regular expressions: the fragment of [re] the handlers use

    A backtracking matcher in continuation-passing style, which is how
    [re.search] explores a pattern: quantifiers are greedy, alternatives are
    tried in order, and the first overall success wins. *)

Module Re.

Inductive regex : Type :=
| Eps                               (* the empty pattern *)
| Bol                               (* ^ *)
| Chr (p : ascii -> bool)           (* a literal or a character class *)
| Seq (r1 r2 : regex)
| Opt (r : regex)                   (* r? *)
| Star (r : regex)                  (* r* *)
| Group (i : nat) (r : regex).      (* ( r ), the i-th capturing group *)

Definition Plus (r : regex) : regex := Seq r (Star r).

Definition captures := list (option string).
Definition cont := nat -> string -> captures -> option captures.

(** The greedy loop of [r*]: iterate the body as long as it consumes input,
    and fall back to the continuation, longest match first. *)
Fixpoint star_loop (body : nat -> string -> captures -> cont -> option captures)
    (k : cont) (fuel : nat) (pos : nat) (s : string) (caps : captures)
  : option captures :=
  match fuel with
  | O => k pos s caps
  | S fuel' =>
      match body pos s caps
              (fun pos' s' caps' =>
                 if (pos <? pos')%nat
                 then star_loop body k fuel' pos' s' caps'
                 else None)
      with
      | Some c => Some c
      | None => k pos s caps
      end
  end.

Fixpoint rmatch (r : regex) (pos : nat) (s : string) (caps : captures)
    (k : cont) : option captures :=
  match r with
  | Eps => k pos s caps
  | Bol => if (pos =? 0)%nat then k pos s caps else None
  | Chr p =>
      match s with
      | String c s' => if p c then k (S pos) s' caps else None
      | EmptyString => None
      end
  | Seq r1 r2 =>
      rmatch r1 pos s caps (fun pos' s' caps' => rmatch r2 pos' s' caps' k)
  | Opt r1 =>
      match rmatch r1 pos s caps k with
      | Some c => Some c
      | None => k pos s caps
      end
  | Star r1 => star_loop (rmatch r1) k (String.length s) pos s caps
  | Group i r1 =>
      rmatch r1 pos s caps
        (fun pos' s' caps' =>
           k pos' s' (<[i := Some (substring 0 (pos' - pos) s)]> caps'))
  end.

(** The last continuation: the whole pattern has matched. *)
Definition found : cont := fun _ _ c => Some c.

(** [re.search]: the leftmost position at which the pattern matches. *)
Fixpoint search_from (r : regex) (n : nat) (pos : nat) (s : string)
  : option captures :=
  match rmatch r pos s (replicate n None) found with
  | Some c => Some c
  | None =>
      match s with
      | EmptyString => None
      | String _ s' => search_from r n (S pos) s'
      end
  end.

(** A compiled pattern: the expression and its number of groups. *)
Record pattern : Type := { re : regex; ngroups : nat }.

(** [pattern.search(line)] followed by [m.groups()]. *)
Definition search (p : pattern) (line : string) : option captures :=
  search_from (re p) (ngroups p) O line.

(** Concatenation of a list of patterns. *)
Fixpoint seqs (rs : list regex) : regex :=
  match rs with
  | [] => Eps
  | [r] => r
  | r :: rs' => Seq r (seqs rs')
  end.

Definition chr (c : ascii) : regex := Chr (Py.is_char c).

(** A literal string, character by character. *)
Fixpoint lit (s : string) : regex :=
  match s with
  | EmptyString => Eps
  | String c EmptyString => chr c
  | String c s' => Seq (chr c) (lit s')
  end.

Definition dot : regex := Chr Py.is_dot.             (* . *)
Definition digit : regex := Chr Py.is_digit.         (* \d *)
Definition space : regex := Chr Py.is_space.         (* \s *)
Definition lower : regex := Chr Py.is_lower.         (* [a-z] *)
Definition dash_lower : regex :=                     (* [\-a-z] *)
  Chr (fun c => Py.is_char "-" c || Py.is_lower c).

(** [(.+),\s*(.+)] with groups [i] and [i+1] *)
Definition operands2 (i : nat) : list regex :=
  [Group i (Plus dot); chr ","; Star space; Group (S i) (Plus dot)].

(** [(.+),\s*(.+),\s*(.+)] with groups [i], [i+1] and [i+2] *)
Definition operands3 (i : nat) : list regex :=
  [Group i (Plus dot); chr ","; Star space] ++ operands2 (S i).

End Re.

(** ** Python values, exceptions and the VM state *)

(** The subclasses of [Exception] the embedded handlers can raise.
    [StructError] is [struct.error]. *)
Inductive exn : Type :=
| KeyError (key : string)
| TypeError
| ValueError
| ZeroDivisionError
| IndexError
| AssertionError
| StructError
| AttributeError.

(** [ZeroDivisionError] derives from [ArithmeticError]. *)
Definition is_ArithmeticError (e : exn) : bool :=
  match e with ZeroDivisionError => true | _ => false end.

(** Cells that the embedded handlers create or consume: a Python [int], a
    one-character [str] (what [chr] returns, given by its code point), and a
    Python [list], held by reference so that aliasing is visible. *)
Inductive Cell : Type :=
| CInt (z : Z)
| CChar (cp : Z)
| CArr (l : nat).

(** An entry of [vm.packed_switches]. *)
Record Switch : Type := { first_value : Z; cases : list string }.

(** An entry of [vm.catch_blocks]; [exception_type = None] is [.catchall]. *)
Record CatchBlock : Type := {
  start_line : nat;
  end_line : nat;
  exception_type : option string;
  handler_label : string
}.

(** Modelled from the spec: the class [VM] of [smali/vm.py] is not part of the
    sources at hand.  Section 3 of the specification lists its fields; the
    handlers themselves show [vm.variables], [vm.packed_switches], [vm.pc] and
    [vm.exceptions].  [heap] holds the Python list objects. *)
Record VM : Type := {
  variables : gmap string Cell;
  heap : gmap nat (list Cell);
  pc : nat;
  labels : gmap string nat;
  packed_switches : gmap string Switch;
  exceptions : list exn;
  catch_blocks : list CatchBlock;
  fatal : option string
}.

Definition set_variables (f : gmap string Cell -> gmap string Cell) (vm : VM) : VM :=
  {| variables := f (variables vm); heap := heap vm; pc := pc vm;
     labels := labels vm; packed_switches := packed_switches vm;
     exceptions := exceptions vm; catch_blocks := catch_blocks vm;
     fatal := fatal vm |}.

Definition set_heap (f : gmap nat (list Cell) -> gmap nat (list Cell)) (vm : VM) : VM :=
  {| variables := variables vm; heap := f (heap vm); pc := pc vm;
     labels := labels vm; packed_switches := packed_switches vm;
     exceptions := exceptions vm; catch_blocks := catch_blocks vm;
     fatal := fatal vm |}.

Definition set_pc (n : nat) (vm : VM) : VM :=
  {| variables := variables vm; heap := heap vm; pc := n;
     labels := labels vm; packed_switches := packed_switches vm;
     exceptions := exceptions vm; catch_blocks := catch_blocks vm;
     fatal := fatal vm |}.

Definition push_exception (e : exn) (vm : VM) : VM :=
  {| variables := variables vm; heap := heap vm; pc := pc vm;
     labels := labels vm; packed_switches := packed_switches vm;
     exceptions := e :: exceptions vm; catch_blocks := catch_blocks vm;
     fatal := fatal vm |}.

Definition set_fatal (msg : string) (vm : VM) : VM :=
  {| variables := variables vm; heap := heap vm; pc := pc vm;
     labels := labels vm; packed_switches := packed_switches vm;
     exceptions := exceptions vm; catch_blocks := catch_blocks vm;
     fatal := Some msg |}.

(** ** The monad of a semantic action

    An action either returns, raises a Python exception (the state may have
    been changed before the raise), or leaves the fragment of Python covered
    here ([Beyond]): string formatting with [%], [int()] of a text, and the
    literals of [ast.literal_eval] other than integers. *)

Inductive res (A : Type) : Type :=
| Ok (a : A) (vm : VM)
| Raise (e : exn) (vm : VM)
| Beyond.
Arguments Ok {A} a vm.
Arguments Raise {A} e vm.
Arguments Beyond {A}.

Definition M (A : Type) : Type := VM -> res A.

Definition ret {A} (a : A) : M A := fun vm => Ok a vm.
Definition raise {A} (e : exn) : M A := fun vm => Raise e vm.
Definition beyond {A} : M A := fun _ => Beyond.
Definition bind {A B} (m : M A) (k : A -> M B) : M B :=
  fun vm =>
    match m vm with
    | Ok a vm' => k a vm'
    | Raise e vm' => Raise e vm'
    | Beyond => Beyond
    end.

Notation "'let!' x ':=' m 'in' k" := (bind m (fun x => k))
  (at level 10, x name, m at level 100, k at level 200).

(** ** The methods of the VM the handlers call *)

(** Modelled from the spec: [vm[name]] ([VM.__getitem__], absent from the
    sources) reads the register map; a missing key is Python's [KeyError]. *)
Definition getitem (name : string) : M Cell :=
  fun vm =>
    match variables vm !! name with
    | Some c => Ok c vm
    | None => Raise (KeyError name) vm
    end.

(** Modelled from the spec: [vm[name] = value] ([VM.__setitem__], absent from
    the sources) binds the register. *)
Definition setitem (name : string) (c : Cell) : M unit :=
  fun vm => Ok tt (set_variables <[name := c]> vm).

(** Modelled from the spec: [vm.goto(label)] (absent from the sources) sets
    [pc] to [labels[label]]. *)
Definition goto (label : string) : M unit :=
  fun vm =>
    match labels vm !! label with
    | Some n => Ok tt (set_pc n vm)
    | None => Raise (KeyError label) vm
    end.

(** The Java name under which the specification reports an exception. *)
Definition java_exception (e : exn) : option string :=
  match e with
  | ZeroDivisionError => Some "Ljava/lang/ArithmeticException;"
  | IndexError => Some "Ljava/lang/ArrayIndexOutOfBoundsException;"
  | _ => None
  end.

Definition catches (line : nat) (e : exn) (b : CatchBlock) : bool :=
  (start_line b <=? line)%nat && (line <=? end_line b)%nat &&
  match exception_type b with
  | None => true
  | Some t => bool_decide (java_exception e = Some t)
  end.

(** Modelled from the spec: [vm.exception(e)] (absent from the sources) pushes
    the exception onto the exception stack and transfers control to an
    enclosing catch if any, otherwise the error is fatal. *)
Definition exception (e : exn) (vm : VM) : VM :=
  let vm1 := push_exception e vm in
  match List.find (catches (pc vm) e) (catch_blocks vm) with
  | Some b =>
      match labels vm !! handler_label b with
      | Some n => set_pc n vm1
      | None => set_fatal "unresolved handler label" vm1
      end
  | None => set_fatal "uncaught exception" vm1
  end.

(** ** Python operators on cells *)

(** [a // b] *)
Definition py_floordiv (a b : Cell) : M Cell :=
  match a, b with
  | CInt x, CInt y =>
      if y =? 0 then raise ZeroDivisionError else ret (CInt (x / y))
  | _, _ => raise TypeError
  end.

(** [a % b]; with a [str] on the left this is string formatting. *)
Definition py_mod (a b : Cell) : M Cell :=
  match a, b with
  | CInt x, CInt y =>
      if y =? 0 then raise ZeroDivisionError else ret (CInt (x mod y))
  | CChar _, _ => beyond
  | _, _ => raise TypeError
  end.

(** [a - y] with an [int] on the right *)
Definition cell_sub_int (a : Cell) (y : Z) : M Z :=
  match a with
  | CInt x => ret (x - y)
  | _ => raise TypeError
  end.

(** [x - b] with an [int] on the left *)
Definition int_sub_cell (x : Z) (b : Cell) : M Z :=
  match b with
  | CInt y => ret (x - y)
  | _ => raise TypeError
  end.

(** [a & n] for an integer literal [n] *)
Definition py_and (a : Cell) (n : Z) : M Z :=
  match a with
  | CInt x => ret (Z.land x n)
  | _ => raise TypeError
  end.

(** [int(a)]; [int()] of a text is not covered. *)
Definition py_int (a : Cell) : M Z :=
  match a with
  | CInt x => ret x
  | CChar _ => beyond
  | CArr _ => raise TypeError
  end.

(** The list object behind a reference. *)
Definition deref (l : nat) : M (list Cell) :=
  fun vm =>
    match heap vm !! l with
    | Some xs => Ok xs vm
    | None => Beyond
    end.

(** [len(a)] *)
Definition py_len (a : Cell) : M Z :=
  match a with
  | CArr l => let! xs := deref l in ret (Z.of_nat (length xs))
  | CChar _ => ret 1
  | CInt _ => raise TypeError
  end.

(** The position a Python index denotes in a sequence of length [n]:
    negative indices count from the end. *)
Definition norm_index (n : nat) (i : Z) : option nat :=
  if (0 <=? i) && (i <? Z.of_nat n) then Some (Z.to_nat i)
  else if (- Z.of_nat n <=? i) && (i <? 0) then Some (Z.to_nat (Z.of_nat n + i))
  else None.

(** [a[i]] *)
Definition py_index (a i : Cell) : M Cell :=
  match a, i with
  | CArr l, CInt z =>
      let! xs := deref l in
      match norm_index (length xs) z with
      | Some j =>
          match xs !! j with Some c => ret c | None => raise IndexError end
      | None => raise IndexError
      end
  | CChar cp, CInt z =>
      match norm_index 1 z with
      | Some _ => ret (CChar cp)
      | None => raise IndexError
      end
  | _, _ => raise TypeError
  end.

(** An integer that fits a machine index: [sys.maxsize] is [2**63 - 1] on
    the 64-bit builds of CPython. *)
Definition fits_index (i : Z) : bool := (- 2 ^ 63 <=? i) && (i <? 2 ^ 63).

(** [a[i] = v] for an integer [i].  An integer has no items at all.  A
    string has items but no item assignment: CPython first converts the
    index to a machine index, an [IndexError] when it does not fit, and only
    then refuses the assignment with a [TypeError]. *)
Definition py_store (a : Cell) (i : Z) (v : Cell) : M unit :=
  match a with
  | CArr l =>
      let! xs := deref l in
      match norm_index (length xs) i with
      | Some j => fun vm => Ok tt (set_heap <[l := <[j := v]> xs]> vm)
      | None => raise IndexError
      end
  | CChar _ => if fits_index i then raise TypeError else raise IndexError
  | CInt _ => raise TypeError
  end.

(** [a.append(v)] *)
Definition py_append (a : Cell) (v : Cell) : M unit :=
  match a with
  | CArr l =>
      let! xs := deref l in
      fun vm => Ok tt (set_heap <[l := (xs ++ [v])%list]> vm)
  | _ => raise AttributeError
  end.

(** [chr(n)] *)
Definition py_chr (n : Z) : M Cell :=
  if (0 <=? n) && (n <=? 1114111) then ret (CChar n) else raise ValueError.

(** [struct.pack('>i', x)]: the four bytes of a signed 32-bit integer, most
    significant first; [struct.error] when [x] does not fit. *)
Definition struct_pack_i (x : Z) : option (list Z) :=
  if (- 2 ^ 31 <=? x) && (x <=? 2 ^ 31 - 1)
  then let u := x mod 2 ^ 32 in
       Some [Z.shiftr u 24 mod 256; Z.shiftr u 16 mod 256;
             Z.shiftr u 8 mod 256; u mod 256]
  else None.

(** [struct.pack('>i', a)[-1]]; indexing [bytes] gives an [int]. *)
Definition pack_last_byte (a : Cell) : M Cell :=
  match a with
  | CInt x =>
      match struct_pack_i x with
      | Some bs =>
          match norm_index (length bs) (-1) with
          | Some j =>
              match bs !! j with Some b => ret (CInt b) | None => raise IndexError end
          | None => raise IndexError
          end
      | None => raise StructError
      end
  | _ => raise StructError
  end.

(** ** Integer literals *)

Definition dec_digit (c : ascii) : option Z :=
  if Py.is_digit c then Some (Z.of_N (Py.code c) - 48) else None.

Definition hex_digit (c : ascii) : option Z :=
  let n := Z.of_N (Py.code c) in
  if Py.is_digit c then Some (n - 48)
  else if (97 <=? n) && (n <=? 102) then Some (n - 87)
  else if (65 <=? n) && (n <=? 70) then Some (n - 55)
  else None.

Fixpoint digits (base : Z) (digit : ascii -> option Z) (acc : Z) (s : string)
  : option Z :=
  match s with
  | EmptyString => Some acc
  | String c s' =>
      match digit c with
      | Some d => digits base digit (acc * base + d) s'
      | None => None
      end
  end.

Fixpoint all_zero (s : string) : bool :=
  match s with
  | EmptyString => true
  | String c s' => Py.is_char "0" c && all_zero s'
  end.

(** A Python integer literal without sign: [0x] or [0X] followed by
    hexadecimal digits, a run of zeros, or a decimal number without a leading
    zero. *)
Definition unsigned_literal (s : string) : option Z :=
  match s with
  | EmptyString => None
  | String c EmptyString => dec_digit c
  | String c (String x s' as t) =>
      if Py.is_char "0" c then
        if Py.is_char "x" x || Py.is_char "X" x then
          match s' with
          | EmptyString => None
          | _ => digits 16 hex_digit 0 s'
          end
        else if all_zero t then Some 0 else None
      else digits 10 dec_digit 0 s
  end.

(** [ast.literal_eval] on the integer literals the specification names:
    decimal, [0x] hexadecimal, and their negative forms.  [None] stands for
    every other text (on which Python raises or yields another kind of
    value), which this development does not cover. *)
Definition literal_eval (s : string) : option Z :=
  match s with
  | EmptyString => None
  | String c s' =>
      if Py.is_char "-" c then option_map Z.opp (unsigned_literal s')
      else unsigned_literal s
  end.

(** [int(s)] on a run of decimal digits, as captured by [(\d+)]. *)
Definition int_of_digits (s : string) : option Z :=
  match s with
  | EmptyString => None
  | _ => digits 10 dec_digit 0 s
  end.

Definition covered {A} (o : option A) : M A :=
  match o with
  | Some a => ret a
  | None => beyond
  end.

(** ** The opcode classes *)

(** [OpCode.get_int_value] *)
Definition get_int_value (val : string) : option Z :=
  let val := Py.rstrip "t" val in
  let val := Py.rstrip "s" val in
  literal_eval val.

(** An opcode class: the compiled [expression] and the static method [eval],
    which receives the stripped groups of the match. *)
Record OpCode : Type := {
  expression : Re.pattern;
  eval : list (option string) -> M unit
}.

(** [OpCode.parse], but for the trace output. *)
Definition parse (op : OpCode) (line : string) : M bool :=
  fun vm =>
    match Re.search (expression op) line with
    | None => Ok false vm
    | Some groups =>
        match eval op (List.map (option_map Py.strip) groups) vm with
        | Ok _ vm' => Ok true vm'
        | Raise e vm' => Ok true (exception e vm')
        | Beyond => Beyond
        end
    end.

(** [class op_Const]: [^const(?:/\d+)? (.+),\s*(.+)] *)
Definition op_Const : OpCode := {|
  expression :=
    {| Re.re := Re.seqs ([Re.Bol; Re.lit "const";
                          Re.Opt (Re.Seq (Re.chr "/") (Re.Plus Re.digit));
                          Re.chr " "] ++ Re.operands2 0);
       Re.ngroups := 2 |};
  eval := fun args =>
    match args with
    | [Some vx; Some lit] =>
        let! z := covered (get_int_value lit) in
        setitem vx (CInt z)
    | _ => beyond
    end
|}.

(** [class op_Aget]: [^aget[\-a-z]* (.+),\s*(.+),\s*(.+)] *)
Definition op_Aget : OpCode := {|
  expression :=
    {| Re.re := Re.seqs ([Re.Bol; Re.lit "aget"; Re.Star Re.dash_lower;
                          Re.chr " "] ++ Re.operands3 0);
       Re.ngroups := 3 |};
  eval := fun args =>
    match args with
    | [Some vx; Some vy; Some vz] =>
        let! arr := getitem vy in
        let! idx := getitem vz in
        let! c := py_index arr idx in
        setitem vx c
    | _ => beyond
    end
|}.

(** [class op_DivInt]: [^div-int (.+),\s*(.+),\s*(.+)] *)
Definition op_DivInt : OpCode := {|
  expression :=
    {| Re.re := Re.seqs ([Re.Bol; Re.lit "div-int "] ++ Re.operands3 0);
       Re.ngroups := 3 |};
  eval := fun args =>
    match args with
    | [Some vx; Some vy; Some vz] =>
        let! a := getitem vy in
        let! b := getitem vz in
        let! c := py_floordiv a b in
        setitem vx c
    | _ => beyond
    end
|}.

(** [class op_RemInt]: [^rem-int (.+),\s*(.+),\s*(.+)] *)
Definition op_RemInt : OpCode := {|
  expression :=
    {| Re.re := Re.seqs ([Re.Bol; Re.lit "rem-int "] ++ Re.operands3 0);
       Re.ngroups := 3 |};
  eval := fun args =>
    match args with
    | [Some vx; Some vy; Some vz] =>
        let! a := getitem vy in
        let! b := getitem vz in
        let! c := py_mod a b in
        setitem vx c
    | _ => beyond
    end
|}.

(** [class op_APut]: [^aput(?:-[a-z]+)? (.+),\s*(.+),\s*(.+)] *)
Definition op_APut : OpCode := {|
  expression :=
    {| Re.re := Re.seqs ([Re.Bol; Re.lit "aput";
                          Re.Opt (Re.Seq (Re.chr "-") (Re.Plus Re.lower));
                          Re.chr " "] ++ Re.operands3 0);
       Re.ngroups := 3 |};
  eval := fun args =>
    match args with
    | [Some vx; Some vy; Some vz] =>
        let! iz := getitem vz in
        let! idx := py_int iz in
        let! arr := getitem vy in
        let! val := getitem vx in
        let! n := py_len arr in
        let! _ :=
          (if n >? idx then py_store arr idx val
           else
             let! n' := py_len arr in
             if idx =? n' then py_append arr val else ret tt) in
        setitem vy arr
    | _ => beyond
    end
|}.

(** Modelled from the spec: [vm.emu.fatal(message)] (absent from the sources)
    requests fatal termination with a diagnostic. *)
Definition emu_fatal (msg : string) : M unit :=
  fun vm => Ok tt (set_fatal msg vm).

(** [class op_IntToType]: [^int-to-([a-z]+) (.+),\s*(.+)] *)
Definition op_IntToType : OpCode := {|
  expression :=
    {| Re.re := Re.seqs ([Re.Bol; Re.lit "int-to-";
                          Re.Group 0 (Re.Plus Re.lower); Re.chr " "]
                         ++ Re.operands2 1);
       Re.ngroups := 3 |};
  eval := fun args =>
    match args with
    | [Some ctype; Some vx; Some vy] =>
        if String.eqb ctype "char" then
          let! a := getitem vy in
          let! n := py_and a 65535 in
          let! c := py_chr n in
          setitem vx c
        else if String.eqb ctype "byte" then
          let! a := getitem vy in
          let! b := pack_last_byte a in
          setitem vx b
        else emu_fatal ("Unsupported type '" ++ ctype ++ "' .")
    | _ => beyond
    end
|}.

(** [class op_PackedSwitch]: [^packed-switch (.+),\s*(.+)].  A table that is
    not in [vm.packed_switches] leaves [first_value] at [None], and the
    subtraction raises [TypeError]. *)
Definition op_PackedSwitch : OpCode := {|
  expression :=
    {| Re.re := Re.seqs ([Re.Bol; Re.lit "packed-switch "] ++ Re.operands2 0);
       Re.ngroups := 2 |};
  eval := fun args =>
    match args with
    | [Some vx; Some table] =>
        let! val := getitem vx in
        fun vm =>
          match packed_switches vm !! table with
          | None => Raise TypeError vm
          | Some switch =>
              (let! case_idx := cell_sub_int val (first_value switch) in
               if (case_idx >=? Z.of_nat (length (cases switch)))
                  || (case_idx <? 0)
               then ret tt
               else
                 match cases switch !! Z.to_nat case_idx with
                 | Some case_label => goto case_label
                 | None => raise IndexError
                 end) vm
          end
    | _ => beyond
    end
|}.

(** The test of the [assert] in [op_RSubIntLiteral]:
    [-(2 ** (n - 1)) <= x <= 2 ** (n - 1) - 1].  For [n = 0] the power is the
    float [0.5] and no integer passes. *)
Definition fits_signed (n x : Z) : bool :=
  if n =? 0 then false
  else (- 2 ^ (n - 1) <=? x) && (x <=? 2 ^ (n - 1) - 1).

(** [class op_RSubIntLiteral]: [^rsub-int/lit(\d+) (.+),\s*(.+),\s*(.+)] *)
Definition op_RSubIntLiteral : OpCode := {|
  expression :=
    {| Re.re := Re.seqs ([Re.Bol; Re.lit "rsub-int/lit";
                          Re.Group 0 (Re.Plus Re.digit); Re.chr " "]
                         ++ Re.operands3 1);
       Re.ngroups := 4 |};
  eval := fun args =>
    match args with
    | [Some register_size; Some destination; Some source; Some constant] =>
        let! register_size := covered (int_of_digits register_size) in
        let! source := getitem source in
        let! constant := covered (get_int_value constant) in
        let! result := int_sub_cell constant source in
        match source with
        | CInt src =>
            if forallb (fits_signed register_size) [src; constant; result]
            then setitem destination (CInt result)
            else raise AssertionError
        | _ => beyond
        end
    | _ => beyond
    end
|}.

(** ** Invocation: the bridge is a collaborator outside the opcode layer *)

Section Bridge.

(** [vm.invoke(this, klass, method, args)] *)
Variable invoke : string -> string -> string -> list string -> M unit.

(** [class op_Invoke]: [^invoke-(?:[a-z]+) \{G\},\s*(.+)], where the group
    [G] between the braces is a possibly empty run of [.]. *)
Definition op_Invoke : OpCode := {|
  expression :=
    {| Re.re := Re.seqs [Re.Bol; Re.lit "invoke-"; Re.Plus Re.lower;
                         Re.lit " {"; Re.Group 0 (Re.Star Re.dot);
                         Re.lit "},"; Re.Star Re.space;
                         Re.Group 1 (Re.Plus Re.dot)];
       Re.ngroups := 2 |};
  eval := fun args =>
    match args with
    | [Some args; Some call] =>
        let args := List.map Py.strip (Py.split "," args) in
        match args with
        | this :: args =>
            match Py.split ";->" call with
            | [klass; method] => invoke this klass method args
            | _ => raise ValueError
            end
        | [] => raise IndexError
        end
    | _ => beyond
    end
|}.

End Bridge.

(** ** The characters of an integer literal *)

Definition has_digit (digit : ascii -> option Z) (c : ascii) : bool :=
  match digit c with Some _ => true | None => false end.

(** The characters of the literals [literal_eval] covers. *)
Definition literal_char (c : ascii) : bool :=
  has_digit hex_digit c || Py.is_char "x" c || Py.is_char "X" c
  || Py.is_char "-" c.

(** The same, with the suffixes [get_int_value] strips. *)
Definition suffixed_literal_char (c : ascii) : bool :=
  literal_char c || Py.is_char "t" c || Py.is_char "s" c.

(** ** The shape of instruction lines *)

(** The text starts with a character that is not whitespace. *)
Definition starts_plain (s : string) : bool :=
  match s with
  | EmptyString => false
  | String c _ => negb (Py.is_space c)
  end.

(** A non-empty text without whitespace, such as a register name. *)
Definition token (s : string) : bool :=
  starts_plain s && Py.all_chars (fun c => negb (Py.is_space c)) s.

(** The last operand of a line: no newline, and no [x] in it. *)
Definition last_operand (x : ascii) (s : string) : bool :=
  starts_plain s && Py.all_chars (fun c => Py.is_dot c && negb (Py.is_char x c)) s.

(** The mnemonics [const] and [const/N] for a decimal [N]. *)
Definition const_variant (m : string) : Prop :=
  m = "const"
  \/ exists ds, ds <> "" /\ Py.all_chars Py.is_digit ds = true /\ m = "const/" ++ ds.

(** A bridge for the examples: it reports the call it received through the
    diagnostic of the emulator. *)
Definition reporting_bridge (this klass method : string) (args : list string)
  : M unit :=
  emu_fatal ("this=" ++ this ++ " class=" ++ klass ++ " method=" ++ method
             ++ " args=" ++ String.concat "," args).

(** ** States used in the examples *)

Definition vm_regs (regs : gmap string Cell) (arrays : gmap nat (list Cell)) : VM :=
  {| variables := regs; heap := arrays; pc := 3%nat;
     labels := {[ ":A" := 10%nat; ":B" := 12%nat ]};
     packed_switches :=
       {[ ":T" := {| first_value := 0; cases := [":A"; ":B"] |} ]};
     exceptions := []; catch_blocks := []; fatal := None |}.

(** [v0 = 7], [v1 = 0], [v2 = 4] *)
Definition vm_ints : VM :=
  vm_regs {[ "v0" := CInt 7; "v1" := CInt 0; "v2" := CInt 4 ]} ∅.

(** [v0 = 1], [v1 = 2], [v2 = 4] *)
Definition vm_small : VM :=
  vm_regs {[ "v0" := CInt 1; "v1" := CInt 2; "v2" := CInt 4 ]} ∅.

(** [v0 = -1] *)
Definition vm_minus_one : VM := vm_regs {[ "v0" := CInt (-1) ]} ∅.

(** [v0 = 255] *)
Definition vm_255 : VM := vm_regs {[ "v0" := CInt 255 ]} ∅.

(** [v4] is the array [[10, 20]]; [v0 = 7], [v1 = 0], [v2 = 2], [v3 = 5],
    [v5 = -1], [v6 = -3]. *)
Definition vm_array : VM :=
  vm_regs {[ "v0" := CInt 7; "v1" := CInt 0; "v2" := CInt 2; "v3" := CInt 5;
             "v4" := CArr 0; "v5" := CInt (-1); "v6" := CInt (-3) ]}
          {[ 0%nat := [CInt 10; CInt 20] ]}.

(** ** Further Python operators *)

(** [a + b]; the sum of two strings or of two lists is a new, longer
    object, which is not covered. *)
Definition py_add (a b : Cell) : M Cell :=
  match a, b with
  | CInt x, CInt y => ret (CInt (x + y))
  | CChar _, CChar _ => beyond
  | CArr _, CArr _ => beyond
  | _, _ => raise TypeError
  end.

(** [a - b] *)
Definition py_sub (a b : Cell) : M Cell :=
  match a, b with
  | CInt x, CInt y => ret (CInt (x - y))
  | _, _ => raise TypeError
  end.

(** [a * b]; an integer times a string or a list repeats it, which is not
    covered. *)
Definition py_mul (a b : Cell) : M Cell :=
  match a, b with
  | CInt x, CInt y => ret (CInt (x * y))
  | CInt _, _ => beyond
  | _, CInt _ => beyond
  | _, _ => raise TypeError
  end.

(** [a & b], [a | b], [a ^ b]: defined on two integers only. *)
Definition py_bitwise (f : Z -> Z -> Z) (a b : Cell) : M Cell :=
  match a, b with
  | CInt x, CInt y => ret (CInt (f x y))
  | _, _ => raise TypeError
  end.

(** [-a] *)
Definition py_neg (a : Cell) : M Cell :=
  match a with
  | CInt x => ret (CInt (- x))
  | _ => raise TypeError
  end.

(** [isinstance(a, int)] *)
Definition is_int (a : Cell) : bool :=
  match a with CInt _ => true | _ => false end.

(** [ord(a)] *)
Definition py_ord (a : Cell) : M Z :=
  match a with
  | CChar cp => ret cp
  | _ => raise TypeError
  end.

(** [a == b].  A list equals itself; the comparison of two different list
    objects goes through their elements and is not covered. *)
Definition py_eq (a b : Cell) : M bool :=
  match a, b with
  | CInt x, CInt y => ret (x =? y)
  | CChar x, CChar y => ret (x =? y)
  | CArr l, CArr l' => if (l =? l')%nat then ret true else beyond
  | _, _ => ret false
  end.

(** [a != b] *)
Definition py_ne (a b : Cell) : M bool :=
  let! t := py_eq a b in ret (negb t).

(** The orderings [a < b], [a <= b], [a > b], [a >= b]: [on_int] is the test
    on integers and on code points, [refl] the value on one and the same
    list; operands of different types raise [TypeError]. *)
Definition py_order (on_int : Z -> Z -> bool) (refl : bool) (a b : Cell)
  : M bool :=
  match a, b with
  | CInt x, CInt y => ret (on_int x y)
  | CChar x, CChar y => ret (on_int x y)
  | CArr l, CArr l' => if (l =? l')%nat then ret refl else beyond
  | _, _ => raise TypeError
  end.

Definition py_lt : Cell -> Cell -> M bool := py_order Z.ltb false.
Definition py_le : Cell -> Cell -> M bool := py_order Z.leb true.
Definition py_gt : Cell -> Cell -> M bool := py_order Z.gtb false.
Definition py_ge : Cell -> Cell -> M bool := py_order Z.geb true.

(** ** Further opcode classes *)

(** [class op_Move]: [^move(?:-object)? (.+),\s*(.+)] *)
Definition op_Move : OpCode := {|
  expression :=
    {| Re.re := Re.seqs ([Re.Bol; Re.lit "move"; Re.Opt (Re.lit "-object");
                          Re.chr " "] ++ Re.operands2 0);
       Re.ngroups := 2 |};
  eval := fun args =>
    match args with
    | [Some vx; Some vy] =>
        let! c := getitem vy in
        setitem vx c
    | _ => beyond
    end
|}.

(** The classes [op_IfLe], [op_IfGe], [op_IfGt], [op_IfEq], [op_IfNe] and
    [op_IfLt] differ in the mnemonic and in the comparison only:
    [^if-le (.+),\s*(.+),\s*(\:.+)] and
    [if vm[vx] <= vm[vy]: vm.goto(label)]. *)
Definition if_cmp (mnemonic : string) (cmp : Cell -> Cell -> M bool) : OpCode := {|
  expression :=
    {| Re.re := Re.seqs ([Re.Bol; Re.lit mnemonic; Re.chr " ";
                          Re.Group 0 (Re.Plus Re.dot); Re.chr ","; Re.Star Re.space;
                          Re.Group 1 (Re.Plus Re.dot); Re.chr ","; Re.Star Re.space;
                          Re.Group 2 (Re.Seq (Re.chr ":") (Re.Plus Re.dot))]);
       Re.ngroups := 3 |};
  eval := fun args =>
    match args with
    | [Some vx; Some vy; Some label] =>
        let! a := getitem vx in
        let! b := getitem vy in
        let! t := cmp a b in
        if t then goto label else ret tt
    | _ => beyond
    end
|}.

Definition op_IfLe : OpCode := if_cmp "if-le" py_le.
Definition op_IfGe : OpCode := if_cmp "if-ge" py_ge.
Definition op_IfGt : OpCode := if_cmp "if-gt" py_gt.
Definition op_IfEq : OpCode := if_cmp "if-eq" py_eq.
Definition op_IfNe : OpCode := if_cmp "if-ne" py_ne.
Definition op_IfLt : OpCode := if_cmp "if-lt" py_lt.

(** The classes [op_IfGez], [op_IfLtz], [op_IfGtz], [op_IfLez], [op_IfEqz]
    and [op_IfNez]: [^if-gez (.+),\s*(\:.+)] and
    [if vm[vx] >= 0: vm.goto(label)]. *)
Definition if_cmpz (mnemonic : string) (cmp : Cell -> Cell -> M bool) : OpCode := {|
  expression :=
    {| Re.re := Re.seqs ([Re.Bol; Re.lit mnemonic; Re.chr " ";
                          Re.Group 0 (Re.Plus Re.dot); Re.chr ","; Re.Star Re.space;
                          Re.Group 1 (Re.Seq (Re.chr ":") (Re.Plus Re.dot))]);
       Re.ngroups := 2 |};
  eval := fun args =>
    match args with
    | [Some vx; Some label] =>
        let! a := getitem vx in
        let! t := cmp a (CInt 0) in
        if t then goto label else ret tt
    | _ => beyond
    end
|}.

Definition op_IfGez : OpCode := if_cmpz "if-gez" py_ge.
Definition op_IfLtz : OpCode := if_cmpz "if-ltz" py_lt.
Definition op_IfGtz : OpCode := if_cmpz "if-gtz" py_gt.
Definition op_IfLez : OpCode := if_cmpz "if-lez" py_le.
Definition op_IfEqz : OpCode := if_cmpz "if-eqz" py_eq.
Definition op_IfNez : OpCode := if_cmpz "if-nez" py_ne.

(** [class op_ArrayLength]: [array-length (.+),\s*(.+)], without [^] *)
Definition op_ArrayLength : OpCode := {|
  expression :=
    {| Re.re := Re.seqs ([Re.lit "array-length "] ++ Re.operands2 0);
       Re.ngroups := 2 |};
  eval := fun args =>
    match args with
    | [Some vx; Some vy] =>
        let! arr := getitem vy in
        let! n := py_len arr in
        setitem vx (CInt n)
    | _ => beyond
    end
|}.

(** The operand of the xor and or handlers: [int(vm[vy])] when
    [isinstance(vm[vy], int)], and [ord(vm[vy])] otherwise. *)
Definition int_or_ord (vy : string) : M Z :=
  let! c := getitem vy in
  if is_int c then
    let! c' := getitem vy in py_int c'
  else
    let! c' := getitem vy in py_ord c'.

(** [class op_XorInt2Addr]: [^xor-int(?:/2addr)? (.+),\s*(.+)].  In
    [vm[vx] ^= e] the old value of [vm[vx]] is read before [e] is
    evaluated. *)
Definition op_XorInt2Addr : OpCode := {|
  expression :=
    {| Re.re := Re.seqs ([Re.Bol; Re.lit "xor-int"; Re.Opt (Re.lit "/2addr");
                          Re.chr " "] ++ Re.operands2 0);
       Re.ngroups := 2 |};
  eval := fun args =>
    match args with
    | [Some vx; Some vy] =>
        let! c := getitem vy in
        if is_int c then
          let! old := getitem vx in
          let! c' := getitem vy in
          let! v := py_int c' in
          let! r := py_bitwise Z.lxor old (CInt v) in
          setitem vx r
        else
          let! old := getitem vx in
          let! c' := getitem vy in
          let! v := py_ord c' in
          let! r := py_bitwise Z.lxor old (CInt v) in
          setitem vx r
    | _ => beyond
    end
|}.

(** [class op_XorIntLit]: [^xor-int/lit\d+ (.+),\s*(.+),\s*(.+)] *)
Definition op_XorIntLit : OpCode := {|
  expression :=
    {| Re.re := Re.seqs ([Re.Bol; Re.lit "xor-int/lit"; Re.Plus Re.digit;
                          Re.chr " "] ++ Re.operands3 0);
       Re.ngroups := 3 |};
  eval := fun args =>
    match args with
    | [Some vx; Some vy; Some lit] =>
        let! ii := int_or_ord vy in
        let! z := covered (get_int_value lit) in
        setitem vx (CInt (Z.lxor ii z))
    | _ => beyond
    end
|}.

(** [class op_OrIntLiteral]: [^or-int/lit(\d+) (.+),\s*(.+),\s*(.+)] *)
Definition op_OrIntLiteral : OpCode := {|
  expression :=
    {| Re.re := Re.seqs ([Re.Bol; Re.lit "or-int/lit";
                          Re.Group 0 (Re.Plus Re.digit); Re.chr " "]
                         ++ Re.operands3 1);
       Re.ngroups := 4 |};
  eval := fun args =>
    match args with
    | [Some size; Some vx; Some vy; Some literal] =>
        let! ii := int_or_ord vy in
        let! z := covered (get_int_value literal) in
        setitem vx (CInt (Z.lor ii z))
    | _ => beyond
    end
|}.

(** [class op_DivIntLit] (declared twice in the source, with the same
    text): [^div-int/lit\d+ (.+),\s*(.+),\s*(.+)] *)
Definition op_DivIntLit : OpCode := {|
  expression :=
    {| Re.re := Re.seqs ([Re.Bol; Re.lit "div-int/lit"; Re.Plus Re.digit;
                          Re.chr " "] ++ Re.operands3 0);
       Re.ngroups := 3 |};
  eval := fun args =>
    match args with
    | [Some vx; Some vy; Some lit] =>
        let! a := getitem vy in
        let! z := covered (get_int_value lit) in
        let! c := py_floordiv a (CInt z) in
        setitem vx c
    | _ => beyond
    end
|}.

(** [class op_RemIntLit]: [^rem-int/lit\d+ (.+),\s*(.+),\s*(.+)] *)
Definition op_RemIntLit : OpCode := {|
  expression :=
    {| Re.re := Re.seqs ([Re.Bol; Re.lit "rem-int/lit"; Re.Plus Re.digit;
                          Re.chr " "] ++ Re.operands3 0);
       Re.ngroups := 3 |};
  eval := fun args =>
    match args with
    | [Some vx; Some vy; Some lit] =>
        let! a := getitem vy in
        let! x := py_int a in
        let! z := covered (get_int_value lit) in
        let! c := py_mod (CInt x) (CInt z) in
        setitem vx c
    | _ => beyond
    end
|}.

(** The three-register classes [op_AddInt], [op_SubInt], [op_MulInt],
    [op_AndInt] and [op_OrInt]: [^add-int (.+),\s*(.+),\s*(.+)] and
    [vm[vx] = vm[vy] + vm[vz]]. *)
Definition binop3 (mnemonic : string) (f : Cell -> Cell -> M Cell) : OpCode := {|
  expression :=
    {| Re.re := Re.seqs ([Re.Bol; Re.lit mnemonic; Re.chr " "]
                         ++ Re.operands3 0);
       Re.ngroups := 3 |};
  eval := fun args =>
    match args with
    | [Some vx; Some vy; Some vz] =>
        let! a := getitem vy in
        let! b := getitem vz in
        let! c := f a b in
        setitem vx c
    | _ => beyond
    end
|}.

Definition op_AddInt : OpCode := binop3 "add-int" py_add.
Definition op_SubInt : OpCode := binop3 "sub-int" py_sub.
Definition op_MulInt : OpCode := binop3 "mul-int" py_mul.
Definition op_AndInt : OpCode := binop3 "and-int" (py_bitwise Z.land).
Definition op_OrInt : OpCode := binop3 "or-int" (py_bitwise Z.lor).

(** [class op_AndIntLit]: [^and-int/lit\d+ (.+),\s*(.+),\s*(.+)] *)
Definition op_AndIntLit : OpCode := {|
  expression :=
    {| Re.re := Re.seqs ([Re.Bol; Re.lit "and-int/lit"; Re.Plus Re.digit;
                          Re.chr " "] ++ Re.operands3 0);
       Re.ngroups := 3 |};
  eval := fun args =>
    match args with
    | [Some vx; Some vy; Some lit] =>
        let! a := getitem vy in
        let! x := py_int a in
        let! z := covered (get_int_value lit) in
        setitem vx (CInt (Z.land x z))
    | _ => beyond
    end
|}.

(** [class op_AndInt2Addr]: [^and-int/2addr (.+),\s*(.+)] *)
Definition op_AndInt2Addr : OpCode := {|
  expression :=
    {| Re.re := Re.seqs ([Re.Bol; Re.lit "and-int/2addr "] ++ Re.operands2 0);
       Re.ngroups := 2 |};
  eval := fun args =>
    match args with
    | [Some vx; Some vy] =>
        let! a := getitem vy in
        let! y := py_int a in
        let! b := getitem vx in
        let! x := py_int b in
        setitem vx (CInt (Z.land y x))
    | _ => beyond
    end
|}.

(** [class op_GoTo]: [^goto(?:/\d+)? (:.+)] *)
Definition op_GoTo : OpCode := {|
  expression :=
    {| Re.re := Re.seqs [Re.Bol; Re.lit "goto";
                         Re.Opt (Re.Seq (Re.chr "/") (Re.Plus Re.digit));
                         Re.chr " ";
                         Re.Group 0 (Re.Seq (Re.chr ":") (Re.Plus Re.dot))];
       Re.ngroups := 1 |};
  eval := fun args =>
    match args with
    | [Some label] => goto label
    | _ => beyond
    end
|}.

(** [vm.variables[name]]: the handlers of static fields address the register
    map itself. *)
Definition variables_get (name : string) : M Cell :=
  fun vm =>
    match variables vm !! name with
    | Some c => Ok c vm
    | None => Raise (KeyError name) vm
    end.

Definition variables_set (name : string) (c : Cell) : M unit :=
  fun vm => Ok tt (set_variables <[name := c]> vm).

(** [class op_SPut]: [^sput(?:-[a-z]+)?\s+(.+),\s*(.+)] *)
Definition op_SPut : OpCode := {|
  expression :=
    {| Re.re := Re.seqs ([Re.Bol; Re.lit "sput";
                          Re.Opt (Re.Seq (Re.chr "-") (Re.Plus Re.lower));
                          Re.Plus Re.space] ++ Re.operands2 0);
       Re.ngroups := 2 |};
  eval := fun args =>
    match args with
    | [Some vx; Some staticVariableName] =>
        let! c := variables_get vx in
        variables_set staticVariableName c
    | _ => beyond
    end
|}.

(** [class op_SGet]: [^sget(?:-[a-z]+)?\s+(.+),\s*(.+)] *)
Definition op_SGet : OpCode := {|
  expression :=
    {| Re.re := Re.seqs ([Re.Bol; Re.lit "sget";
                          Re.Opt (Re.Seq (Re.chr "-") (Re.Plus Re.lower));
                          Re.Plus Re.space] ++ Re.operands2 0);
       Re.ngroups := 2 |};
  eval := fun args =>
    match args with
    | [Some vx; Some staticVariableName] =>
        let! c := variables_get staticVariableName in
        variables_set vx c
    | _ => beyond
    end
|}.

(** [class op_RSubInt]: [^rsub-int\s+(.+),\s*(.+),\s*(.+)] *)
Definition op_RSubInt : OpCode := {|
  expression :=
    {| Re.re := Re.seqs ([Re.Bol; Re.lit "rsub-int"; Re.Plus Re.space]
                         ++ Re.operands3 0);
       Re.ngroups := 3 |};
  eval := fun args =>
    match args with
    | [Some destination; Some source; Some constant] =>
        let! source := getitem source in
        let! constant := covered (get_int_value constant) in
        let! result := int_sub_cell constant source in
        setitem destination (CInt result)
    | _ => beyond
    end
|}.

(** The classes [op_AddInt2Addr], [op_SubInt2Addr] and [op_OrInt2Addr]:
    [^add-int/2addr (.+),\s*(.+)]; [source1] is the second operand of the
    line, [source2] the first, and [f source1 source2] is stored into the
    first. *)
Definition binop2addr (mnemonic : string) (f : Cell -> Cell -> M Cell) : OpCode := {|
  expression :=
    {| Re.re := Re.seqs ([Re.Bol; Re.lit mnemonic; Re.chr " "]
                         ++ Re.operands2 0);
       Re.ngroups := 2 |};
  eval := fun args =>
    match args with
    | [Some source_and_dest; Some source_register] =>
        let! source1 := getitem source_register in
        let! source2 := getitem source_and_dest in
        let! result := f source1 source2 in
        setitem source_and_dest result
    | _ => beyond
    end
|}.

Definition op_AddInt2Addr : OpCode := binop2addr "add-int/2addr" py_add.
Definition op_SubInt2Addr : OpCode :=
  binop2addr "sub-int/2addr" (fun source1 source2 => py_sub source2 source1).
Definition op_OrInt2Addr : OpCode :=
  binop2addr "or-int/2addr" (py_bitwise Z.lor).

(** [class op_NegInt]: [^neg-int (.+),\s*(.+)] *)
Definition op_NegInt : OpCode := {|
  expression :=
    {| Re.re := Re.seqs ([Re.Bol; Re.lit "neg-int "] ++ Re.operands2 0);
       Re.ngroups := 2 |};
  eval := fun args =>
    match args with
    | [Some dest; Some source] =>
        let! c := getitem source in
        let! r := py_neg c in
        setitem dest r
    | _ => beyond
    end
|}.

(** The opcode classes embedded here, [op_Invoke] apart. *)
Definition opcodes : list OpCode :=
  [op_Const; op_Move; op_IfLe; op_IfGe; op_IfGez; op_IfLtz; op_IfGt; op_IfGtz;
   op_IfLez; op_IfEq; op_IfNe; op_IfLt; op_IfEqz; op_IfNez; op_ArrayLength;
   op_Aget; op_XorInt2Addr; op_XorIntLit; op_OrIntLiteral; op_DivIntLit;
   op_DivInt; op_AddInt; op_SubInt; op_MulInt; op_RemInt; op_AndInt;
   op_AndIntLit; op_AndInt2Addr; op_OrInt; op_GoTo; op_APut; op_IntToType;
   op_SPut; op_SGet; op_RemIntLit; op_PackedSwitch; op_RSubIntLiteral;
   op_RSubInt; op_AddInt2Addr; op_SubInt2Addr; op_OrInt2Addr; op_NegInt].

(** ** Effects of an action *)

(** The action changes nothing, whether it returns or raises. *)
Definition reads_only {A} (m : M A) : Prop :=
  forall vm,
    match m vm with
    | Ok _ vm' => vm' = vm
    | Raise _ vm' => vm' = vm
    | Beyond => True
    end.

(** When the action raises, the state is as it was before the action. *)
Definition atomic {A} (m : M A) : Prop :=
  forall vm, match m vm with Raise _ vm' => vm' = vm | _ => True end.

Definition never_raises {A} (m : M A) : Prop :=
  forall vm, match m vm with Raise _ _ => False | _ => True end.

(** The parts of the state that belong to the program and to the exception
    mechanism. *)
Definition same_program (vm vm' : VM) : Prop :=
  labels vm' = labels vm /\ packed_switches vm' = packed_switches vm
  /\ catch_blocks vm' = catch_blocks vm /\ exceptions vm' = exceptions vm.

(** The action, when it returns, leaves the program and the exception stack
    alone; [frame] says what else it leaves alone. *)
Definition keeps {A} (frame : VM -> VM -> Prop) (m : M A) : Prop :=
  forall vm,
    match m vm with
    | Ok _ vm' => same_program vm vm' /\ frame vm vm'
    | _ => True
    end.

Definition same_pc_fatal (vm vm' : VM) : Prop :=
  pc vm' = pc vm /\ fatal vm' = fatal vm.

Definition same_data (vm vm' : VM) : Prop :=
  variables vm' = variables vm /\ heap vm' = heap vm /\ fatal vm' = fatal vm.

(** The classes that branch, and those that compute. *)
Definition branch_opcodes : list OpCode :=
  [op_IfLe; op_IfGe; op_IfGez; op_IfLtz; op_IfGt; op_IfGtz; op_IfLez; op_IfEq;
   op_IfNe; op_IfLt; op_IfEqz; op_IfNez; op_GoTo; op_PackedSwitch].

Definition data_opcodes : list OpCode :=
  [op_Const; op_Move; op_ArrayLength; op_Aget; op_XorInt2Addr; op_XorIntLit;
   op_OrIntLiteral; op_DivIntLit; op_DivInt; op_AddInt; op_SubInt; op_MulInt;
   op_RemInt; op_AndInt; op_AndIntLit; op_AndInt2Addr; op_OrInt; op_APut;
   op_SPut; op_SGet; op_RemIntLit; op_RSubIntLiteral; op_RSubInt;
   op_AddInt2Addr; op_SubInt2Addr; op_OrInt2Addr; op_NegInt].

(** The integer the xor and or handlers take from a cell: the integer
    itself, or the code point of a character. *)
Definition operand_value (c : Cell) : option Z :=
  match c with
  | CInt y => Some y
  | CChar cp => Some cp
  | CArr _ => None
  end.

(** [v0 = 7] and [v1] is the character of code point 97. *)
Definition vm_int_char : VM :=
  vm_regs {[ "v0" := CInt 7; "v1" := CChar 97 ]} ∅.

(** [v0 = 97] and [v1 = 0]: the state before [int-to-char v0, v0]. *)
Definition vm_code_zero : VM :=
  vm_regs {[ "v0" := CInt 97; "v1" := CInt 0 ]} ∅.

(** The state after it: [v0] is the character of code point 97, and [v1] is
    still zero. *)
Definition vm_char_zero : VM :=
  set_variables <["v0" := CChar 97]> vm_code_zero.

(** * Properties *)

(** ** The exception mechanism leaves registers and arrays alone *)

Lemma exception_variables (e : exn) (vm : VM) :
  variables (exception e vm) = variables vm.
Proof.
  unfold exception.
  destruct (List.find _ _) as [b|]; [|reflexivity].
  destruct (labels vm !! handler_label b); reflexivity.
Qed.

Lemma exception_heap (e : exn) (vm : VM) :
  heap (exception e vm) = heap vm.
Proof.
  unfold exception.
  destruct (List.find _ _) as [b|]; [|reflexivity].
  destruct (labels vm !! handler_label b); reflexivity.
Qed.

Lemma exception_pushed (e : exn) (vm : VM) :
  exceptions (exception e vm) = e :: exceptions vm.
Proof.
  unfold exception.
  destruct (List.find _ _) as [b|]; [|reflexivity].
  destruct (labels vm !! handler_label b); reflexivity.
Qed.

(** ** [OpCode.parse] *)

Lemma parse_no_match (op : OpCode) (line : string) (vm : VM) :
  Re.search (expression op) line = None -> parse op line vm = Ok false vm.
Proof. intros H. unfold parse. rewrite H. reflexivity. Qed.

Lemma parse_returns (op : OpCode) (line : string) (vm vm' : VM) groups :
  Re.search (expression op) line = Some groups ->
  eval op (List.map (option_map Py.strip) groups) vm = Ok tt vm' ->
  parse op line vm = Ok true vm'.
Proof. intros H E. unfold parse. rewrite H, E. reflexivity. Qed.

Lemma parse_raises (op : OpCode) (line : string) (vm vm' : VM) groups e :
  Re.search (expression op) line = Some groups ->
  eval op (List.map (option_map Py.strip) groups) vm = Raise e vm' ->
  parse op line vm = Ok true (exception e vm').
Proof. intros H E. unfold parse. rewrite H, E. reflexivity. Qed.

(** C10. For every opcode class and every line, [parse] returns [False]
    exactly when the pattern does not match, and then the state is untouched;
    when the pattern matches, it returns [True] whether the semantic action
    returns or raises, an exception raised by the action is handed to
    [vm.exception], and no exception of the action ever leaves [parse]. *)
Theorem parse_catches_handler_exceptions (op : OpCode) (line : string) (vm : VM) :
  ((exists vm', parse op line vm = Ok false vm')
     <-> Re.search (expression op) line = None)
  /\ (forall vm', parse op line vm = Ok false vm' -> vm' = vm)
  /\ (forall e vm', parse op line vm <> Raise e vm')
  /\ (forall groups,
        Re.search (expression op) line = Some groups ->
        (forall vm',
            eval op (List.map (option_map Py.strip) groups) vm = Ok tt vm' ->
            parse op line vm = Ok true vm')
        /\ (forall e vm',
            eval op (List.map (option_map Py.strip) groups) vm = Raise e vm' ->
            parse op line vm = Ok true (exception e vm'))).
Proof.
  unfold parse.
  destruct (Re.search (expression op) line) as [groups|] eqn:Hs.
  - destruct (eval op _ vm) as [[] vm1|e1 vm1|] eqn:He;
      (split; [split; [intros [vm' H]; discriminate | discriminate] |]);
      (split; [intros vm' H; discriminate |]);
      (split; [intros e vm' H; discriminate |]);
      intros g Hg; injection Hg as <-; rewrite He; split; congruence.
  - split; [split; [reflexivity | eauto] |].
    split; [congruence |].
    split; [discriminate |].
    discriminate.
Qed.

(** ** Division and remainder *)

(** C1 (amended). An execution of [div-int] or [rem-int] whose dividend
    register holds an integer and whose divisor register holds zero stores
    nothing: the action raises [ZeroDivisionError], an arithmetic exception,
    with the state as it was; [parse] hands it to [vm.exception] and returns
    [True]; the registers, the destination among them, are unchanged. *)
Theorem div_rem_zero_divisor
    (op : OpCode) (line : string) (vm : VM) (vx vy vz : string) (a : Z) :
  op = op_DivInt \/ op = op_RemInt ->
  Re.search (expression op) line = Some [Some vx; Some vy; Some vz] ->
  variables vm !! Py.strip vy = Some (CInt a) ->
  variables vm !! Py.strip vz = Some (CInt 0) ->
  eval op [Some (Py.strip vx); Some (Py.strip vy); Some (Py.strip vz)] vm
    = Raise ZeroDivisionError vm
  /\ parse op line vm = Ok true (exception ZeroDivisionError vm)
  /\ is_ArithmeticError ZeroDivisionError = true
  /\ variables (exception ZeroDivisionError vm) = variables vm
  /\ exceptions (exception ZeroDivisionError vm)
       = ZeroDivisionError :: exceptions vm.
Proof.
  intros Hop Hs Hy Hz.
  assert (He : eval op [Some (Py.strip vx); Some (Py.strip vy); Some (Py.strip vz)] vm
               = Raise ZeroDivisionError vm).
  { destruct Hop as [-> | ->]; cbn [eval op_DivInt op_RemInt];
      unfold bind, getitem; rewrite Hy, Hz; reflexivity. }
  split; [exact He|].
  split; [exact (parse_raises op line vm vm _ _ Hs He)|].
  split; [reflexivity|].
  split; [apply exception_variables | apply exception_pushed].
Qed.

Lemma div_rem_zero_divisor_witness :
  parse op_DivInt "div-int v2, v0, v1" vm_ints
    = Ok true (exception ZeroDivisionError vm_ints)
  /\ parse op_RemInt "rem-int v2, v0, v1" vm_ints
    = Ok true (exception ZeroDivisionError vm_ints).
Proof.
  split.
  - apply (div_rem_zero_divisor op_DivInt "div-int v2, v0, v1" vm_ints
             "v2" "v0" "v1" 7); [left; reflexivity | reflexivity ..].
  - apply (div_rem_zero_divisor op_RemInt "rem-int v2, v0, v1" vm_ints
             "v2" "v0" "v1" 7); [right; reflexivity | reflexivity ..].
Defined.

(** C1, counterexample. A zero divisor alone does not give an arithmetic
    exception: the dividend register may hold a character, which is what
    [int-to-char] stores.  After [int-to-char v0, v0] on [v0 = 97], with
    [v1 = 0], the line [div-int v2, v0, v1] raises [TypeError] before the
    divisor is looked at; [parse] hands that to [vm.exception], and it is
    not an arithmetic exception. *)
Lemma div_int_character_dividend_raises_TypeError :
  parse op_IntToType "int-to-char v0, v0" vm_code_zero = Ok true vm_char_zero
  /\ variables vm_char_zero !! "v1" = Some (CInt 0)
  /\ eval op_DivInt [Some "v2"; Some "v0"; Some "v1"] vm_char_zero
     = Raise TypeError vm_char_zero
  /\ parse op_DivInt "div-int v2, v0, v1" vm_char_zero
     = Ok true (exception TypeError vm_char_zero)
  /\ is_ArithmeticError TypeError = false
  /\ exceptions (exception TypeError vm_char_zero) = [TypeError].
Proof.
  repeat split; reflexivity.
Qed.

(** ** Packed switch *)



(** ** Reverse subtraction with a literal *)

Lemma fits_signed_range (n x : Z) :
  fits_signed n x = true -> 0 <= n -> 0 < n /\ - 2 ^ (n - 1) <= x <= 2 ^ (n - 1) - 1.
Proof.
  unfold fits_signed. destruct (n =? 0) eqn:Hn; [discriminate|].
  intros H Hpos. apply andb_true_iff in H as [H1 H2].
  apply Z.leb_le in H1, H2. apply Z.eqb_neq in Hn.
  split; [lia | split; assumption].
Qed.

Lemma digits_nonneg (base : Z) (digit : ascii -> option Z) (s : string) :
  0 <= base -> (forall c d, digit c = Some d -> 0 <= d) ->
  forall acc n, 0 <= acc -> digits base digit acc s = Some n -> 0 <= n.
Proof.
  intros Hb Hd. induction s as [|c s IH]; intros acc n Hacc H; cbn in H.
  - injection H as <-. exact Hacc.
  - destruct (digit c) as [d|] eqn:Hc; [|discriminate].
    apply (IH (acc * base + d)); [|exact H].
    specialize (Hd c d Hc). nia.
Qed.

Lemma dec_digit_range (c : ascii) (d : Z) : dec_digit c = Some d -> 0 <= d <= 9.
Proof.
  unfold dec_digit, Py.is_digit. cbv zeta.
  destruct (_ && _) eqn:H; [|discriminate].
  intros [= <-]. apply andb_true_iff in H as [H1 H2].
  apply N.leb_le in H1, H2. lia.
Qed.

Lemma int_of_digits_nonneg (s : string) (n : Z) :
  int_of_digits s = Some n -> 0 <= n.
Proof.
  destruct s as [|c s]; [discriminate|]. unfold int_of_digits.
  apply digits_nonneg; [lia | | lia].
  intros c' d H. apply dec_digit_range in H. lia.
Qed.

(** C6. An execution of [rsub-int/litN] that completes without raising
    stores exactly [literal - vY] into the destination register, and that
    value lies in [-2^(N-1), 2^(N-1) - 1]; for [lit8] it lies in
    [-128, 127]. *)
Theorem rsub_int_literal_in_range
    (line : string) (vm vm' : VM) (size dest src lit : string) :
  Re.search (expression op_RSubIntLiteral) line
    = Some [Some size; Some dest; Some src; Some lit] ->
  eval op_RSubIntLiteral
    [Some (Py.strip size); Some (Py.strip dest); Some (Py.strip src);
     Some (Py.strip lit)] vm = Ok tt vm' ->
  exists n literal y,
    int_of_digits (Py.strip size) = Some n
    /\ get_int_value (Py.strip lit) = Some literal
    /\ variables vm !! Py.strip src = Some (CInt y)
    /\ parse op_RSubIntLiteral line vm = Ok true vm'
    /\ vm' = set_variables <[Py.strip dest := CInt (literal - y)]> vm
    /\ variables vm' !! Py.strip dest = Some (CInt (literal - y))
    /\ 0 < n
    /\ - 2 ^ (n - 1) <= literal - y <= 2 ^ (n - 1) - 1
    /\ (n = 8 -> -128 <= literal - y <= 127).
Proof.
  intros Hs He.
  pose proof (parse_returns _ _ _ _ _ Hs He) as Hp.
  cbn [eval op_RSubIntLiteral] in He. unfold bind, covered in He.
  destruct (int_of_digits (Py.strip size)) as [n|] eqn:Hn; [|discriminate].
  cbn in He. unfold getitem in He.
  destruct (variables vm !! Py.strip src) as [c|] eqn:Hy; [|discriminate].
  destruct (get_int_value (Py.strip lit)) as [literal|] eqn:Hl; [|discriminate].
  cbn in He. destruct c as [y|cp|l]; cbn in He; try discriminate.
  destruct (fits_signed n y); cbn in He; [|discriminate].
  destruct (fits_signed n literal); cbn in He; [|discriminate].
  destruct (fits_signed n (literal - y)) eqn:Hr; cbn in He; [|discriminate].
  injection He as <-.
  apply fits_signed_range in Hr as [Hpos Hr]; [|eapply int_of_digits_nonneg; eauto].
  exists n, literal, y.
  repeat (split; [first [reflexivity | assumption | lia]|]).
  split; [cbn; apply lookup_insert_eq|].
  split; [exact Hpos|]. split; [exact Hr|].
  intros ->. cbn in Hr. lia.
Qed.

Lemma rsub_int_literal_in_range_witness :
  exists n literal y,
    int_of_digits "8" = Some n
    /\ get_int_value "0x3" = Some literal
    /\ variables vm_small !! "v1" = Some (CInt y)
    /\ parse op_RSubIntLiteral "rsub-int/lit8 v2, v1, 0x3" vm_small
        = Ok true (set_variables <["v2" := CInt 1]> vm_small)
    /\ set_variables <["v2" := CInt 1]> vm_small
        = set_variables <["v2" := CInt (literal - y)]> vm_small
    /\ variables (set_variables <["v2" := CInt 1]> vm_small) !! "v2"
        = Some (CInt (literal - y))
    /\ 0 < n
    /\ - 2 ^ (n - 1) <= literal - y <= 2 ^ (n - 1) - 1
    /\ (n = 8 -> -128 <= literal - y <= 127).
Proof.
  exact (rsub_int_literal_in_range "rsub-int/lit8 v2, v1, 0x3" vm_small
           (set_variables <["v2" := CInt 1]> vm_small) "8" "v2" "v1" "0x3"
           eq_refl eq_refl).
Defined.

(** ** Conversion to byte *)

Lemma struct_pack_i_last (x : Z) :
  - 2 ^ 31 <= x <= 2 ^ 31 - 1 ->
  pack_last_byte (CInt x) = ret (CInt (x mod 256)).
Proof.
  intros Hx. unfold pack_last_byte, struct_pack_i.
  replace ((- 2 ^ 31 <=? x) && (x <=? 2 ^ 31 - 1)) with true
    by (symmetry; apply andb_true_iff; split; apply Z.leb_le; lia).
  rewrite (Z.mod_mod_divide x (2 ^ 32) 256) by (exists (2 ^ 24); reflexivity).
  reflexivity.
Qed.

Lemma struct_pack_i_overflow (x : Z) :
  ~ - 2 ^ 31 <= x <= 2 ^ 31 - 1 ->
  pack_last_byte (CInt x) = raise StructError.
Proof.
  intros Hx. unfold pack_last_byte, struct_pack_i.
  destruct ((- 2 ^ 31 <=? x) && (x <=? 2 ^ 31 - 1)) eqn:H; [|reflexivity].
  apply andb_true_iff in H as [H1 H2]. apply Z.leb_le in H1, H2. lia.
Qed.

(** C4 (amended). An execution of [int-to-byte vX, vY] with an integer in
    [vY] that fits 32 signed bits stores the low 8 bits of [vY] as an
    unsigned value: an integer of [0, 255] congruent to [vY] modulo 256.
    When [vY] does not fit 32 signed bits, [struct.error] goes to
    [vm.exception] and nothing is stored. *)
Theorem int_to_byte_stores_unsigned_low_byte
    (line : string) (vm : VM) (ctype vx vy : string) (x : Z) :
  Re.search (expression op_IntToType) line
    = Some [Some ctype; Some vx; Some vy] ->
  Py.strip ctype = "byte" ->
  variables vm !! Py.strip vy = Some (CInt x) ->
  (- 2 ^ 31 <= x <= 2 ^ 31 - 1 ->
     parse op_IntToType line vm
       = Ok true (set_variables <[Py.strip vx := CInt (x mod 256)]> vm)
     /\ 0 <= x mod 256 <= 255
     /\ x mod 256 = Z.land x 255
     /\ (256 | x - x mod 256))
  /\ (~ - 2 ^ 31 <= x <= 2 ^ 31 - 1 ->
      parse op_IntToType line vm = Ok true (exception StructError vm)
      /\ variables (exception StructError vm) = variables vm).
Proof.
  intros Hs Hc Hy.
  assert (He : eval op_IntToType
                 [Some (Py.strip ctype); Some (Py.strip vx); Some (Py.strip vy)] vm
               = (let! b := pack_last_byte (CInt x) in setitem (Py.strip vx) b) vm).
  { cbn [eval op_IntToType]. rewrite Hc. cbn [String.eqb Ascii.eqb Bool.eqb].
    unfold bind at 1. unfold getitem. rewrite Hy. reflexivity. }
  split.
  - intros Hx. split.
    + apply (parse_returns _ _ _ _ _ Hs). cbn [List.map option_map].
      rewrite He, (struct_pack_i_last x Hx). reflexivity.
    + split; [pose proof (Z.mod_pos_bound x 256); lia|].
      split.
      * change 255 with (Z.ones 8). rewrite Z.land_ones by lia. reflexivity.
      * exists (x / 256). pose proof (Z.div_mod x 256). lia.
  - intros Hx. split; [|apply exception_variables].
    apply (parse_raises _ _ _ _ _ _ Hs). cbn [List.map option_map].
    rewrite He, (struct_pack_i_overflow x Hx). reflexivity.
Qed.

Lemma int_to_byte_stores_unsigned_low_byte_witness :
  parse op_IntToType "int-to-byte v1, v0" vm_255
    = Ok true (set_variables <["v1" := CInt (255 mod 256)]> vm_255)
  /\ 0 <= 255 mod 256 <= 255
  /\ 255 mod 256 = Z.land 255 255
  /\ (256 | 255 - 255 mod 256).
Proof.
  apply (proj1 (int_to_byte_stores_unsigned_low_byte
                  "int-to-byte v1, v0" vm_255 "byte" "v1" "v0" 255
                  eq_refl eq_refl eq_refl)).
  cbn. lia.
Defined.

(** C4, counterexample: with [vY = -1] the handler stores [255], which is
    outside the signed byte range, and not [-1]. *)
Lemma int_to_byte_minus_one_stores_255 :
  variables vm_minus_one !! "v0" = Some (CInt (-1))
  /\ parse op_IntToType "int-to-byte v1, v0" vm_minus_one
     = Ok true (set_variables <["v1" := CInt 255]> vm_minus_one)
  /\ ~ (-128 <= 255 <= 127).
Proof.
  split; [reflexivity|]. split; [reflexivity|]. lia.
Qed.

(** ** Arrays *)

Lemma norm_index_in_range (n : nat) (i : Z) :
  0 <= i < Z.of_nat n -> norm_index n i = Some (Z.to_nat i).
Proof.
  intros H. unfold norm_index.
  replace ((0 <=? i) && (i <? Z.of_nat n)) with true; [reflexivity|].
  symmetry. apply andb_true_iff. split; [apply Z.leb_le | apply Z.ltb_lt]; lia.
Qed.

Lemma norm_index_out_of_range (n : nat) (i : Z) :
  Z.of_nat n <= i \/ i < - Z.of_nat n -> norm_index n i = None.
Proof.
  intros H. unfold norm_index.
  destruct ((0 <=? i) && (i <? Z.of_nat n)) eqn:H1.
  { apply andb_true_iff in H1 as [Ha Hb].
    apply Z.leb_le in Ha. apply Z.ltb_lt in Hb. lia. }
  destruct ((- Z.of_nat n <=? i) && (i <? 0)) eqn:H2; [|reflexivity].
  apply andb_true_iff in H2 as [Ha Hb].
  apply Z.leb_le in Ha. apply Z.ltb_lt in Hb. lia.
Qed.

Lemma set_variables_same (vm : VM) (name : string) (c : Cell) :
  variables vm !! name = Some c -> set_variables <[name := c]> vm = vm.
Proof.
  intros H. destruct vm as [vars hp p lb sw ex cb ft]. unfold set_variables.
  cbn in *. rewrite (insert_id vars name c H). reflexivity.
Qed.

(** C5 (amended). An execution of [aget] on an array register [vY] and an
    integer index register [vZ]: when [0 <= vZ < len(vY)], [vX] receives
    element [vZ]; when [vZ >= len(vY)] or [vZ < -len(vY)], the action raises
    [IndexError], which goes to [vm.exception], and the registers are
    unchanged. *)
Theorem aget_element_or_IndexError
    (line : string) (vm : VM) (vx vy vz : string) (l : nat) (xs : list Cell)
    (i : Z) :
  Re.search (expression op_Aget) line = Some [Some vx; Some vy; Some vz] ->
  variables vm !! Py.strip vy = Some (CArr l) ->
  heap vm !! l = Some xs ->
  variables vm !! Py.strip vz = Some (CInt i) ->
  (0 <= i < Z.of_nat (length xs) ->
   exists c, xs !! Z.to_nat i = Some c
     /\ parse op_Aget line vm
         = Ok true (set_variables <[Py.strip vx := c]> vm))
  /\ (Z.of_nat (length xs) <= i \/ i < - Z.of_nat (length xs) ->
      eval op_Aget [Some (Py.strip vx); Some (Py.strip vy); Some (Py.strip vz)] vm
        = Raise IndexError vm
      /\ parse op_Aget line vm = Ok true (exception IndexError vm)
      /\ variables (exception IndexError vm) = variables vm).
Proof.
  intros Hs Hy Hh Hz.
  assert (He : eval op_Aget
                 [Some (Py.strip vx); Some (Py.strip vy); Some (Py.strip vz)] vm
               = match norm_index (length xs) i with
                 | Some j =>
                     match xs !! j with
                     | Some c => Ok tt (set_variables <[Py.strip vx := c]> vm)
                     | None => Raise IndexError vm
                     end
                 | None => Raise IndexError vm
                 end).
  { cbn [eval op_Aget]. unfold bind, getitem. rewrite Hy, Hz.
    cbn [py_index]. unfold bind, deref. rewrite Hh.
    destruct (norm_index (length xs) i) as [j|]; [|reflexivity].
    destruct (xs !! j); reflexivity. }
  split.
  - intros Hi. rewrite (norm_index_in_range _ _ Hi) in He.
    destruct (xs !! Z.to_nat i) as [c|] eqn:Hc.
    + exists c. split; [reflexivity|].
      exact (parse_returns _ _ _ _ _ Hs He).
    + apply lookup_ge_None in Hc. lia.
  - intros Hi. rewrite (norm_index_out_of_range _ _ Hi) in He.
    split; [exact He|].
    split; [exact (parse_raises _ _ _ _ _ _ Hs He) | apply exception_variables].
Qed.

Lemma aget_element_or_IndexError_witness :
  (exists c, [CInt 10; CInt 20] !! Z.to_nat 0 = Some c
     /\ parse op_Aget "aget v0, v4, v1" vm_array
         = Ok true (set_variables <["v0" := c]> vm_array))
  /\ parse op_Aget "aget v0, v4, v2" vm_array
     = Ok true (exception IndexError vm_array)
  /\ parse op_Aget "aget v0, v4, v6" vm_array
     = Ok true (exception IndexError vm_array).
Proof.
  split; [|split].
  - apply (proj1 (aget_element_or_IndexError "aget v0, v4, v1" vm_array
                    "v0" "v4" "v1" 0 [CInt 10; CInt 20] 0
                    eq_refl eq_refl eq_refl eq_refl)).
    cbn. lia.
  - apply (proj2 (aget_element_or_IndexError "aget v0, v4, v2" vm_array
                    "v0" "v4" "v2" 0 [CInt 10; CInt 20] 2
                    eq_refl eq_refl eq_refl eq_refl)).
    cbn. lia.
  - apply (proj2 (aget_element_or_IndexError "aget v0, v4, v6" vm_array
                    "v0" "v4" "v6" 0 [CInt 10; CInt 20] (-3)
                    eq_refl eq_refl eq_refl eq_refl)).
    cbn. lia.
Defined.

(** C5, counterexample: the index [-1] is outside [0 <= vZ < len(vY)], yet
    no exception is raised: [vX] receives the last element of the array. *)
Lemma aget_negative_index_reads_from_the_end :
  variables vm_array !! "v5" = Some (CInt (-1))
  /\ heap vm_array !! 0%nat = Some [CInt 10; CInt 20]
  /\ parse op_Aget "aget v0, v4, v5" vm_array
     = Ok true (set_variables <["v0" := CInt 20]> vm_array)
  /\ exceptions (set_variables <["v0" := CInt 20]> vm_array) = []
  /\ variables (set_variables <["v0" := CInt 20]> vm_array) !! "v0"
     <> variables vm_array !! "v0".
Proof.
  repeat (split; [reflexivity|]). discriminate.
Qed.

Lemma aput_eval (vm : VM) (vx vy vz : string) (l : nat) (xs : list Cell)
    (i : Z) (val : Cell) :
  variables vm !! vy = Some (CArr l) ->
  heap vm !! l = Some xs ->
  variables vm !! vz = Some (CInt i) ->
  variables vm !! vx = Some val ->
  eval op_APut [Some vx; Some vy; Some vz] vm
  = if Z.of_nat (length xs) >? i then
      match norm_index (length xs) i with
      | Some j => Ok tt (set_heap <[l := <[j := val]> xs]> vm)
      | None => Raise IndexError vm
      end
    else if i =? Z.of_nat (length xs)
         then Ok tt (set_heap <[l := (xs ++ [val])%list]> vm)
         else Ok tt vm.
Proof.
  intros Hy Hh Hz Hx.
  cbn [eval op_APut]. unfold bind, getitem. rewrite Hz. cbn [py_int ret].
  rewrite Hy, Hx. cbn [py_len]. unfold bind, deref. rewrite Hh. cbn [ret].
  destruct (Z.of_nat (length xs) >? i).
  - cbn [py_store]. unfold bind, deref. rewrite Hh.
    destruct (norm_index (length xs) i) as [j|]; [|reflexivity].
    unfold setitem. f_equal.
    apply set_variables_same. exact Hy.
  - rewrite Hh. unfold ret at 1.
    destruct (i =? Z.of_nat (length xs)).
    + cbn [py_append]. unfold bind, deref. rewrite Hh.
      unfold setitem. f_equal. apply set_variables_same. exact Hy.
    + unfold ret, setitem. f_equal. apply set_variables_same. exact Hy.
Qed.

(** C2 (amended). An execution of [aput] on an array register [vY] with an
    integer index register [vZ] and a value register [vX]: when
    [0 <= vZ < len(vY)], element [vZ] of the array is replaced by the value of
    [vX]; when [vZ = len(vY)], the value is appended and the array grows by
    exactly one element; when [vZ > len(vY)], nothing happens: the state is
    unchanged and no exception is raised. *)
Theorem aput_replaces_appends_or_skips
    (line : string) (vm : VM) (vx vy vz : string) (l : nat) (xs : list Cell)
    (i : Z) (val : Cell) :
  Re.search (expression op_APut) line = Some [Some vx; Some vy; Some vz] ->
  variables vm !! Py.strip vy = Some (CArr l) ->
  heap vm !! l = Some xs ->
  variables vm !! Py.strip vz = Some (CInt i) ->
  variables vm !! Py.strip vx = Some val ->
  (0 <= i < Z.of_nat (length xs) ->
     parse op_APut line vm
       = Ok true (set_heap <[l := <[Z.to_nat i := val]> xs]> vm)
     /\ <[Z.to_nat i := val]> xs !! Z.to_nat i = Some val
     /\ length (<[Z.to_nat i := val]> xs) = length xs)
  /\ (i = Z.of_nat (length xs) ->
      parse op_APut line vm
        = Ok true (set_heap <[l := (xs ++ [val])%list]> vm)
      /\ length (xs ++ [val])%list = S (length xs))
  /\ (Z.of_nat (length xs) < i -> parse op_APut line vm = Ok true vm).
Proof.
  intros Hs Hy Hh Hz Hx.
  pose proof (aput_eval vm _ _ _ l xs i val Hy Hh Hz Hx) as He.
  split; [|split].
  - intros Hi.
    replace (Z.of_nat (length xs) >? i) with true in He by lia.
    rewrite (norm_index_in_range _ _ Hi) in He.
    split; [exact (parse_returns _ _ _ _ _ Hs He)|].
    split; [apply list_lookup_insert_eq; lia | apply length_insert].
  - intros Hi.
    replace (Z.of_nat (length xs) >? i) with false in He by lia.
    replace (i =? Z.of_nat (length xs)) with true in He by lia.
    split; [exact (parse_returns _ _ _ _ _ Hs He)|].
    rewrite length_app. cbn. lia.
  - intros Hi.
    replace (Z.of_nat (length xs) >? i) with false in He by lia.
    replace (i =? Z.of_nat (length xs)) with false in He by lia.
    exact (parse_returns _ _ _ _ _ Hs He).
Qed.

Lemma aput_replaces_appends_or_skips_witness :
  parse op_APut "aput v0, v4, v1" vm_array
    = Ok true (set_heap <[0%nat := [CInt 7; CInt 20]]> vm_array)
  /\ parse op_APut "aput-object v0, v4, v2" vm_array
     = Ok true (set_heap <[0%nat := [CInt 10; CInt 20; CInt 7]]> vm_array)
  /\ parse op_APut "aput v0, v4, v3" vm_array = Ok true vm_array.
Proof.
  split; [|split].
  - apply (proj1 (aput_replaces_appends_or_skips "aput v0, v4, v1" vm_array
                    "v0" "v4" "v1" 0 [CInt 10; CInt 20] 0 (CInt 7)
                    eq_refl eq_refl eq_refl eq_refl eq_refl)).
    cbn. lia.
  - apply (proj1 (proj2 (aput_replaces_appends_or_skips
                    "aput-object v0, v4, v2" vm_array
                    "v0" "v4" "v2" 0 [CInt 10; CInt 20] 2 (CInt 7)
                    eq_refl eq_refl eq_refl eq_refl eq_refl))).
    reflexivity.
  - apply (proj2 (proj2 (aput_replaces_appends_or_skips
                    "aput v0, v4, v3" vm_array
                    "v0" "v4" "v3" 0 [CInt 10; CInt 20] 5 (CInt 7)
                    eq_refl eq_refl eq_refl eq_refl eq_refl))).
    cbn. lia.
Defined.

(** C2, counterexample: the index [-3] is below [len(vY) = 2], yet no element
    is replaced: [IndexError] is raised and goes to [vm.exception], and the
    array is as it was. *)
Lemma aput_index_below_minus_len_raises :
  variables vm_array !! "v6" = Some (CInt (-3))
  /\ heap vm_array !! 0%nat = Some [CInt 10; CInt 20]
  /\ -3 < Z.of_nat (length [CInt 10; CInt 20])
  /\ parse op_APut "aput v0, v4, v6" vm_array
     = Ok true (exception IndexError vm_array)
  /\ exceptions (exception IndexError vm_array) = [IndexError]
  /\ heap (exception IndexError vm_array) !! 0%nat = Some [CInt 10; CInt 20].
Proof.
  split; [reflexivity|]. split; [reflexivity|]. split; [cbn; lia|].
  split; [reflexivity|]. split; reflexivity.
Qed.

(** ** Strings *)

Lemma append_cons (c : ascii) (a b : string) :
  String c a ++ b = String c (a ++ b).
Proof. reflexivity. Qed.

Lemma append_empty_l (b : string) : "" ++ b = b.
Proof. reflexivity. Qed.

Lemma length_append (a b : string) :
  String.length (a ++ b) = (String.length a + String.length b)%nat.
Proof.
  induction a as [|c a IH]; [reflexivity|].
  rewrite append_cons. cbn [String.length]. rewrite IH. reflexivity.
Qed.

Lemma append_empty_r (a : string) : a ++ "" = a.
Proof.
  induction a as [|c a IH]; [reflexivity|].
  rewrite append_cons, IH. reflexivity.
Qed.

Lemma append_assoc (a b c : string) : (a ++ b) ++ c = a ++ (b ++ c).
Proof.
  induction a as [|x a IH]; [reflexivity|].
  rewrite !append_cons, IH. reflexivity.
Qed.

Lemma substring_prefix (a b : string) :
  substring 0 (String.length a) (a ++ b) = a.
Proof.
  induction a as [|c a IH].
  - destruct b; reflexivity.
  - rewrite append_cons. cbn [String.length substring]. rewrite IH. reflexivity.
Qed.

Lemma all_chars_append (p : ascii -> bool) (a b : string) :
  Py.all_chars p (a ++ b) = Py.all_chars p a && Py.all_chars p b.
Proof.
  induction a as [|c a IH]; [reflexivity|].
  rewrite append_cons. cbn [Py.all_chars]. rewrite IH. apply andb_assoc.
Qed.

Lemma all_chars_weaken (p q : ascii -> bool) (s : string) :
  (forall c, p c = true -> q c = true) ->
  Py.all_chars p s = true -> Py.all_chars q s = true.
Proof.
  intros Hpq. induction s as [|c s IH]; cbn; [reflexivity|].
  intros H. apply andb_true_iff in H as [H1 H2].
  rewrite (Hpq c H1), (IH H2). reflexivity.
Qed.

(** ** The greedy loop over a character class *)

Section StarOfClass.

Variable p : ascii -> bool.
Variable k : Re.cont.

(** When the continuation fails after every run of [p], so does the loop. *)
Lemma star_class_none (fuel : nat) :
  forall (w : string) (pos : nat) (caps : Re.captures),
    (forall w1 w2, w = w1 ++ w2 -> Py.all_chars p w1 = true ->
                   k (pos + String.length w1)%nat w2 caps = None) ->
    Re.star_loop (Re.rmatch (Re.Chr p)) k fuel pos w caps = None.
Proof.
  induction fuel as [|fuel IH]; intros w pos caps H.
  - cbn. specialize (H "" w eq_refl eq_refl).
    cbn in H. rewrite Nat.add_0_r in H. exact H.
  - assert (Hk : k pos w caps = None).
    { specialize (H "" w eq_refl eq_refl).
      cbn in H. rewrite Nat.add_0_r in H. exact H. }
    cbn [Re.star_loop Re.rmatch]. destruct w as [|c w']; [exact Hk|].
    destruct (p c) eqn:Hc; [|exact Hk].
    replace (pos <? S pos)%nat with true by (symmetry; apply Nat.ltb_lt; lia).
    rewrite IH; [exact Hk|].
    intros w1 w2 -> Hw1.
    specialize (H (String c w1) w2 eq_refl).
    cbn in H. rewrite Hc, Hw1 in H. rewrite Nat.add_succ_r in H.
    apply H. reflexivity.
Qed.

(** The loop stops after the longest run of [p] after which the
    continuation succeeds. *)
Lemma star_class_hit (u : string) :
  forall (w : string) (fuel pos : nat) (caps c : Re.captures),
    (String.length u <= fuel)%nat ->
    Py.all_chars p u = true ->
    k (pos + String.length u)%nat w caps = Some c ->
    (forall w1 w2, w = w1 ++ w2 -> w1 <> "" -> Py.all_chars p w1 = true ->
                   k (pos + String.length u + String.length w1)%nat w2 caps
                   = None) ->
    Re.star_loop (Re.rmatch (Re.Chr p)) k fuel pos (u ++ w) caps = Some c.
Proof.
  induction u as [|c0 u IH]; intros w fuel pos caps c Hf Hu Hk Hlong.
  - cbn in Hk. rewrite Nat.add_0_r in Hk. rewrite append_empty_l.
    destruct fuel as [|fuel]; [exact Hk|].
    cbn [Re.star_loop Re.rmatch]. destruct w as [|c1 w']; [exact Hk|].
    destruct (p c1) eqn:Hc; [|exact Hk].
    replace (pos <? S pos)%nat with true by (symmetry; apply Nat.ltb_lt; lia).
    assert (X : Re.star_loop (Re.rmatch (Re.Chr p)) k fuel (S pos) w' caps = None).
    { apply star_class_none. intros w1 w2 -> Hw1.
      specialize (Hlong (String c1 w1) w2 eq_refl).
      cbn in Hlong. rewrite Hc, Hw1 in Hlong.
      rewrite Nat.add_0_r, Nat.add_succ_r in Hlong.
      apply Hlong; [discriminate | reflexivity]. }
    cbn [Re.rmatch] in X. rewrite X. exact Hk.
  - cbn in Hf, Hu. apply andb_true_iff in Hu as [Hc Hu].
    destruct fuel as [|fuel]; [lia|].
    rewrite append_cons. cbn [Re.star_loop Re.rmatch]. rewrite Hc.
    replace (pos <? S pos)%nat with true by (symmetry; apply Nat.ltb_lt; lia).
    assert (X : Re.star_loop (Re.rmatch (Re.Chr p)) k fuel (S pos) (u ++ w) caps
                = Some c).
    { apply IH; [lia | exact Hu | |].
      - cbn in Hk. rewrite Nat.add_succ_r in Hk. exact Hk.
      - intros w1 w2 Hw Hne Hw1. specialize (Hlong w1 w2 Hw Hne Hw1).
        cbn in Hlong. rewrite Nat.add_succ_r in Hlong. exact Hlong. }
    cbn [Re.rmatch] in X. rewrite X. reflexivity.
Qed.

End StarOfClass.

(** ** Integer literals and their suffixes *)

Lemma rstrip_by_append_all (p : ascii -> bool) (s t : string) :
  Py.all_chars p t = true -> Py.rstrip_by p (s ++ t) = Py.rstrip_by p s.
Proof.
  intros Ht. induction s as [|c s IH].
  - rewrite append_empty_l. induction t as [|c t IHt]; [reflexivity|].
    cbn in Ht. apply andb_true_iff in Ht as [Hc Ht].
    cbn [Py.rstrip_by]. rewrite (IHt Ht). cbn. rewrite Hc. reflexivity.
  - rewrite append_cons. cbn [Py.rstrip_by]. rewrite IH. reflexivity.
Qed.

Lemma rstrip_by_none (p : ascii -> bool) (s : string) :
  Py.all_chars (fun c => negb (p c)) s = true -> Py.rstrip_by p s = s.
Proof.
  induction s as [|c s IH]; [reflexivity|].
  cbn [Py.all_chars Py.rstrip_by]. intros H.
  apply andb_true_iff in H as [Hc Hs]. rewrite (IH Hs).
  destruct s; [|reflexivity].
  apply negb_true_iff in Hc. rewrite Hc. reflexivity.
Qed.

Lemma digits_chars (base : Z) (digit : ascii -> option Z) (s : string) :
  forall acc n, digits base digit acc s = Some n ->
                Py.all_chars (has_digit digit) s = true.
Proof.
  induction s as [|c s IH]; intros acc n H; [reflexivity|].
  cbn in H. cbn [Py.all_chars]. unfold has_digit at 1.
  destruct (digit c) as [d|]; [|discriminate].
  rewrite (IH _ _ H). reflexivity.
Qed.

Lemma dec_digit_literal_char (c : ascii) :
  has_digit dec_digit c = true -> literal_char c = true.
Proof.
  unfold has_digit, dec_digit, literal_char, has_digit, hex_digit.
  destruct (Py.is_digit c); [reflexivity | discriminate].
Qed.

Lemma hex_digit_literal_char (c : ascii) :
  has_digit hex_digit c = true -> literal_char c = true.
Proof. unfold literal_char. intros ->. reflexivity. Qed.

Lemma is_char_eq (a c : ascii) : Py.is_char a c = true -> c = a.
Proof. unfold Py.is_char. intros H. apply Ascii.eqb_eq in H. congruence. Qed.

Lemma all_zero_literal_chars (s : string) :
  all_zero s = true -> Py.all_chars literal_char s = true.
Proof.
  induction s as [|c s IH]; [reflexivity|].
  cbn [all_zero Py.all_chars]. intros H.
  apply andb_true_iff in H as [Hc Hs].
  apply is_char_eq in Hc. subst c. rewrite (IH Hs). reflexivity.
Qed.

Lemma unsigned_literal_chars (s : string) (z : Z) :
  unsigned_literal s = Some z -> Py.all_chars literal_char s = true.
Proof.
  destruct s as [|c [|x s']]; [discriminate | |].
  - cbn. intros H. rewrite dec_digit_literal_char; [reflexivity|].
    unfold has_digit. rewrite H. reflexivity.
  - unfold unsigned_literal.
    destruct (Py.is_char "0" c) eqn:Hc.
    + apply is_char_eq in Hc. subst c.
      destruct (Py.is_char "x" x || Py.is_char "X" x) eqn:Hx.
      * destruct s' as [|y s']; [discriminate|]. intros H.
        apply digits_chars in H.
        assert (Hlx : literal_char x = true).
        { unfold literal_char.
          apply orb_true_iff in Hx as [Hx|Hx]; rewrite Hx;
            rewrite ?orb_true_r; reflexivity. }
        change (String "0" (String x (String y s')))
          with ("0" ++ String x "" ++ String y s').
        rewrite !all_chars_append.
        rewrite (all_chars_weaken _ _ _ hex_digit_literal_char H).
        cbn [Py.all_chars]. rewrite Hlx. reflexivity.
      * destruct (all_zero (String x s')) eqn:Hz; [|discriminate].
        intros _. change (String "0" (String x s'))
          with ("0" ++ String x s').
        rewrite all_chars_append, (all_zero_literal_chars _ Hz). reflexivity.
    + intros H. apply digits_chars in H. revert H.
      apply all_chars_weaken. exact dec_digit_literal_char.
Qed.

Lemma literal_eval_chars (s : string) (z : Z) :
  literal_eval s = Some z -> Py.all_chars literal_char s = true.
Proof.
  destruct s as [|c s]; [discriminate|]. unfold literal_eval.
  destruct (Py.is_char "-" c) eqn:Hc.
  - destruct (unsigned_literal s) as [u|] eqn:Hu; [|discriminate].
    intros _. cbn [Py.all_chars]. unfold literal_char at 1.
    rewrite Hc, orb_true_r. exact (unsigned_literal_chars _ _ Hu).
  - apply unsigned_literal_chars.
Qed.

Lemma literal_char_not_suffix (c : ascii) :
  literal_char c = true ->
  Py.is_char "t" c = false /\ Py.is_char "s" c = false.
Proof.
  destruct c as [[] [] [] [] [] [] [] []]; vm_compute; intros H;
    first [discriminate H | split; reflexivity].
Qed.

Lemma literal_eval_no_suffix (s : string) (z : Z) :
  literal_eval s = Some z ->
  Py.all_chars (fun c => negb (Py.is_char "t" c)) s = true
  /\ Py.all_chars (fun c => negb (Py.is_char "s" c)) s = true.
Proof.
  intros H. apply literal_eval_chars in H.
  split; revert H; apply all_chars_weaken; intros c Hc;
    apply literal_char_not_suffix in Hc as [Ht Hs];
    [rewrite Ht | rewrite Hs]; reflexivity.
Qed.

(** C8 (amended). For every integer literal accepted by the literal parser,
    a trailing [t] (byte) or [s] (short) suffix is stripped before parsing,
    and the value is that of the literal without its suffix, whatever its
    size: nothing is truncated to the width the suffix implies. *)
Theorem get_int_value_strips_suffix_without_truncation (body : string) (z : Z) :
  literal_eval body = Some z ->
  get_int_value body = Some z
  /\ get_int_value (body ++ "t") = Some z
  /\ get_int_value (body ++ "s") = Some z.
Proof.
  intros H. destruct (literal_eval_no_suffix _ _ H) as [Ht Hs].
  unfold get_int_value, Py.rstrip.
  split; [|split].
  - rewrite (rstrip_by_none _ _ Ht), (rstrip_by_none _ _ Hs). exact H.
  - rewrite (rstrip_by_append_all (Py.is_char "t") body "t" eq_refl).
    rewrite (rstrip_by_none _ _ Ht), (rstrip_by_none _ _ Hs). exact H.
  - rewrite (rstrip_by_none (Py.is_char "t") (body ++ "s")).
    + rewrite (rstrip_by_append_all (Py.is_char "s") body "s" eq_refl).
      rewrite (rstrip_by_none _ _ Hs). exact H.
    + rewrite all_chars_append, Ht. reflexivity.
Qed.

Lemma get_int_value_strips_suffix_without_truncation_witness :
  get_int_value "0x1ff" = Some 511
  /\ get_int_value ("0x1ff" ++ "t") = Some 511
  /\ get_int_value ("0x1ff" ++ "s") = Some 511.
Proof.
  exact (get_int_value_strips_suffix_without_truncation "0x1ff" 511 eq_refl).
Defined.

(** C8, counterexample: the byte-suffixed literal [0x1fft] parses to [511],
    which is in no 8-bit range, signed or unsigned. *)
Lemma get_int_value_byte_suffix_not_truncated :
  get_int_value "0x1fft" = Some 511
  /\ ~ (-128 <= 511 <= 127) /\ ~ (0 <= 511 <= 255).
Proof. split; [reflexivity|]. split; lia. Qed.

(** ** Matching the pieces of an instruction line *)

Lemma rmatch_Seq (r1 r2 : Re.regex) pos s caps k :
  Re.rmatch (Re.Seq r1 r2) pos s caps k
  = Re.rmatch r1 pos s caps (fun pos' s' caps' => Re.rmatch r2 pos' s' caps' k).
Proof. reflexivity. Qed.

Lemma rmatch_chr (c : ascii) pos s caps k :
  Re.rmatch (Re.chr c) pos (String c s) caps k = k (S pos) s caps.
Proof. cbn. unfold Py.is_char. rewrite Ascii.eqb_refl. reflexivity. Qed.

Lemma rmatch_chr_other (c x : ascii) pos s caps k :
  x <> c -> Re.rmatch (Re.chr c) pos (String x s) caps k = None.
Proof.
  intros H. cbn. unfold Py.is_char.
  destruct (Ascii.eqb c x) eqn:E; [|reflexivity].
  apply Ascii.eqb_eq in E. congruence.
Qed.

Lemma rmatch_lit (t : string) :
  forall pos rest caps k,
    Re.rmatch (Re.lit t) pos (t ++ rest) caps k
    = k (pos + String.length t)%nat rest caps.
Proof.
  induction t as [|c t IH]; intros pos rest caps k.
  - cbn. rewrite Nat.add_0_r. reflexivity.
  - rewrite append_cons. destruct t as [|c' t].
    + change (Re.lit (String c "")) with (Re.chr c).
      rewrite rmatch_chr, append_empty_l. cbn [String.length].
      rewrite Nat.add_1_r. reflexivity.
    + change (Re.lit (String c (String c' t)))
        with (Re.Seq (Re.chr c) (Re.lit (String c' t))).
      rewrite rmatch_Seq, rmatch_chr, IH.
      cbn [String.length]. rewrite !Nat.add_succ_r. reflexivity.
Qed.

Lemma rmatch_Opt_skip (r : Re.regex) pos s caps k :
  Re.rmatch r pos s caps k = None ->
  Re.rmatch (Re.Opt r) pos s caps k = k pos s caps.
Proof. intros H. cbn [Re.rmatch]. rewrite H. reflexivity. Qed.

Lemma rmatch_Opt_take (r : Re.regex) pos s caps k c :
  Re.rmatch r pos s caps k = Some c ->
  Re.rmatch (Re.Opt r) pos s caps k = Some c.
Proof. intros H. cbn [Re.rmatch]. rewrite H. reflexivity. Qed.

Section RunsOfClass.

Variable p : ascii -> bool.

(** [p*] followed by [k] *)
Lemma rmatch_star_class (k : Re.cont) (u w : string) pos caps c :
  Py.all_chars p u = true ->
  k (pos + String.length u)%nat w caps = Some c ->
  (forall w1 w2, w = w1 ++ w2 -> w1 <> "" -> Py.all_chars p w1 = true ->
                 k (pos + String.length u + String.length w1)%nat w2 caps
                 = None) ->
  Re.rmatch (Re.Star (Re.Chr p)) pos (u ++ w) caps k = Some c.
Proof.
  intros Hu Hk Hlong.
  change (Re.star_loop (Re.rmatch (Re.Chr p)) k (String.length (u ++ w))
            pos (u ++ w) caps = Some c).
  apply star_class_hit; try assumption.
  rewrite length_append. lia.
Qed.

(** [p+] followed by [k] *)
Lemma rmatch_plus_class (k : Re.cont) (u w : string) pos caps c :
  u <> "" ->
  Py.all_chars p u = true ->
  k (pos + String.length u)%nat w caps = Some c ->
  (forall w1 w2, w = w1 ++ w2 -> w1 <> "" -> Py.all_chars p w1 = true ->
                 k (pos + String.length u + String.length w1)%nat w2 caps
                 = None) ->
  Re.rmatch (Re.Plus (Re.Chr p)) pos (u ++ w) caps k = Some c.
Proof.
  intros Hne Hu Hk Hlong. destruct u as [|c0 u]; [congruence|].
  cbn in Hu. apply andb_true_iff in Hu as [Hc Hu].
  rewrite append_cons. unfold Re.Plus. rewrite rmatch_Seq.
  cbn [Re.rmatch]. rewrite Hc.
  change (Re.rmatch (Re.Star (Re.Chr p)) (S pos) (u ++ w) caps k = Some c).
  apply rmatch_star_class; [exact Hu | |].
  - cbn in Hk. rewrite Nat.add_succ_r in Hk. exact Hk.
  - intros w1 w2 Hw Hw1 Hp. specialize (Hlong w1 w2 Hw Hw1 Hp).
    cbn in Hlong. rewrite Nat.add_succ_r in Hlong. exact Hlong.
Qed.

(** The group [i] around [p+], followed by [k] *)
Lemma rmatch_group_plus_class (i : nat) (k : Re.cont) (u w : string)
    pos caps c :
  u <> "" ->
  Py.all_chars p u = true ->
  k (pos + String.length u)%nat w (<[i := Some u]> caps) = Some c ->
  (forall w1 w2 caps', w = w1 ++ w2 -> w1 <> "" -> Py.all_chars p w1 = true ->
                 k (pos + String.length u + String.length w1)%nat w2 caps'
                 = None) ->
  Re.rmatch (Re.Group i (Re.Plus (Re.Chr p))) pos (u ++ w) caps k = Some c.
Proof.
  intros Hne Hu Hk Hlong. cbn [Re.rmatch].
  change (Re.rmatch (Re.Plus (Re.Chr p)) pos (u ++ w) caps
            (fun pos' s' caps' =>
               k pos' s' (<[i := Some (substring 0 (pos' - pos) (u ++ w))]> caps'))
          = Some c).
  apply rmatch_plus_class; [exact Hne | exact Hu | |].
  - replace (pos + String.length u - pos)%nat with (String.length u) by lia.
    rewrite substring_prefix. exact Hk.
  - intros w1 w2 Hw Hw1 Hp. apply Hlong; assumption.
Qed.

(** The group [i] around [p*], followed by [k] *)
Lemma rmatch_group_star_class (i : nat) (k : Re.cont) (u w : string)
    pos caps c :
  Py.all_chars p u = true ->
  k (pos + String.length u)%nat w (<[i := Some u]> caps) = Some c ->
  (forall w1 w2 caps', w = w1 ++ w2 -> w1 <> "" -> Py.all_chars p w1 = true ->
                 k (pos + String.length u + String.length w1)%nat w2 caps'
                 = None) ->
  Re.rmatch (Re.Group i (Re.Star (Re.Chr p))) pos (u ++ w) caps k = Some c.
Proof.
  intros Hu Hk Hlong.
  change (Re.rmatch (Re.Star (Re.Chr p)) pos (u ++ w) caps
            (fun pos' s' caps' =>
               k pos' s' (<[i := Some (substring 0 (pos' - pos) (u ++ w))]> caps'))
          = Some c).
  apply rmatch_star_class; [exact Hu | |].
  - replace (pos + String.length u - pos)%nat with (String.length u) by lia.
    rewrite substring_prefix. exact Hk.
  - intros w1 w2 Hw Hw1 Hp. apply Hlong; assumption.
Qed.

End RunsOfClass.

(** A non-empty run of [p] cannot start a text whose first character is not
    in [p]. *)
Lemma no_run_at_head (p : ascii -> bool) (c : ascii) (s w1 w2 : string) :
  p c = false -> String c s = w1 ++ w2 -> w1 <> "" ->
  Py.all_chars p w1 = true -> False.
Proof.
  intros Hc Hw Hne Hp. destruct w1 as [|c1 w1]; [congruence|].
  rewrite append_cons in Hw. injection Hw as <- _.
  cbn in Hp. rewrite Hc in Hp. discriminate.
Qed.

Lemma search_from_hit (r : Re.regex) (n pos : nat) (s : string) c :
  Re.rmatch r pos s (replicate n None) Re.found = Some c ->
  Re.search_from r n pos s = Some c.
Proof.
  intros H. destruct s; cbn [Re.search_from]; rewrite H; reflexivity.
Qed.

(** A pattern anchored by [^] matches at the start of the line or not at
    all. *)
Lemma search_from_anchored (r : Re.regex) (n : nat) (s : string) :
  forall pos, pos <> O -> Re.search_from (Re.Seq Re.Bol r) n pos s = None.
Proof.
  induction s as [|c s IH]; intros pos Hpos.
  - cbn. destruct pos; [congruence | reflexivity].
  - cbn [Re.search_from Re.rmatch].
    destruct pos as [|pos]; [congruence|]. cbn [Nat.eqb].
    apply IH. discriminate.
Qed.

Lemma all_chars_suffix (p : ascii -> bool) (s w1 w2 : string) :
  Py.all_chars p s = true -> s = w1 ++ w2 -> Py.all_chars p w2 = true.
Proof.
  intros H ->. rewrite all_chars_append in H.
  apply andb_true_iff in H as [_ H]. exact H.
Qed.

(** Where [x] does not occur, a pattern that starts with [x] fails. *)
Lemma rmatch_chr_absent (x : ascii) (r : Re.regex) (s : string) pos caps k :
  Py.all_chars (fun c => negb (Py.is_char x c)) s = true ->
  Re.rmatch (Re.Seq (Re.chr x) r) pos s caps k = None.
Proof.
  intros H. rewrite rmatch_Seq. destruct s as [|c s]; [reflexivity|].
  cbn in H. apply andb_true_iff in H as [Hc _].
  apply negb_true_iff in Hc. cbn. rewrite Hc. reflexivity.
Qed.

Lemma space_is_not (x : ascii) (s : string) :
  Py.is_space x = false ->
  Py.all_chars Py.is_space s = true ->
  Py.all_chars (fun c => negb (Py.is_char x c)) s = true.
Proof.
  intros Hx. apply all_chars_weaken. intros c Hc.
  apply negb_true_iff. destruct (Py.is_char x c) eqn:E; [|reflexivity].
  apply is_char_eq in E. congruence.
Qed.

Lemma starts_plain_cons (s : string) :
  starts_plain s = true ->
  exists c s', s = String c s' /\ Py.is_space c = false.
Proof.
  destruct s as [|c s']; [discriminate|]. cbn. intros H.
  apply negb_true_iff in H. eauto.
Qed.

(** The last operand of a line, as group [i]: it runs to the end. *)
Lemma last_group_match (i pos : nat) (b : string) caps :
  b <> "" -> Py.all_chars Py.is_dot b = true ->
  Re.rmatch (Re.Group i (Re.Plus Re.dot)) pos b caps Re.found
  = Some (<[i := Some b]> caps).
Proof.
  intros Hne Hb. rewrite <- (append_empty_r b) at 1.
  apply rmatch_group_plus_class; [exact Hne | exact Hb | reflexivity |].
  intros w1 w2 caps' Hw Hw1 _. destruct w1; [congruence | discriminate].
Qed.

(** Whitespace, then the last operand. *)
Lemma spaces_last_group_match (i pos : nat) (ws b : string) caps :
  Py.all_chars Py.is_space ws = true ->
  starts_plain b = true -> Py.all_chars Py.is_dot b = true ->
  Re.rmatch (Re.Seq (Re.Star Re.space) (Re.Group i (Re.Plus Re.dot)))
    pos (ws ++ b) caps Re.found
  = Some (<[i := Some b]> caps).
Proof.
  intros Hws Hb Hdot. rewrite rmatch_Seq.
  destruct (starts_plain_cons b Hb) as (c & b' & -> & Hc).
  apply rmatch_star_class; [exact Hws | |].
  - apply last_group_match; [discriminate | exact Hdot].
  - intros w1 w2 Hw Hw1 Hp. exfalso.
    exact (no_run_at_head _ _ _ _ _ Hc Hw Hw1 Hp).
Qed.

(** The two operands [a] and [b] of a line, separated by a comma and
    whitespace, are captured as they are. *)
Lemma operands2_match (i pos : nat) (a ws b : string) caps :
  a <> "" -> Py.all_chars Py.is_dot a = true ->
  Py.all_chars Py.is_space ws = true ->
  last_operand "," b = true ->
  Re.rmatch (Re.seqs (Re.operands2 i)) pos (a ++ "," ++ ws ++ b) caps Re.found
  = Some (<[S i := Some b]> (<[i := Some a]> caps)).
Proof.
  intros Ha Hdot Hws Hb. unfold last_operand in Hb.
  apply andb_true_iff in Hb as [Hb Hbc].
  assert (Hbdot : Py.all_chars Py.is_dot b = true).
  { revert Hbc. apply all_chars_weaken. intros c H.
    apply andb_true_iff in H as [H _]. exact H. }
  assert (Hbcomma : Py.all_chars (fun c => negb (Py.is_char "," c)) b = true).
  { revert Hbc. apply all_chars_weaken. intros c H.
    apply andb_true_iff in H as [_ H]. exact H. }
  change (Re.seqs (Re.operands2 i))
    with (Re.Seq (Re.Group i (Re.Plus Re.dot))
            (Re.Seq (Re.chr ",")
               (Re.Seq (Re.Star Re.space) (Re.Group (S i) (Re.Plus Re.dot))))).
  rewrite rmatch_Seq.
  apply rmatch_group_plus_class; [exact Ha | exact Hdot | |].
  - change ("," ++ ws ++ b) with (String "," (ws ++ b)).
    rewrite rmatch_Seq, rmatch_chr.
    apply spaces_last_group_match; assumption.
  - intros w1 w2 caps' Hw Hw1 _.
    apply rmatch_chr_absent.
    destruct w1 as [|c1 w1]; [congruence|].
    change ("," ++ ws ++ b) with (String "," (ws ++ b)) in Hw.
    rewrite append_cons in Hw. injection Hw as _ Hw.
    apply (all_chars_suffix _ (ws ++ b) w1 w2); [|exact Hw].
    rewrite all_chars_append, Hbcomma, (space_is_not "," ws eq_refl Hws).
    reflexivity.
Qed.

(** ** Constants *)

Lemma rstrip_by_split (p : ascii -> bool) (s : string) :
  exists t, s = Py.rstrip_by p s ++ t /\ Py.all_chars p t = true.
Proof.
  induction s as [|c s (t & Hs & Ht)].
  - exists "". split; reflexivity.
  - cbn [Py.rstrip_by]. destruct (Py.rstrip_by p s) as [|c' r] eqn:Hr.
    + destruct (p c) eqn:Hc.
      * exists (String c s). split; [reflexivity|].
        cbn. rewrite Hc. rewrite Hs, append_empty_l. exact Ht.
      * exists t. rewrite append_cons, append_empty_l.
        split; [|exact Ht]. rewrite Hs at 1. reflexivity.
    + exists t. split; [|exact Ht].
      rewrite append_cons. rewrite <- Hs. reflexivity.
Qed.

Lemma literal_eval_not_empty (s : string) (z : Z) :
  literal_eval s = Some z -> s <> "".
Proof. destruct s; [discriminate | discriminate]. Qed.

Lemma suffixed_literal_char_plain (c : ascii) :
  suffixed_literal_char c = true ->
  Py.is_space c = false /\ Py.is_dot c = true /\ Py.is_char "," c = false.
Proof.
  destruct c as [[] [] [] [] [] [] [] []]; vm_compute; intros H;
    first [discriminate H | repeat split; reflexivity].
Qed.

Lemma get_int_value_chars (lit : string) (z : Z) :
  get_int_value lit = Some z ->
  lit <> "" /\ Py.all_chars suffixed_literal_char lit = true.
Proof.
  unfold get_int_value, Py.rstrip. intros H.
  destruct (rstrip_by_split (Py.is_char "t") lit) as (t1 & H1 & Ht1).
  destruct (rstrip_by_split (Py.is_char "s")
              (Py.rstrip_by (Py.is_char "t") lit)) as (t2 & H2 & Ht2).
  pose proof (literal_eval_not_empty _ _ H) as Hne.
  apply literal_eval_chars in H.
  set (r := Py.rstrip_by (Py.is_char "s") (Py.rstrip_by (Py.is_char "t") lit)) in *.
  rewrite H2 in H1. split.
  - rewrite H1. destruct r; [congruence | discriminate].
  - rewrite H1, !all_chars_append.
    rewrite (all_chars_weaken literal_char suffixed_literal_char r).
    + rewrite (all_chars_weaken (Py.is_char "s") suffixed_literal_char t2).
      * rewrite (all_chars_weaken (Py.is_char "t") suffixed_literal_char t1);
          [reflexivity | | exact Ht1].
        intros c Hc. unfold suffixed_literal_char. rewrite Hc.
        rewrite orb_true_r. reflexivity.
      * intros c Hc. unfold suffixed_literal_char. rewrite Hc.
        apply orb_true_r.
      * exact Ht2.
    + intros c Hc. unfold suffixed_literal_char. rewrite Hc. reflexivity.
    + exact H.
Qed.

Lemma all_chars_starts_plain (s : string) :
  s <> "" -> Py.all_chars (fun c => negb (Py.is_space c)) s = true ->
  starts_plain s = true.
Proof.
  destruct s as [|c s]; [congruence|]. cbn. intros _ H.
  apply andb_true_iff in H as [H _]. exact H.
Qed.

Lemma strip_token (s : string) : token s = true -> Py.strip s = s.
Proof.
  unfold token, Py.strip. intros H. apply andb_true_iff in H as [Hh Ha].
  destruct (starts_plain_cons s Hh) as (c & s' & -> & Hc).
  cbn [Py.lstrip_by]. rewrite Hc.
  apply rstrip_by_none. exact Ha.
Qed.

Lemma token_dot (s : string) :
  token s = true -> s <> "" /\ Py.all_chars Py.is_dot s = true.
Proof.
  unfold token. intros H. apply andb_true_iff in H as [Hh Ha]. split.
  - destruct s; [discriminate | discriminate].
  - revert Ha. apply all_chars_weaken. intros c Hc.
    apply negb_true_iff in Hc. unfold Py.is_dot.
    destruct (Py.code c =? 10)%N eqn:E; [|reflexivity].
    apply N.eqb_eq in E. unfold Py.is_space in Hc. rewrite E in Hc.
    discriminate.
Qed.

Lemma get_int_value_operand (lit : string) (z : Z) :
  get_int_value lit = Some z ->
  token lit = true /\ last_operand "," lit = true.
Proof.
  intros H. destruct (get_int_value_chars _ _ H) as [Hne Hc].
  assert (Hsp : Py.all_chars (fun c => negb (Py.is_space c)) lit = true).
  { revert Hc. apply all_chars_weaken. intros c Hc.
    apply suffixed_literal_char_plain in Hc as (-> & _ & _). reflexivity. }
  pose proof (all_chars_starts_plain _ Hne Hsp) as Hh.
  unfold token, last_operand. rewrite Hh, Hsp. split; [reflexivity|].
  cbn [andb]. revert Hc. apply all_chars_weaken. intros c Hc.
  apply suffixed_literal_char_plain in Hc as (_ & -> & ->). reflexivity.
Qed.

Lemma rmatch_Bol (s : string) caps k :
  Re.rmatch Re.Bol O s caps k = k O s caps.
Proof. reflexivity. Qed.

(** Every line [const vX, lit] or [const/N vX, lit] matches the pattern of
    [op_Const], with [vX] and [lit] as its groups. *)
Lemma const_line_match (m vx ws lit : string) :
  const_variant m ->
  vx <> "" -> Py.all_chars Py.is_dot vx = true ->
  Py.all_chars Py.is_space ws = true ->
  last_operand "," lit = true ->
  Re.search (expression op_Const) (m ++ " " ++ vx ++ "," ++ ws ++ lit)
  = Some [Some vx; Some lit].
Proof.
  intros Hm Hvx Hdot Hws Hlit.
  unfold Re.search. apply search_from_hit.
  change (Re.re (expression op_Const))
    with (Re.Seq Re.Bol
            (Re.Seq (Re.lit "const")
               (Re.Seq (Re.Opt (Re.Seq (Re.chr "/") (Re.Plus Re.digit)))
                  (Re.Seq (Re.chr " ") (Re.seqs (Re.operands2 0)))))).
  change (Re.ngroups (expression op_Const)) with 2%nat.
  assert (Htail : forall pos,
             Re.rmatch (Re.Seq (Re.chr " ") (Re.seqs (Re.operands2 0))) pos
               (" " ++ vx ++ "," ++ ws ++ lit) (replicate 2 None) Re.found
             = Some [Some vx; Some lit]).
  { intros pos. change (" " ++ vx ++ "," ++ ws ++ lit)
      with (String " " (vx ++ "," ++ ws ++ lit)).
    rewrite rmatch_Seq, rmatch_chr.
    rewrite (operands2_match 0 (S pos) vx ws lit _ Hvx Hdot Hws Hlit).
    reflexivity. }
  rewrite rmatch_Seq, rmatch_Bol.
  destruct Hm as [-> | (ds & Hne & Hds & ->)].
  - rewrite rmatch_Seq, rmatch_lit. rewrite rmatch_Seq.
    rewrite rmatch_Opt_skip; [apply Htail|].
    change (" " ++ vx ++ "," ++ ws ++ lit)
      with (String " " (vx ++ "," ++ ws ++ lit)).
    rewrite rmatch_Seq. apply rmatch_chr_other. discriminate.
  - rewrite append_assoc.
    change ("const/" ++ ds ++ " " ++ vx ++ "," ++ ws ++ lit)
      with ("const" ++ String "/" (ds ++ " " ++ vx ++ "," ++ ws ++ lit)).
    rewrite rmatch_Seq, rmatch_lit. rewrite rmatch_Seq.
    apply rmatch_Opt_take.
    rewrite rmatch_Seq, rmatch_chr.
    apply rmatch_plus_class; [exact Hne | exact Hds | apply Htail |].
    intros w1 w2 Hw Hw1 Hp. exfalso.
    change (" " ++ vx ++ "," ++ ws ++ lit)
      with (String " " (vx ++ "," ++ ws ++ lit)) in Hw.
    exact (no_run_at_head Py.is_digit " " _ _ _ eq_refl Hw Hw1 Hp).
Qed.

(** No line that starts with [const/high16] matches the pattern. *)
Lemma const_high16_no_match (rest : string) :
  Re.search (expression op_Const) ("const/high16" ++ rest) = None.
Proof.
  unfold Re.search.
  change (Re.re (expression op_Const))
    with (Re.Seq Re.Bol
            (Re.Seq (Re.lit "const")
               (Re.Seq (Re.Opt (Re.Seq (Re.chr "/") (Re.Plus Re.digit)))
                  (Re.Seq (Re.chr " ") (Re.seqs (Re.operands2 0)))))).
  change ("const/high16" ++ rest)
    with ("const" ++ String "/" (String "h" ("igh16" ++ rest))).
  set (r := Re.Seq (Re.lit "const") _).
  change ("const" ++ String "/" (String "h" ("igh16" ++ rest)))
    with (String "c" ("onst" ++ String "/" (String "h" ("igh16" ++ rest)))).
  cbn [Re.search_from].
  rewrite search_from_anchored by discriminate.
  replace (Re.rmatch (Re.Seq Re.Bol r) 0 _ _ _) with (@None Re.captures);
    [reflexivity|].
  symmetry. subst r.
  change (String "c" ("onst" ++ String "/" (String "h" ("igh16" ++ rest))))
    with ("const" ++ String "/" (String "h" ("igh16" ++ rest))).
  rewrite rmatch_Seq, rmatch_Bol, rmatch_Seq, rmatch_lit, rmatch_Seq.
  rewrite rmatch_Opt_skip.
  - rewrite rmatch_Seq. apply rmatch_chr_other. discriminate.
  - rewrite rmatch_Seq, rmatch_chr. unfold Re.Plus. rewrite rmatch_Seq.
    reflexivity.
Qed.

(** C9 (amended). For the const variants [const], [const/4] and [const/16]
    (any [const/N] with a decimal [N]), the pattern of the const handler
    matches the instruction line and the parsed literal is stored into [vX].
    The form [const/high16] is not accepted: the pattern matches no line that
    starts with it, and [parse] returns [False] with the state untouched. *)
Theorem const_variants_accepted
    (vm : VM) (m vx ws lit : string) (z : Z) :
  const_variant m ->
  token vx = true ->
  Py.all_chars Py.is_space ws = true ->
  get_int_value lit = Some z ->
  Re.search (expression op_Const) (m ++ " " ++ vx ++ "," ++ ws ++ lit)
    = Some [Some vx; Some lit]
  /\ parse op_Const (m ++ " " ++ vx ++ "," ++ ws ++ lit) vm
     = Ok true (set_variables <[vx := CInt z]> vm)
  /\ (forall rest vm',
        Re.search (expression op_Const) ("const/high16" ++ rest) = None
        /\ parse op_Const ("const/high16" ++ rest) vm' = Ok false vm').
Proof.
  intros Hm Hvx Hws Hlit.
  destruct (token_dot _ Hvx) as [Hne Hdot].
  destruct (get_int_value_operand _ _ Hlit) as [Htok Hop].
  pose proof (const_line_match m vx ws lit Hm Hne Hdot Hws Hop) as Hs.
  split; [exact Hs|]. split.
  - apply (parse_returns _ _ _ _ _ Hs).
    cbn [List.map option_map]. rewrite (strip_token _ Hvx), (strip_token _ Htok).
    cbn [eval op_Const]. unfold bind. rewrite Hlit. reflexivity.
  - intros rest vm'. split; [apply const_high16_no_match|].
    apply parse_no_match, const_high16_no_match.
Qed.

Lemma const_variants_accepted_witness :
  parse op_Const "const v0, 0x5" vm_small
    = Ok true (set_variables <["v0" := CInt 5]> vm_small)
  /\ parse op_Const "const/4 v0, -0x8" vm_small
     = Ok true (set_variables <["v0" := CInt (-8)]> vm_small)
  /\ parse op_Const "const/16 v1,  1000" vm_small
     = Ok true (set_variables <["v1" := CInt 1000]> vm_small).
Proof.
  split; [|split].
  - apply (const_variants_accepted vm_small "const" "v0" " " "0x5" 5);
      [left; reflexivity | reflexivity ..].
  - apply (const_variants_accepted vm_small "const/4" "v0" " " "-0x8" (-8));
      [right; exists "4"; repeat split; discriminate | reflexivity ..].
  - apply (const_variants_accepted vm_small "const/16" "v1" "  " "1000" 1000);
      [right; exists "16"; repeat split; discriminate | reflexivity ..].
Defined.

(** C9, counterexample: the line [const/high16 v0, 0x10000] is not matched by
    the pattern of the const handler, although its literal parses: [parse]
    returns [False] and [v0] keeps its value. *)
Lemma const_high16_rejected :
  get_int_value "0x10000" = Some 65536
  /\ Re.search (expression op_Const) "const/high16 v0, 0x10000" = None
  /\ parse op_Const "const/high16 v0, 0x10000" vm_small = Ok false vm_small.
Proof. repeat split; reflexivity. Qed.

(** ** Invocation *)

(** Every line [invoke-<kind> {registers}, call] matches the pattern of
    [op_Invoke]; the kind is not captured. *)
Lemma invoke_line_match invoke (kind a ws c : string) :
  kind <> "" -> Py.all_chars Py.is_lower kind = true ->
  Py.all_chars Py.is_dot a = true ->
  Py.all_chars Py.is_space ws = true ->
  last_operand "}" c = true ->
  Re.search (expression (op_Invoke invoke))
    ("invoke-" ++ kind ++ " {" ++ a ++ "}," ++ ws ++ c)
  = Some [Some a; Some c].
Proof.
  intros Hk Hlow Ha Hws Hc.
  unfold last_operand in Hc. apply andb_true_iff in Hc as [Hc Hcc].
  assert (Hcdot : Py.all_chars Py.is_dot c = true).
  { revert Hcc. apply all_chars_weaken. intros x H.
    apply andb_true_iff in H as [H _]. exact H. }
  assert (Hcbrace : Py.all_chars (fun x => negb (Py.is_char "}" x)) c = true).
  { revert Hcc. apply all_chars_weaken. intros x H.
    apply andb_true_iff in H as [_ H]. exact H. }
  unfold Re.search. apply search_from_hit.
  change (Re.re (expression (op_Invoke invoke)))
    with (Re.Seq Re.Bol
            (Re.Seq (Re.lit "invoke-")
               (Re.Seq (Re.Plus Re.lower)
                  (Re.Seq (Re.lit " {")
                     (Re.Seq (Re.Group 0 (Re.Star Re.dot))
                        (Re.Seq (Re.lit "},")
                           (Re.Seq (Re.Star Re.space)
                              (Re.Group 1 (Re.Plus Re.dot))))))))).
  change (Re.ngroups (expression (op_Invoke invoke))) with 2%nat.
  rewrite rmatch_Seq, rmatch_Bol, rmatch_Seq, rmatch_lit, rmatch_Seq.
  apply rmatch_plus_class; [exact Hk | exact Hlow | |].
  - rewrite rmatch_Seq, rmatch_lit, rmatch_Seq.
    apply rmatch_group_star_class; [exact Ha | |].
    + rewrite rmatch_Seq, rmatch_lit.
      rewrite spaces_last_group_match by assumption. reflexivity.
    + intros w1 w2 caps' Hw Hw1 _. rewrite rmatch_Seq.
      change (Re.lit "},") with (Re.Seq (Re.chr "}") (Re.chr ",")).
      apply rmatch_chr_absent.
      destruct w1 as [|c1 w1]; [congruence|].
      change ("}," ++ ws ++ c) with (String "}" ("," ++ ws ++ c)) in Hw.
      rewrite append_cons in Hw. injection Hw as _ Hw.
      apply (all_chars_suffix _ ("," ++ ws ++ c) w1 w2); [|exact Hw].
      rewrite !all_chars_append, Hcbrace, (space_is_not "}" ws eq_refl Hws).
      reflexivity.
  - intros w1 w2 Hw Hw1 Hp. exfalso.
    change (" {" ++ a ++ "}," ++ ws ++ c)
      with (String " " ("{" ++ a ++ "}," ++ ws ++ c)) in Hw.
    exact (no_run_at_head Py.is_lower " " _ _ _ eq_refl Hw Hw1 Hp).
Qed.

(** C7 (amended). For every [invoke-<kind>] instruction, whatever the kind,
    [invoke-static] included, the handler splits the brace-enclosed register
    list at the commas and passes the first register to the bridge as the
    receiver ([this]) and the remaining ones as the arguments. *)
Theorem invoke_first_register_is_this
    (invoke : string -> string -> string -> list string -> M unit) (vm : VM)
    (kind registers ws call this klass method : string) (rest : list string) :
  kind <> "" -> Py.all_chars Py.is_lower kind = true ->
  Py.all_chars Py.is_dot registers = true ->
  Py.all_chars Py.is_space ws = true ->
  last_operand "}" call = true ->
  List.map Py.strip (Py.split "," (Py.strip registers)) = this :: rest ->
  Py.split ";->" (Py.strip call) = [klass; method] ->
  Re.search (expression (op_Invoke invoke))
    ("invoke-" ++ kind ++ " {" ++ registers ++ "}," ++ ws ++ call)
    = Some [Some registers; Some call]
  /\ eval (op_Invoke invoke)
       [Some (Py.strip registers); Some (Py.strip call)] vm
     = invoke this klass method rest vm
  /\ parse (op_Invoke invoke)
       ("invoke-" ++ kind ++ " {" ++ registers ++ "}," ++ ws ++ call) vm
     = match invoke this klass method rest vm with
       | Ok _ vm' => Ok true vm'
       | Raise e vm' => Ok true (exception e vm')
       | Beyond => Beyond
       end.
Proof.
  intros Hk Hlow Ha Hws Hc Hregs Hcall.
  pose proof (invoke_line_match invoke kind registers ws call Hk Hlow Ha Hws Hc)
    as Hs.
  assert (He : eval (op_Invoke invoke)
                 [Some (Py.strip registers); Some (Py.strip call)] vm
               = invoke this klass method rest vm).
  { cbn [eval op_Invoke]. rewrite Hregs, Hcall. reflexivity. }
  split; [exact Hs|]. split; [exact He|].
  unfold parse. rewrite Hs. cbn [List.map option_map]. rewrite He.
  reflexivity.
Qed.

Lemma invoke_first_register_is_this_witness :
  parse (op_Invoke reporting_bridge)
    "invoke-virtual {v0, v1, v2}, Ljava/lang/String;->concat(II)V" vm_small
    = Ok true
        (set_fatal
           "this=v0 class=Ljava/lang/String method=concat(II)V args=v1,v2"
           vm_small)
  /\ parse (op_Invoke reporting_bridge)
       "invoke-static {v0, v1}, Lfoo;->bar(II)I" vm_small
     = Ok true
         (set_fatal "this=v0 class=Lfoo method=bar(II)I args=v1" vm_small).
Proof.
  split.
  - apply (invoke_first_register_is_this reporting_bridge vm_small
             "virtual" "v0, v1, v2" " " "Ljava/lang/String;->concat(II)V"
             "v0" "Ljava/lang/String" "concat(II)V" ["v1"; "v2"]);
      [discriminate | reflexivity ..].
  - apply (invoke_first_register_is_this reporting_bridge vm_small
             "static" "v0, v1" " " "Lfoo;->bar(II)I"
             "v0" "Lfoo" "bar(II)I" ["v1"]);
      [discriminate | reflexivity ..].
Defined.

(** C7, counterexample: for [invoke-static {v0, v1}, Lfoo;->bar(II)I] the
    bridge is called with [v0] as the receiver and [v1] as the only argument,
    not with both registers as arguments. *)
Lemma invoke_static_passes_first_register_as_this :
  eval (op_Invoke reporting_bridge)
    [Some "v0, v1"; Some "Lfoo;->bar(II)I"] vm_small
    = reporting_bridge "v0" "Lfoo" "bar(II)I" ["v1"] vm_small
  /\ parse (op_Invoke reporting_bridge)
       "invoke-static {v0, v1}, Lfoo;->bar(II)I" vm_small
     = Ok true
         (set_fatal "this=v0 class=Lfoo method=bar(II)I args=v1" vm_small)
  /\ List.map Py.strip (Py.split "," "v0, v1") = ["v0"; "v1"]
  /\ ["v1"] <> ["v0"; "v1"].
Proof.
  split; [reflexivity|]. split; [reflexivity|]. split; [reflexivity|].
  discriminate.
Qed.

(** ** Further facts: indices that count from the end, and one dispatch *)

Lemma norm_index_from_end (n : nat) (i : Z) :
  - Z.of_nat n <= i < 0 -> norm_index n i = Some (Z.to_nat (Z.of_nat n + i)).
Proof.
  intros H. unfold norm_index.
  replace ((0 <=? i) && (i <? Z.of_nat n)) with false.
  - replace ((- Z.of_nat n <=? i) && (i <? 0)) with true; [reflexivity|].
    symmetry. apply andb_true_iff. split; [apply Z.leb_le | apply Z.ltb_lt]; lia.
  - symmetry. apply andb_false_iff. left. apply Z.leb_gt. lia.
Qed.

(** [aget] with an index of [-len(vY), -1] reads element [len(vY) + vZ]. *)
Lemma aget_index_from_end
    (vm : VM) (vx vy vz : string) (l : nat) (xs : list Cell) (i : Z) :
  variables vm !! vy = Some (CArr l) ->
  heap vm !! l = Some xs ->
  variables vm !! vz = Some (CInt i) ->
  - Z.of_nat (length xs) <= i < 0 ->
  exists c, xs !! Z.to_nat (Z.of_nat (length xs) + i) = Some c
    /\ eval op_Aget [Some vx; Some vy; Some vz] vm
        = Ok tt (set_variables <[vx := c]> vm).
Proof.
  intros Hy Hh Hz Hi.
  destruct (xs !! Z.to_nat (Z.of_nat (length xs) + i)) as [c|] eqn:Hc.
  - exists c. split; [reflexivity|].
    cbn [eval op_Aget]. unfold bind, getitem. rewrite Hy, Hz.
    cbn [py_index]. unfold bind, deref. rewrite Hh.
    rewrite (norm_index_from_end _ _ Hi), Hc. reflexivity.
  - apply lookup_ge_None in Hc. lia.
Qed.

(** [aput] with an index of [-len(vY), -1] replaces element [len(vY) + vZ];
    below [-len(vY)] it raises [IndexError] and changes nothing. *)
Lemma aput_negative_index
    (vm : VM) (vx vy vz : string) (l : nat) (xs : list Cell) (i : Z)
    (val : Cell) :
  variables vm !! vy = Some (CArr l) ->
  heap vm !! l = Some xs ->
  variables vm !! vz = Some (CInt i) ->
  variables vm !! vx = Some val ->
  (- Z.of_nat (length xs) <= i < 0 ->
     eval op_APut [Some vx; Some vy; Some vz] vm
     = Ok tt (set_heap
                <[l := <[Z.to_nat (Z.of_nat (length xs) + i) := val]> xs]> vm))
  /\ (i < - Z.of_nat (length xs) ->
      eval op_APut [Some vx; Some vy; Some vz] vm = Raise IndexError vm).
Proof.
  intros Hy Hh Hz Hx.
  rewrite (aput_eval vm vx vy vz l xs i val Hy Hh Hz Hx).
  split; intros Hi.
  - replace (Z.of_nat (length xs) >? i) with true by lia.
    rewrite (norm_index_from_end _ _ Hi). reflexivity.
  - replace (Z.of_nat (length xs) >? i) with true by lia.
    rewrite norm_index_out_of_range by lia. reflexivity.
Qed.

(** A [packed-switch] whose table is not in [vm.packed_switches] does not fall
    through: the subtraction of [None] raises [TypeError]. *)
Lemma packed_switch_unknown_table (vm : VM) (vx table : string) (c : Cell) :
  variables vm !! vx = Some c ->
  packed_switches vm !! table = None ->
  eval op_PackedSwitch [Some vx; Some table] vm = Raise TypeError vm.
Proof.
  intros Hx Ht. cbn [eval op_PackedSwitch]. unfold bind, getitem.
  rewrite Hx, Ht. reflexivity.
Qed.

(** [parse] on a few lines: a match whose action raises, a match whose action
    returns, and a line of another opcode. *)
Lemma parse_catches_handler_exceptions_witness :
  parse op_DivInt "div-int v2, v0, v1" vm_ints
    = Ok true (exception ZeroDivisionError vm_ints)
  /\ parse op_DivInt "div-int v1, v0, v2" vm_ints
     = Ok true (set_variables <["v1" := CInt 1]> vm_ints)
  /\ ((exists vm', parse op_DivInt "rem-int v2, v0, v1" vm_ints = Ok false vm')
      <-> Re.search (expression op_DivInt) "rem-int v2, v0, v1" = None).
Proof.
  pose proof (parse_catches_handler_exceptions op_DivInt "div-int v2, v0, v1" vm_ints)
    as (_ & _ & _ & H1).
  pose proof (parse_catches_handler_exceptions op_DivInt "div-int v1, v0, v2" vm_ints)
    as (_ & _ & _ & H2).
  pose proof (parse_catches_handler_exceptions op_DivInt "rem-int v2, v0, v1" vm_ints)
    as (H3 & _).
  split; [|split].
  - apply (proj2 (H1 [Some "v2"; Some "v0"; Some "v1"] eq_refl)). reflexivity.
  - apply (proj1 (H2 [Some "v1"; Some "v0"; Some "v2"] eq_refl)). reflexivity.
  - exact H3.
Defined.

(** * Further properties of the opcode classes *)

(** ** A failed instruction has no partial effect *)

Lemma reads_only_bind {A B} (m : M A) (k : A -> M B) :
  reads_only m -> (forall a, reads_only (k a)) -> reads_only (bind m k).
Proof.
  intros Hm Hk vm. unfold bind. specialize (Hm vm).
  destruct (m vm) as [a vm1|e vm1|]; [|exact Hm|exact I].
  subst vm1. apply Hk.
Qed.

Lemma reads_only_atomic {A} (m : M A) : reads_only m -> atomic m.
Proof.
  intros H vm. specialize (H vm). destruct (m vm); [exact I | exact H | exact I].
Qed.

Lemma atomic_bind {A B} (m : M A) (k : A -> M B) :
  reads_only m -> (forall a, atomic (k a)) -> atomic (bind m k).
Proof.
  intros Hm Hk vm. unfold bind. specialize (Hm vm).
  destruct (m vm) as [a vm1|e vm1|]; [|exact Hm|exact I].
  subst vm1. apply Hk.
Qed.

Lemma atomic_bind_last {A B} (m : M A) (k : A -> M B) :
  atomic m -> (forall a, never_raises (k a)) -> atomic (bind m k).
Proof.
  intros Hm Hk vm. unfold bind. specialize (Hm vm).
  destruct (m vm) as [a vm1|e vm1|]; [|exact Hm|exact I].
  specialize (Hk a vm1). destruct (k a vm1); [exact I | contradiction | exact I].
Qed.

Lemma reads_only_ret {A} (a : A) : reads_only (ret a).
Proof. intros vm. reflexivity. Qed.

Lemma reads_only_raise {A} (e : exn) : reads_only (@raise A e).
Proof. intros vm. reflexivity. Qed.

Lemma reads_only_beyond {A} : reads_only (@beyond A).
Proof. intros vm. exact I. Qed.

Lemma reads_only_getitem (name : string) : reads_only (getitem name).
Proof. intros vm. unfold getitem. destruct (variables vm !! name); reflexivity. Qed.

Lemma reads_only_variables_get (name : string) : reads_only (variables_get name).
Proof.
  intros vm. unfold variables_get. destruct (variables vm !! name); reflexivity.
Qed.

Lemma reads_only_deref (l : nat) : reads_only (deref l).
Proof. intros vm. unfold deref. destruct (heap vm !! l); [reflexivity | exact I]. Qed.

Lemma reads_only_covered {A} (o : option A) : reads_only (covered o).
Proof. destruct o; [apply reads_only_ret | apply reads_only_beyond]. Qed.

Lemma never_raises_setitem (name : string) (c : Cell) :
  never_raises (setitem name c).
Proof. intros vm. exact I. Qed.

Lemma never_raises_variables_set (name : string) (c : Cell) :
  never_raises (variables_set name c).
Proof. intros vm. exact I. Qed.

Lemma never_raises_atomic {A} (m : M A) : never_raises m -> atomic m.
Proof.
  intros H vm. specialize (H vm). destruct (m vm); [exact I | contradiction | exact I].
Qed.

Lemma atomic_goto (label : string) : atomic (goto label).
Proof. intros vm. unfold goto. destruct (labels vm !! label); [exact I | reflexivity]. Qed.

Create HintDb effects.

#[local] Hint Resolve reads_only_bind reads_only_ret reads_only_raise
  reads_only_beyond reads_only_getitem reads_only_variables_get
  reads_only_deref reads_only_covered : effects.
#[local] Hint Resolve atomic_bind atomic_goto never_raises_setitem
  never_raises_variables_set : effects.
#[local] Hint Extern 1 (reads_only (match ?x with _ => _ end)) =>
  destruct x : effects.
#[local] Hint Extern 1 (atomic (match ?x with _ => _ end)) =>
  destruct x : effects.
#[local] Hint Extern 1 (reads_only (if ?b then _ else _)) =>
  destruct b : effects.
#[local] Hint Extern 1 (atomic (if ?b then _ else _)) =>
  destruct b : effects.
#[local] Hint Resolve reads_only_atomic never_raises_atomic | 5 : effects.

Ltac effects :=
  unfold py_ne, py_lt, py_le, py_gt, py_ge, int_or_ord;
  unfold py_floordiv, py_mod, cell_sub_int, int_sub_cell, py_and, py_int,
    py_len, py_index, py_chr, pack_last_byte, py_add, py_sub, py_mul,
    py_bitwise, py_neg, py_ord, py_eq, py_order;
  eauto 30 with effects.

Lemma atomic_py_store (a : Cell) (i : Z) (v : Cell) : atomic (py_store a i v).
Proof.
  destruct a as [x|cp|l]; cbn [py_store];
    [| destruct (fits_index i) |];
    try (apply reads_only_atomic; apply reads_only_raise).
  intros vm. unfold bind, deref.
  destruct (heap vm !! l) as [xs|]; [|exact I].
  destruct (norm_index (length xs) i); [exact I | reflexivity].
Qed.

Lemma atomic_py_append (a v : Cell) : atomic (py_append a v).
Proof.
  destruct a as [x|cp|l]; try (apply reads_only_atomic; apply reads_only_raise).
  intros vm. cbn [py_append]. unfold bind, deref.
  destruct (heap vm !! l) as [xs|]; exact I.
Qed.

Lemma atomic_eval_APut args : atomic (eval op_APut args).
Proof.
  destruct args as [|[vx|] [|[vy|] [|[vz|] [|? ?]]]];
    try (apply reads_only_atomic; apply reads_only_beyond).
  cbn [eval op_APut].
  apply atomic_bind; [effects|]. intros iz.
  apply atomic_bind; [effects|]. intros idx.
  apply atomic_bind; [effects|]. intros arr.
  apply atomic_bind; [effects|]. intros val.
  apply atomic_bind; [effects|]. intros n.
  apply atomic_bind_last; [|intros; apply never_raises_setitem].
  destruct (n >? idx); [apply atomic_py_store|].
  apply atomic_bind; [effects|]. intros n'.
  destruct (idx =? n'); [apply atomic_py_append|].
  apply reads_only_atomic, reads_only_ret.
Qed.

Lemma atomic_eval_PackedSwitch args : atomic (eval op_PackedSwitch args).
Proof.
  destruct args as [|[vx|] [|[table|] [|? ?]]];
    try (apply reads_only_atomic; apply reads_only_beyond).
  cbn [eval op_PackedSwitch].
  apply atomic_bind; [effects|]. intros val vm.
  destruct (packed_switches vm !! table) as [switch|]; [|reflexivity].
  assert (H : atomic
                (let! case_idx := cell_sub_int val (first_value switch) in
                 if (case_idx >=? Z.of_nat (length (cases switch)))
                    || (case_idx <? 0)
                 then ret tt
                 else match cases switch !! Z.to_nat case_idx with
                      | Some case_label => goto case_label
                      | None => raise IndexError
                      end)).
  { apply atomic_bind; [effects|]. intros case_idx. effects. }
  exact (H vm).
Qed.

Lemma never_raises_emu_fatal (msg : string) : never_raises (emu_fatal msg).
Proof. intros vm. exact I. Qed.

#[local] Hint Resolve never_raises_emu_fatal : effects.

Ltac unfold_opcodes :=
  unfold op_Const, op_Move, op_IfLe, op_IfGe, op_IfGez, op_IfLtz, op_IfGt,
    op_IfGtz, op_IfLez, op_IfEq, op_IfNe, op_IfLt, op_IfEqz, op_IfNez,
    op_ArrayLength, op_Aget, op_XorInt2Addr, op_XorIntLit, op_OrIntLiteral,
    op_DivIntLit, op_DivInt, op_AddInt, op_SubInt, op_MulInt, op_RemInt,
    op_AndInt, op_AndIntLit, op_AndInt2Addr, op_OrInt, op_GoTo, op_IntToType,
    op_SPut, op_SGet, op_RemIntLit, op_RSubIntLiteral, op_RSubInt,
    op_AddInt2Addr, op_SubInt2Addr, op_OrInt2Addr, op_NegInt,
    if_cmp, if_cmpz, binop3, binop2addr;
  cbn [eval].

Ltac split_args args :=
  destruct args as [|[?|] [|[?|] [|[?|] [|[?|] [|? ?]]]]].

Lemma atomic_opcodes :
  Forall (fun op => forall args, atomic (eval op args)) opcodes.
Proof.
  unfold opcodes.
  repeat (apply List.Forall_cons;
          [first [exact atomic_eval_APut | exact atomic_eval_PackedSwitch
                 | solve [intros args; split_args args; unfold_opcodes; effects]]|]).
  apply List.Forall_nil.
Qed.

(** A failed instruction has no partial effect: when the action of one of
    the opcode classes raises, the state is the one it started from, so
    [parse] hands [vm.exception] the untouched state, and the registers and
    the arrays are as before the instruction. *)
Theorem failed_instruction_changes_nothing
    (op : OpCode) (line : string) groups (vm vm' : VM) (e : exn) :
  In op opcodes ->
  Re.search (expression op) line = Some groups ->
  eval op (List.map (option_map Py.strip) groups) vm = Raise e vm' ->
  vm' = vm
  /\ parse op line vm = Ok true (exception e vm)
  /\ variables (exception e vm) = variables vm
  /\ heap (exception e vm) = heap vm.
Proof.
  intros Hop Hs He.
  assert (Hvm : vm' = vm).
  { pose proof atomic_opcodes as H. rewrite Forall_forall in H.
    apply list_elem_of_In in Hop.
    specialize (H op Hop (List.map (option_map Py.strip) groups) vm).
    rewrite He in H. exact H. }
  subst vm'. split; [reflexivity|].
  split; [exact (parse_raises _ _ _ _ _ _ Hs He)|].
  split; [apply exception_variables | apply exception_heap].
Qed.

(** ** What an instruction leaves alone *)

Lemma same_program_refl (vm : VM) : same_program vm vm.
Proof. repeat split. Qed.

Lemma same_program_trans (a b c : VM) :
  same_program a b -> same_program b c -> same_program a c.
Proof.
  intros (H1 & H2 & H3 & H4) (K1 & K2 & K3 & K4).
  repeat split; congruence.
Qed.

Section Frames.

Variable frame : VM -> VM -> Prop.
Hypothesis frame_refl : forall vm, frame vm vm.
Hypothesis frame_trans : forall a b c, frame a b -> frame b c -> frame a c.

Lemma keeps_reads_only {A} (m : M A) : reads_only m -> keeps frame m.
Proof.
  intros H vm. specialize (H vm). destruct (m vm) as [a vm1|e vm1|]; try exact I.
  subst vm1. split; [apply same_program_refl | apply frame_refl].
Qed.

Lemma keeps_bind {A B} (m : M A) (k : A -> M B) :
  keeps frame m -> (forall a, keeps frame (k a)) -> keeps frame (bind m k).
Proof.
  intros Hm Hk vm. unfold bind. specialize (Hm vm).
  destruct (m vm) as [a vm1|e vm1|]; try exact I.
  specialize (Hk a vm1). destruct (k a vm1) as [b vm2|e vm2|]; try exact I.
  destruct Hm as [P1 F1], Hk as [P2 F2].
  split; [exact (same_program_trans _ _ _ P1 P2) | exact (frame_trans _ _ _ F1 F2)].
Qed.

End Frames.

Lemma same_pc_fatal_refl (vm : VM) : same_pc_fatal vm vm.
Proof. split; reflexivity. Qed.

Lemma same_pc_fatal_trans (a b c : VM) :
  same_pc_fatal a b -> same_pc_fatal b c -> same_pc_fatal a c.
Proof. intros [H1 H2] [K1 K2]. split; congruence. Qed.

Lemma same_data_refl (vm : VM) : same_data vm vm.
Proof. repeat split. Qed.

Lemma same_data_trans (a b c : VM) :
  same_data a b -> same_data b c -> same_data a c.
Proof. intros (H1 & H2 & H3) (K1 & K2 & K3). repeat split; congruence. Qed.

Lemma computes_reads_only {A} (m : M A) : reads_only m -> keeps same_pc_fatal m.
Proof. apply keeps_reads_only, same_pc_fatal_refl. Qed.

Lemma computes_bind {A B} (m : M A) (k : A -> M B) :
  keeps same_pc_fatal m -> (forall a, keeps same_pc_fatal (k a)) ->
  keeps same_pc_fatal (bind m k).
Proof. apply keeps_bind, same_pc_fatal_trans. Qed.

Lemma computes_setitem (name : string) (c : Cell) :
  keeps same_pc_fatal (setitem name c).
Proof. intros vm. repeat split. Qed.

Lemma computes_variables_set (name : string) (c : Cell) :
  keeps same_pc_fatal (variables_set name c).
Proof. intros vm. repeat split. Qed.

Lemma computes_py_store (a : Cell) (i : Z) (v : Cell) :
  keeps same_pc_fatal (py_store a i v).
Proof.
  destruct a as [x|cp|l]; cbn [py_store];
    [| destruct (fits_index i) |]; try (intros vm; exact I).
  intros vm. unfold bind, deref.
  destruct (heap vm !! l) as [xs|]; [|exact I].
  destruct (norm_index (length xs) i); [repeat split | exact I].
Qed.

Lemma computes_py_append (a v : Cell) : keeps same_pc_fatal (py_append a v).
Proof.
  destruct a as [x|cp|l]; try (intros vm; exact I).
  intros vm. cbn [py_append]. unfold bind, deref.
  destruct (heap vm !! l) as [xs|]; [repeat split | exact I].
Qed.

Lemma branches_reads_only {A} (m : M A) : reads_only m -> keeps same_data m.
Proof. apply keeps_reads_only, same_data_refl. Qed.

Lemma branches_bind {A B} (m : M A) (k : A -> M B) :
  keeps same_data m -> (forall a, keeps same_data (k a)) ->
  keeps same_data (bind m k).
Proof. apply keeps_bind, same_data_trans. Qed.

Lemma branches_goto (label : string) : keeps same_data (goto label).
Proof.
  intros vm. unfold goto. destruct (labels vm !! label); [repeat split | exact I].
Qed.

Create HintDb frames.

#[local] Hint Resolve computes_bind computes_setitem computes_variables_set
  computes_py_store computes_py_append branches_bind branches_goto : frames.
#[local] Hint Resolve computes_reads_only branches_reads_only | 5 : frames.
#[local] Hint Extern 1 (keeps _ (match ?x with _ => _ end)) =>
  destruct x : frames.
#[local] Hint Extern 1 (keeps _ (if ?b then _ else _)) =>
  destruct b : frames.

Ltac frames :=
  unfold py_ne, py_lt, py_le, py_gt, py_ge, int_or_ord;
  unfold py_floordiv, py_mod, cell_sub_int, int_sub_cell, py_and, py_int,
    py_len, py_index, py_chr, pack_last_byte, py_add, py_sub, py_mul,
    py_bitwise, py_neg, py_ord, py_eq, py_order;
  eauto 40 with frames effects.

Lemma branches_eval_PackedSwitch args :
  keeps same_data (eval op_PackedSwitch args).
Proof.
  split_args args; try (intros vm; exact I).
  cbn [eval op_PackedSwitch].
  apply branches_bind; [frames|]. intros val vm.
  destruct (packed_switches vm !! _) as [switch|]; [|exact I].
  assert (H : keeps same_data
                (let! case_idx := cell_sub_int val (first_value switch) in
                 if (case_idx >=? Z.of_nat (length (cases switch)))
                    || (case_idx <? 0)
                 then ret tt
                 else match cases switch !! Z.to_nat case_idx with
                      | Some case_label => goto case_label
                      | None => raise IndexError
                      end)).
  { frames. }
  exact (H vm).
Qed.

Lemma computes_data_opcodes :
  Forall (fun op => forall args, keeps same_pc_fatal (eval op args))
    data_opcodes.
Proof.
  unfold data_opcodes.
  repeat (apply List.Forall_cons;
          [solve [intros args; split_args args; unfold_opcodes;
                  cbn [eval op_APut]; frames]|]).
  apply List.Forall_nil.
Qed.

Lemma branches_branch_opcodes :
  Forall (fun op => forall args, keeps same_data (eval op args))
    branch_opcodes.
Proof.
  unfold branch_opcodes.
  repeat (apply List.Forall_cons;
          [first [exact branches_eval_PackedSwitch
                 | solve [intros args; split_args args; unfold_opcodes; frames]]|]).
  apply List.Forall_nil.
Qed.

(** An instruction that computes never moves the control: when the action of
    one of the computing classes returns, [pc] and the fatal flag, the
    labels, the switch tables, the catch blocks and the exception stack are
    as before; only registers and arrays can have changed. *)
Theorem computing_opcodes_leave_control_alone
    (op : OpCode) args (vm vm' : VM) :
  In op data_opcodes ->
  eval op args vm = Ok tt vm' ->
  pc vm' = pc vm /\ fatal vm' = fatal vm
  /\ labels vm' = labels vm /\ packed_switches vm' = packed_switches vm
  /\ catch_blocks vm' = catch_blocks vm /\ exceptions vm' = exceptions vm.
Proof.
  intros Hop He.
  pose proof computes_data_opcodes as H. rewrite Forall_forall in H.
  apply list_elem_of_In in Hop. specialize (H op Hop args vm).
  rewrite He in H. destruct H as [(H1 & H2 & H3 & H4) [H5 H6]].
  repeat split; assumption.
Qed.

(** A branch writes nothing: when the action of an [if-*], [goto] or
    [packed-switch] class returns, the registers, the arrays, the fatal
    flag, the tables of the program and the exception stack are as before;
    only [pc] can have changed. *)
Theorem branch_opcodes_write_nothing
    (op : OpCode) args (vm vm' : VM) :
  In op branch_opcodes ->
  eval op args vm = Ok tt vm' ->
  variables vm' = variables vm /\ heap vm' = heap vm /\ fatal vm' = fatal vm
  /\ labels vm' = labels vm /\ packed_switches vm' = packed_switches vm
  /\ catch_blocks vm' = catch_blocks vm /\ exceptions vm' = exceptions vm.
Proof.
  intros Hop He.
  pose proof branches_branch_opcodes as H. rewrite Forall_forall in H.
  apply list_elem_of_In in Hop. specialize (H op Hop args vm).
  rewrite He in H. destruct H as [(H1 & H2 & H3 & H4) (H5 & H6 & H7)].
  repeat split; assumption.
Qed.

(** ** Arithmetic handlers that undo or repeat each other *)

Lemma set_variables_twice (vm : VM) (name : string) (c d : Cell) :
  set_variables <[name := d]> (set_variables <[name := c]> vm)
  = set_variables <[name := d]> vm.
Proof.
  destruct vm as [vars hp p lb sw ex cb ft]. unfold set_variables. cbn.
  rewrite insert_insert_eq. reflexivity.
Qed.

Lemma set_variables_back (vm : VM) (name : string) (c d : Cell) :
  variables vm !! name = Some d ->
  set_variables <[name := d]> (set_variables <[name := c]> vm) = vm.
Proof.
  intros H. rewrite set_variables_twice. apply set_variables_same. exact H.
Qed.

Lemma lookup_set_variables (vm : VM) (name other : string) (c : Cell) :
  variables (set_variables <[name := c]> vm) !! other
  = if decide (name = other) then Some c else variables vm !! other.
Proof. cbn. apply lookup_insert. Qed.

Lemma lookup_set_variables_eq (vm : VM) (name : string) (c : Cell) :
  variables (set_variables <[name := c]> vm) !! name = Some c.
Proof. cbn. apply lookup_insert_eq. Qed.

Lemma lookup_set_variables_ne (vm : VM) (name other : string) (c : Cell) :
  name <> other ->
  variables (set_variables <[name := c]> vm) !! other = variables vm !! other.
Proof. intros H. cbn. apply lookup_insert_ne. exact H. Qed.

(** Running an action on a state whose registers are known. *)
Ltac run_step :=
  match goal with
  | H : variables ?vm !! ?k = _ |- context [variables ?vm !! ?k] => rewrite H
  | H : heap ?vm !! ?k = _ |- context [heap ?vm !! ?k] => rewrite H
  | H : get_int_value ?l = _ |- context [get_int_value ?l] => rewrite H
  | |- context [variables (set_variables <[?k := ?c]> ?vm) !! ?k] =>
      rewrite (lookup_set_variables_eq vm k c)
  | Hne : ?k <> ?j
    |- context [variables (set_variables <[?k := ?c]> ?vm) !! ?j] =>
      rewrite (lookup_set_variables_ne vm k j c Hne)
  end.

Ltac run :=
  unfold int_or_ord, py_ne, py_lt, py_le, py_gt, py_ge;
  unfold bind, getitem, variables_get, covered;
  repeat (cbn beta iota delta
            [ret raise beyond py_floordiv py_mod cell_sub_int int_sub_cell
             py_and py_int py_add py_sub py_mul py_bitwise py_neg is_int
             py_ord py_eq py_ne py_lt py_le py_gt py_ge py_order bind];
          try run_step).

(** [neg-int] is [rsub-int] with the literal [0], on every state: the same
    register is written with the same value, and the same exception is
    raised when the source is unbound or does not hold an integer. *)
Theorem neg_int_is_rsub_int_zero (vm : VM) (dest source : string) :
  eval op_NegInt [Some dest; Some source] vm
  = eval op_RSubInt [Some dest; Some source; Some "0"] vm.
Proof.
  cbn [eval op_NegInt op_RSubInt]. unfold bind, getitem.
  destruct (variables vm !! source) as [[x|cp|l]|]; reflexivity.
Qed.

(** Whenever [rsub-int/litN] returns, [rsub-int] on the same operands returns
    the same state: the literal form only adds the range assertion. *)
Theorem rsub_int_literal_refines_rsub_int
    (vm vm' : VM) (size dest source constant : string) :
  eval op_RSubIntLiteral
    [Some size; Some dest; Some source; Some constant] vm = Ok tt vm' ->
  eval op_RSubInt [Some dest; Some source; Some constant] vm = Ok tt vm'.
Proof.
  cbn [eval op_RSubIntLiteral op_RSubInt]. unfold bind, covered.
  destruct (int_of_digits size) as [n|]; [|discriminate]. cbn.
  unfold getitem. destruct (variables vm !! source) as [c|]; [|discriminate].
  destruct (get_int_value constant) as [k|]; [|discriminate]. cbn.
  destruct c as [y|cp|l]; cbn; try discriminate.
  destruct (fits_signed n y && (fits_signed n k && (fits_signed n (k - y) && true)));
    [trivial | discriminate].
Qed.

Lemma rsub_int_literal_refines_rsub_int_witness :
  eval op_RSubInt [Some "v2"; Some "v1"; Some "0x3"] vm_small
  = Ok tt (set_variables <["v2" := CInt 1]> vm_small).
Proof.
  exact (rsub_int_literal_refines_rsub_int vm_small
           (set_variables <["v2" := CInt 1]> vm_small) "8" "v2" "v1" "0x3"
           eq_refl).
Defined.

(** [rsub-int] on one register is an involution: applied twice with the same
    literal, it restores the state. *)
Theorem rsub_int_twice_restores (vm : VM) (v constant : string) (x k : Z) :
  variables vm !! v = Some (CInt x) ->
  get_int_value constant = Some k ->
  exists vm1,
    eval op_RSubInt [Some v; Some v; Some constant] vm = Ok tt vm1
    /\ variables vm1 !! v = Some (CInt (k - x))
    /\ eval op_RSubInt [Some v; Some v; Some constant] vm1 = Ok tt vm.
Proof.
  intros Hv Hk. exists (set_variables <[v := CInt (k - x)]> vm).
  split; [|split].
  - cbn [eval op_RSubInt]. run. reflexivity.
  - apply lookup_set_variables_eq.
  - cbn [eval op_RSubInt]. run.
    unfold setitem. f_equal. replace (k - (k - x)) with x by lia.
    apply set_variables_back. exact Hv.
Qed.

Lemma rsub_int_twice_restores_witness :
  exists vm1,
    eval op_RSubInt [Some "v1"; Some "v1"; Some "0x32"] vm_small = Ok tt vm1
    /\ variables vm1 !! "v1" = Some (CInt (50 - 2))
    /\ eval op_RSubInt [Some "v1"; Some "v1"; Some "0x32"] vm1 = Ok tt vm_small.
Proof.
  exact (rsub_int_twice_restores vm_small "v1" "0x32" 2 50 eq_refl eq_refl).
Defined.

(** [add-int/2addr vX, vY] followed by [sub-int/2addr vX, vY] restores the
    state, for two different registers that hold integers. *)
Theorem add_then_sub_2addr_restores (vm : VM) (vx vy : string) (x y : Z) :
  vx <> vy ->
  variables vm !! vx = Some (CInt x) ->
  variables vm !! vy = Some (CInt y) ->
  exists vm1,
    eval op_AddInt2Addr [Some vx; Some vy] vm = Ok tt vm1
    /\ variables vm1 !! vx = Some (CInt (y + x))
    /\ eval op_SubInt2Addr [Some vx; Some vy] vm1 = Ok tt vm.
Proof.
  intros Hne Hx Hy. exists (set_variables <[vx := CInt (y + x)]> vm).
  unfold op_AddInt2Addr, op_SubInt2Addr, binop2addr. cbn [eval].
  split; [|split].
  - run. reflexivity.
  - apply lookup_set_variables_eq.
  - run. unfold setitem. f_equal. replace (y + x - y) with x by lia.
    apply set_variables_back. exact Hx.
Qed.

Lemma add_then_sub_2addr_restores_witness :
  exists vm1,
    eval op_AddInt2Addr [Some "v1"; Some "v2"] vm_small = Ok tt vm1
    /\ variables vm1 !! "v1" = Some (CInt (4 + 2))
    /\ eval op_SubInt2Addr [Some "v1"; Some "v2"] vm1 = Ok tt vm_small.
Proof.
  apply (add_then_sub_2addr_restores vm_small "v1" "v2" 2 4);
    [discriminate | reflexivity | reflexivity].
Defined.

(** [or-int/2addr] and [and-int/2addr] are idempotent: on registers that
    hold integers, a second execution changes nothing. *)
Theorem or_and_2addr_idempotent (vm : VM) (vx vy : string) (x y : Z) :
  variables vm !! vx = Some (CInt x) ->
  variables vm !! vy = Some (CInt y) ->
  (exists vm1,
      eval op_OrInt2Addr [Some vx; Some vy] vm = Ok tt vm1
      /\ eval op_OrInt2Addr [Some vx; Some vy] vm1 = Ok tt vm1)
  /\ (exists vm1,
      eval op_AndInt2Addr [Some vx; Some vy] vm = Ok tt vm1
      /\ eval op_AndInt2Addr [Some vx; Some vy] vm1 = Ok tt vm1).
Proof.
  intros Hx Hy. split.
  - exists (set_variables <[vx := CInt (Z.lor y x)]> vm).
    unfold op_OrInt2Addr, binop2addr. cbn [eval].
    split; [run; reflexivity|].
    destruct (decide (vx = vy)) as [->|Hne].
    + assert (x = y) by congruence. subst y. run.
      unfold setitem. f_equal.
      rewrite set_variables_twice, !Z.lor_diag. reflexivity.
    + run. unfold setitem. f_equal.
      rewrite set_variables_twice, Z.lor_assoc, Z.lor_diag. reflexivity.
  - exists (set_variables <[vx := CInt (Z.land y x)]> vm).
    cbn [eval op_AndInt2Addr].
    split; [run; reflexivity|].
    destruct (decide (vx = vy)) as [->|Hne].
    + assert (x = y) by congruence. subst y. run.
      unfold setitem. f_equal.
      rewrite set_variables_twice, !Z.land_diag. reflexivity.
    + run. unfold setitem. f_equal.
      rewrite set_variables_twice, Z.land_assoc, Z.land_diag. reflexivity.
Qed.

Lemma or_and_2addr_idempotent_witness :
  (exists vm1,
      eval op_OrInt2Addr [Some "v1"; Some "v2"] vm_small = Ok tt vm1
      /\ eval op_OrInt2Addr [Some "v1"; Some "v2"] vm1 = Ok tt vm1)
  /\ (exists vm1,
      eval op_AndInt2Addr [Some "v1"; Some "v2"] vm_small = Ok tt vm1
      /\ eval op_AndInt2Addr [Some "v1"; Some "v2"] vm1 = Ok tt vm1).
Proof.
  exact (or_and_2addr_idempotent vm_small "v1" "v2" 2 4 eq_refl eq_refl).
Defined.

(** [xor-int/2addr vX, vY] is an involution: for two different registers,
    an integer in [vX] and an integer or a character in [vY], the second
    execution restores the state. *)
Theorem xor_int_2addr_twice_restores
    (vm : VM) (vx vy : string) (x v : Z) (c : Cell) :
  vx <> vy ->
  variables vm !! vx = Some (CInt x) ->
  variables vm !! vy = Some c ->
  operand_value c = Some v ->
  exists vm1,
    eval op_XorInt2Addr [Some vx; Some vy] vm = Ok tt vm1
    /\ variables vm1 !! vx = Some (CInt (Z.lxor x v))
    /\ eval op_XorInt2Addr [Some vx; Some vy] vm1 = Ok tt vm.
Proof.
  intros Hne Hx Hy Hv. exists (set_variables <[vx := CInt (Z.lxor x v)]> vm).
  assert (Hback : Z.lxor (Z.lxor x v) v = x).
  { rewrite Z.lxor_assoc, Z.lxor_nilpotent, Z.lxor_0_r. reflexivity. }
  cbn [eval op_XorInt2Addr].
  destruct c as [y|cp|l]; cbn in Hv; [| |discriminate]; injection Hv as ->.
  - split; [run; reflexivity|]. split; [apply lookup_set_variables_eq|].
    run. unfold setitem. f_equal. rewrite Hback.
    apply set_variables_back. exact Hx.
  - split; [run; reflexivity|]. split; [apply lookup_set_variables_eq|].
    run. unfold setitem. f_equal. rewrite Hback.
    apply set_variables_back. exact Hx.
Qed.

Lemma xor_int_2addr_twice_restores_witness :
  exists vm1,
    eval op_XorInt2Addr [Some "v1"; Some "v2"] vm_small = Ok tt vm1
    /\ variables vm1 !! "v1" = Some (CInt (Z.lxor 2 4))
    /\ eval op_XorInt2Addr [Some "v1"; Some "v2"] vm1 = Ok tt vm_small.
Proof.
  apply (xor_int_2addr_twice_restores vm_small "v1" "v2" 2 4 (CInt 4));
    [discriminate | reflexivity ..].
Defined.

(** A character made by [int-to-char] is accepted by [xor-int/lit] and
    [or-int/lit], which take its code point, and refused by [add-int], which
    raises [TypeError]. *)
Theorem character_operand_of_xor_or_add
    (vm : VM) (vc vy vx lit : string) (x z : Z) :
  variables vm !! vy = Some (CInt x) ->
  get_int_value lit = Some z ->
  exists vm1,
    eval op_IntToType [Some "char"; Some vc; Some vy] vm = Ok tt vm1
    /\ variables vm1 !! vc = Some (CChar (Z.land x 65535))
    /\ eval op_XorIntLit [Some vx; Some vc; Some lit] vm1
       = Ok tt (set_variables <[vx := CInt (Z.lxor (Z.land x 65535) z)]> vm1)
    /\ eval op_OrIntLiteral [Some "8"; Some vx; Some vc; Some lit] vm1
       = Ok tt (set_variables <[vx := CInt (Z.lor (Z.land x 65535) z)]> vm1)
    /\ (vc <> vy ->
        eval op_AddInt [Some vx; Some vy; Some vc] vm1 = Raise TypeError vm1).
Proof.
  intros Hy Hz.
  assert (Hr : 0 <= Z.land x 65535 <= 65535).
  { change (Z.land x 65535) with (Z.land x (Z.ones 16)).
    rewrite Z.land_ones by lia. change (2 ^ 16) with 65536.
    pose proof (Z.mod_pos_bound x 65536 eq_refl). lia. }
  exists (set_variables <[vc := CChar (Z.land x 65535)]> vm).
  split.
  { cbn [eval op_IntToType String.eqb Ascii.eqb Bool.eqb]. run.
    unfold py_chr.
    replace ((0 <=? Z.land x 65535) && (Z.land x 65535 <=? 1114111)) with true
      by (symmetry; apply andb_true_iff; split; apply Z.leb_le; lia).
    reflexivity. }
  split; [apply lookup_set_variables_eq|].
  split; [cbn [eval op_XorIntLit]; run; reflexivity|].
  split; [cbn [eval op_OrIntLiteral]; run; reflexivity|].
  unfold op_AddInt, binop3. cbn [eval].
  intros Hne. run. reflexivity.
Qed.

Lemma character_operand_of_xor_or_add_witness :
  exists vm1,
    eval op_IntToType [Some "char"; Some "v3"; Some "v0"] vm_small = Ok tt vm1
    /\ variables vm1 !! "v3" = Some (CChar (Z.land 1 65535))
    /\ eval op_XorIntLit [Some "v2"; Some "v3"; Some "0x26"] vm1
       = Ok tt (set_variables <["v2" := CInt (Z.lxor (Z.land 1 65535) 38)]> vm1)
    /\ eval op_OrIntLiteral [Some "8"; Some "v2"; Some "v3"; Some "0x26"] vm1
       = Ok tt (set_variables <["v2" := CInt (Z.lor (Z.land 1 65535) 38)]> vm1)
    /\ ("v3" <> "v0" ->
        eval op_AddInt [Some "v2"; Some "v0"; Some "v3"] vm1 = Raise TypeError vm1).
Proof.
  exact (character_operand_of_xor_or_add vm_small "v3" "v0" "v2" "0x26" 1 38
           eq_refl eq_refl).
Defined.

(** ** Division and remainder by a literal *)

(** [div-int/lit] and [rem-int/lit] round towards minus infinity: for an
    integer [x] in [vY] and a literal [c] other than zero they store [q] and
    [r] with [x = c * q + r] and [r] between zero and [c], zero included and
    [c] excluded; with the literal zero both raise [ZeroDivisionError] and
    store nothing. *)
Theorem div_rem_literal_round_down
    (vm : VM) (vq vr vy lit : string) (x c : Z) :
  variables vm !! vy = Some (CInt x) ->
  get_int_value lit = Some c ->
  (c <> 0 ->
     eval op_DivIntLit [Some vq; Some vy; Some lit] vm
       = Ok tt (set_variables <[vq := CInt (x / c)]> vm)
     /\ eval op_RemIntLit [Some vr; Some vy; Some lit] vm
        = Ok tt (set_variables <[vr := CInt (x mod c)]> vm)
     /\ x = c * (x / c) + x mod c
     /\ (0 < c -> 0 <= x mod c < c)
     /\ (c < 0 -> c < x mod c <= 0))
  /\ (c = 0 ->
      eval op_DivIntLit [Some vq; Some vy; Some lit] vm
        = Raise ZeroDivisionError vm
      /\ eval op_RemIntLit [Some vr; Some vy; Some lit] vm
         = Raise ZeroDivisionError vm).
Proof.
  intros Hy Hc. cbn [eval op_DivIntLit op_RemIntLit]. split.
  - intros Hne. apply Z.eqb_neq in Hne.
    split; [run; rewrite Hne; reflexivity|].
    split; [run; rewrite Hne; reflexivity|].
    apply Z.eqb_neq in Hne.
    split; [apply Z.div_mod; exact Hne|].
    split; [apply Z.mod_pos_bound | apply Z.mod_neg_bound].
  - intros ->. split; run; reflexivity.
Qed.

Lemma div_rem_literal_round_down_witness :
  eval op_DivIntLit [Some "v1"; Some "v0"; Some "0x2"] vm_minus_one
    = Ok tt (set_variables <["v1" := CInt (-1)]> vm_minus_one)
  /\ eval op_RemIntLit [Some "v2"; Some "v0"; Some "0x2"] vm_minus_one
     = Ok tt (set_variables <["v2" := CInt 1]> vm_minus_one).
Proof.
  destruct (proj1 (div_rem_literal_round_down vm_minus_one "v1" "v2" "v0" "0x2"
                     (-1) 2 ltac:(reflexivity) ltac:(reflexivity)))
    as (H1 & H2 & _); [discriminate|].
  split; [exact H1 | exact H2].
Defined.

(** ** Conditional branches *)

(** On integers the six two-register branches form three complementary
    pairs: of [if-lt] and [if-ge], of [if-le] and [if-gt], and of [if-eq] and
    [if-ne], exactly one returns the state [set_pc n vm], whose [pc] is the
    line [n] of the label and whose registers, arrays and exception stack
    are those of [vm], and the other returns [vm] itself, [pc] included. *)
Theorem if_pairs_are_complementary
    (vm : VM) (vx vy label : string) (x y : Z) (n : nat) :
  variables vm !! vx = Some (CInt x) ->
  variables vm !! vy = Some (CInt y) ->
  labels vm !! label = Some n ->
  (pc (set_pc n vm) = n
   /\ variables (set_pc n vm) = variables vm
   /\ heap (set_pc n vm) = heap vm
   /\ exceptions (set_pc n vm) = exceptions vm
   /\ fatal (set_pc n vm) = fatal vm)
  /\ (pc vm <> n -> Ok tt (set_pc n vm) <> Ok tt vm)
  /\ (x < y ->
     eval op_IfLt [Some vx; Some vy; Some label] vm = Ok tt (set_pc n vm)
     /\ eval op_IfGe [Some vx; Some vy; Some label] vm = Ok tt vm)
  /\ (y <= x ->
      eval op_IfLt [Some vx; Some vy; Some label] vm = Ok tt vm
      /\ eval op_IfGe [Some vx; Some vy; Some label] vm = Ok tt (set_pc n vm))
  /\ (x <= y ->
      eval op_IfLe [Some vx; Some vy; Some label] vm = Ok tt (set_pc n vm)
      /\ eval op_IfGt [Some vx; Some vy; Some label] vm = Ok tt vm)
  /\ (y < x ->
      eval op_IfLe [Some vx; Some vy; Some label] vm = Ok tt vm
      /\ eval op_IfGt [Some vx; Some vy; Some label] vm = Ok tt (set_pc n vm))
  /\ (x = y ->
      eval op_IfEq [Some vx; Some vy; Some label] vm = Ok tt (set_pc n vm)
      /\ eval op_IfNe [Some vx; Some vy; Some label] vm = Ok tt vm)
  /\ (x <> y ->
      eval op_IfEq [Some vx; Some vy; Some label] vm = Ok tt vm
      /\ eval op_IfNe [Some vx; Some vy; Some label] vm = Ok tt (set_pc n vm)).
Proof.
  intros Hx Hy Hl.
  unfold op_IfLt, op_IfGe, op_IfLe, op_IfGt, op_IfEq, op_IfNe, if_cmp.
  cbn [eval].
  assert (Hgo : goto label vm = Ok tt (set_pc n vm)).
  { unfold goto. rewrite Hl. reflexivity. }
  split; [repeat split |].
  split.
  { intros Hpc Heq. apply Hpc. injection Heq as Heq.
    rewrite <- Heq. reflexivity. }
  repeat match goal with |- _ /\ _ => split end; intros H; split; run.
  - replace (x <? y) with true by lia. exact Hgo.
  - replace (x >=? y) with false by lia. reflexivity.
  - replace (x <? y) with false by lia. reflexivity.
  - replace (x >=? y) with true by lia. exact Hgo.
  - replace (x <=? y) with true by lia. exact Hgo.
  - replace (x >? y) with false by lia. reflexivity.
  - replace (x <=? y) with false by lia. reflexivity.
  - replace (x >? y) with true by lia. exact Hgo.
  - replace (x =? y) with true by lia. exact Hgo.
  - replace (x =? y) with true by lia. reflexivity.
  - replace (x =? y) with false by lia. reflexivity.
  - replace (x =? y) with false by lia. exact Hgo.
Qed.

Lemma if_pairs_are_complementary_witness :
  pc vm_small = 3%nat
  /\ pc (set_pc 10 vm_small) = 10%nat
  /\ eval op_IfLt [Some "v0"; Some "v1"; Some ":A"] vm_small
     = Ok tt (set_pc 10 vm_small)
  /\ eval op_IfGe [Some "v0"; Some "v1"; Some ":A"] vm_small = Ok tt vm_small.
Proof.
  destruct (if_pairs_are_complementary vm_small "v0" "v1" ":A" 1 2 10
              eq_refl eq_refl eq_refl) as ((Hpc & _) & _ & Hlt & _).
  split; [reflexivity |].
  split; [exact Hpc |].
  apply Hlt. lia.
Defined.

(** Exchanging the operands exchanges [if-lt] with [if-gt] and [if-le] with
    [if-ge], and leaves [if-eq] and [if-ne] as they are, whatever the two
    registers hold. *)
Theorem if_operands_exchanged
    (vm : VM) (vx vy label : string) (a b : Cell) :
  variables vm !! vx = Some a ->
  variables vm !! vy = Some b ->
  eval op_IfLt [Some vx; Some vy; Some label] vm
    = eval op_IfGt [Some vy; Some vx; Some label] vm
  /\ eval op_IfLe [Some vx; Some vy; Some label] vm
     = eval op_IfGe [Some vy; Some vx; Some label] vm
  /\ eval op_IfEq [Some vx; Some vy; Some label] vm
     = eval op_IfEq [Some vy; Some vx; Some label] vm
  /\ eval op_IfNe [Some vx; Some vy; Some label] vm
     = eval op_IfNe [Some vy; Some vx; Some label] vm.
Proof.
  intros Hx Hy.
  unfold op_IfLt, op_IfGe, op_IfLe, op_IfGt, op_IfEq, op_IfNe, if_cmp.
  cbn [eval].
  repeat split; destruct a as [x|x|l], b as [y|y|l']; run;
    rewrite ?Z.gtb_ltb, ?Z.geb_leb, ?(Z.eqb_sym y x), ?(Nat.eqb_sym l' l);
    reflexivity.
Qed.

Lemma if_operands_exchanged_witness :
  eval op_IfLt [Some "v0"; Some "v1"; Some ":A"] vm_small
    = eval op_IfGt [Some "v1"; Some "v0"; Some ":A"] vm_small
  /\ eval op_IfLe [Some "v0"; Some "v1"; Some ":A"] vm_small
     = eval op_IfGe [Some "v1"; Some "v0"; Some ":A"] vm_small
  /\ eval op_IfEq [Some "v0"; Some "v1"; Some ":A"] vm_small
     = eval op_IfEq [Some "v1"; Some "v0"; Some ":A"] vm_small
  /\ eval op_IfNe [Some "v0"; Some "v1"; Some ":A"] vm_small
     = eval op_IfNe [Some "v1"; Some "v0"; Some ":A"] vm_small.
Proof.
  exact (if_operands_exchanged vm_small "v0" "v1" ":A" (CInt 1) (CInt 2)
           eq_refl eq_refl).
Defined.

(** Each branch on zero is the two-register branch of the same name against
    a register that holds zero. *)
Theorem if_z_is_if_against_zero (vm : VM) (vx vy label : string) :
  variables vm !! vy = Some (CInt 0) ->
  eval op_IfGez [Some vx; Some label] vm
    = eval op_IfGe [Some vx; Some vy; Some label] vm
  /\ eval op_IfLtz [Some vx; Some label] vm
     = eval op_IfLt [Some vx; Some vy; Some label] vm
  /\ eval op_IfGtz [Some vx; Some label] vm
     = eval op_IfGt [Some vx; Some vy; Some label] vm
  /\ eval op_IfLez [Some vx; Some label] vm
     = eval op_IfLe [Some vx; Some vy; Some label] vm
  /\ eval op_IfEqz [Some vx; Some label] vm
     = eval op_IfEq [Some vx; Some vy; Some label] vm
  /\ eval op_IfNez [Some vx; Some label] vm
     = eval op_IfNe [Some vx; Some vy; Some label] vm.
Proof.
  intros Hy.
  unfold op_IfGez, op_IfLtz, op_IfGtz, op_IfLez, op_IfEqz, op_IfNez, if_cmpz,
    op_IfLt, op_IfGe, op_IfLe, op_IfGt, op_IfEq, op_IfNe, if_cmp.
  cbn [eval]. unfold bind, getitem.
  repeat split; destruct (variables vm !! vx) as [a|]; rewrite ?Hy; reflexivity.
Qed.

Lemma if_z_is_if_against_zero_witness :
  eval op_IfGez [Some "v0"; Some ":A"] vm_ints
    = eval op_IfGe [Some "v0"; Some "v1"; Some ":A"] vm_ints.
Proof.
  apply (if_z_is_if_against_zero vm_ints "v0" "v1" ":A" eq_refl).
Defined.

(** An integer against a character: [if-eq] does not branch and [if-ne]
    branches, without an exception, while the four orderings raise
    [TypeError]. *)
Theorem if_on_integer_and_character
    (vm : VM) (vx vy label : string) (x cp : Z) :
  variables vm !! vx = Some (CInt x) ->
  variables vm !! vy = Some (CChar cp) ->
  eval op_IfEq [Some vx; Some vy; Some label] vm = Ok tt vm
  /\ eval op_IfNe [Some vx; Some vy; Some label] vm = goto label vm
  /\ eval op_IfLt [Some vx; Some vy; Some label] vm = Raise TypeError vm
  /\ eval op_IfLe [Some vx; Some vy; Some label] vm = Raise TypeError vm
  /\ eval op_IfGt [Some vx; Some vy; Some label] vm = Raise TypeError vm
  /\ eval op_IfGe [Some vx; Some vy; Some label] vm = Raise TypeError vm.
Proof.
  intros Hx Hy.
  unfold op_IfLt, op_IfGe, op_IfLe, op_IfGt, op_IfEq, op_IfNe, if_cmp.
  cbn [eval]. repeat split; run; reflexivity.
Qed.

Lemma if_on_integer_and_character_witness :
  eval op_IfEq [Some "v0"; Some "v1"; Some ":A"] vm_int_char = Ok tt vm_int_char
  /\ eval op_IfNe [Some "v0"; Some "v1"; Some ":A"] vm_int_char
     = goto ":A" vm_int_char
  /\ eval op_IfLt [Some "v0"; Some "v1"; Some ":A"] vm_int_char
     = Raise TypeError vm_int_char
  /\ eval op_IfLe [Some "v0"; Some "v1"; Some ":A"] vm_int_char
     = Raise TypeError vm_int_char
  /\ eval op_IfGt [Some "v0"; Some "v1"; Some ":A"] vm_int_char
     = Raise TypeError vm_int_char
  /\ eval op_IfGe [Some "v0"; Some "v1"; Some ":A"] vm_int_char
     = Raise TypeError vm_int_char.
Proof.
  apply (if_on_integer_and_character vm_int_char "v0" "v1" ":A" 7 97);
    reflexivity.
Defined.

(** ** Static fields, moves and arrays *)

(** A static field is a register under its own name: after [sput vX, F],
    [sget vY, F] stores the value of [vX] into [vY]; and [sget] of a field
    that was never written raises [KeyError] and stores nothing. *)
Theorem sput_then_sget_reads_back
    (vm : VM) (vx vy field : string) (c : Cell) :
  variables vm !! vx = Some c ->
  (exists vm1,
      eval op_SPut [Some vx; Some field] vm = Ok tt vm1
      /\ variables vm1 !! field = Some c
      /\ eval op_SGet [Some vy; Some field] vm1
         = Ok tt (set_variables <[vy := c]> vm1)
      /\ variables (set_variables <[vy := c]> vm1) !! vy = Some c)
  /\ (variables vm !! field = None ->
      eval op_SGet [Some vy; Some field] vm = Raise (KeyError field) vm).
Proof.
  intros Hx. split.
  - exists (set_variables <[field := c]> vm).
    cbn [eval op_SPut op_SGet].
    split; [run; reflexivity|].
    split; [apply lookup_set_variables_eq|].
    split; [run; reflexivity | apply lookup_set_variables_eq].
  - intros Hf. cbn [eval op_SGet]. run. reflexivity.
Qed.

Lemma sput_then_sget_reads_back_witness :
  (exists vm1,
      eval op_SPut [Some "v0"; Some "Lfoo;->bar:I"] vm_small = Ok tt vm1
      /\ variables vm1 !! "Lfoo;->bar:I" = Some (CInt 1)
      /\ eval op_SGet [Some "v2"; Some "Lfoo;->bar:I"] vm1
         = Ok tt (set_variables <["v2" := CInt 1]> vm1)
      /\ variables (set_variables <["v2" := CInt 1]> vm1) !! "v2"
         = Some (CInt 1))
  /\ (variables vm_small !! "Lfoo;->bar:I" = None ->
      eval op_SGet [Some "v2"; Some "Lfoo;->bar:I"] vm_small
      = Raise (KeyError "Lfoo;->bar:I") vm_small).
Proof.
  apply (sput_then_sget_reads_back vm_small "v0" "v2" "Lfoo;->bar:I" (CInt 1)).
  reflexivity.
Defined.

Lemma lookup_set_heap (vm : VM) (l : nat) (xs : list Cell) :
  heap (set_heap <[l := xs]> vm) !! l = Some xs.
Proof. cbn. apply lookup_insert_eq. Qed.

Lemma aget_eval (vm : VM) (vx vy vz : string) (l : nat) (xs : list Cell)
    (i : Z) :
  variables vm !! vy = Some (CArr l) ->
  heap vm !! l = Some xs ->
  variables vm !! vz = Some (CInt i) ->
  eval op_Aget [Some vx; Some vy; Some vz] vm
  = match norm_index (length xs) i with
    | Some j =>
        match xs !! j with
        | Some c => Ok tt (set_variables <[vx := c]> vm)
        | None => Raise IndexError vm
        end
    | None => Raise IndexError vm
    end.
Proof.
  intros Hy Hh Hz. cbn [eval op_Aget]. unfold bind, getitem. rewrite Hy, Hz.
  cbn [py_index]. unfold bind, deref. rewrite Hh.
  destruct (norm_index (length xs) i) as [j|]; [|reflexivity].
  destruct (xs !! j); reflexivity.
Qed.

(** [aput] followed by [aget] at the same index reads the stored value back,
    for every index from zero to the length of the array, the length
    included; beyond the length [aput] does nothing and [aget] raises
    [IndexError]. *)
Theorem aput_then_aget_reads_back
    (vm : VM) (vx vy vz vd : string) (l : nat) (xs : list Cell) (i : Z)
    (val : Cell) :
  variables vm !! vy = Some (CArr l) ->
  heap vm !! l = Some xs ->
  variables vm !! vz = Some (CInt i) ->
  variables vm !! vx = Some val ->
  (0 <= i <= Z.of_nat (length xs) ->
   exists vm1,
     eval op_APut [Some vx; Some vy; Some vz] vm = Ok tt vm1
     /\ eval op_Aget [Some vd; Some vy; Some vz] vm1
        = Ok tt (set_variables <[vd := val]> vm1))
  /\ (Z.of_nat (length xs) < i ->
      eval op_APut [Some vx; Some vy; Some vz] vm = Ok tt vm
      /\ eval op_Aget [Some vd; Some vy; Some vz] vm = Raise IndexError vm).
Proof.
  intros Hy Hh Hz Hx.
  pose proof (aput_eval vm vx vy vz l xs i val Hy Hh Hz Hx) as He.
  split.
  - intros Hi.
    assert (Hget : forall xs',
               xs' !! Z.to_nat i = Some val ->
               (Z.to_nat i < length xs')%nat ->
               eval op_Aget [Some vd; Some vy; Some vz]
                 (set_heap <[l := xs']> vm)
               = Ok tt (set_variables <[vd := val]> (set_heap <[l := xs']> vm))).
    { intros xs' Hv Hlen.
      rewrite (aget_eval (set_heap <[l := xs']> vm) vd vy vz l xs' i Hy
                 (lookup_set_heap vm l xs') Hz).
      rewrite norm_index_in_range by lia. rewrite Hv. reflexivity. }
    destruct (Z.eq_dec i (Z.of_nat (length xs))) as [Heq|Hneq].
    + replace (Z.of_nat (length xs) >? i) with false in He by lia.
      replace (i =? Z.of_nat (length xs)) with true in He by lia.
      eexists. split; [exact He|]. apply Hget.
      * rewrite Heq, Nat2Z.id. apply list_lookup_middle. reflexivity.
      * rewrite length_app. cbn. lia.
    + replace (Z.of_nat (length xs) >? i) with true in He by lia.
      rewrite norm_index_in_range in He by lia.
      eexists. split; [exact He|]. apply Hget.
      * apply list_lookup_insert_eq. lia.
      * rewrite length_insert. lia.
  - intros Hi.
    replace (Z.of_nat (length xs) >? i) with false in He by lia.
    replace (i =? Z.of_nat (length xs)) with false in He by lia.
    split; [exact He|].
    rewrite (aget_eval vm vd vy vz l xs i Hy Hh Hz).
    rewrite norm_index_out_of_range by lia. reflexivity.
Qed.

Lemma aput_then_aget_reads_back_witness :
  exists vm1,
    eval op_APut [Some "v0"; Some "v4"; Some "v2"] vm_array = Ok tt vm1
    /\ eval op_Aget [Some "v3"; Some "v4"; Some "v2"] vm1
       = Ok tt (set_variables <["v3" := CInt 7]> vm1).
Proof.
  apply (proj1 (aput_then_aget_reads_back vm_array "v0" "v4" "v2" "v3" 0
                  [CInt 10; CInt 20] 2 (CInt 7)
                  ltac:(reflexivity) ltac:(reflexivity) ltac:(reflexivity)
                  ltac:(reflexivity))).
  cbn. lia.
Defined.

(** [move] copies the reference to an array, not the array: a value stored
    by [aput] through the copy is read by [aget] through the original
    register. *)
Theorem move_shares_the_array
    (vm : VM) (va vb vv vi vd : string) (l : nat) (xs : list Cell) (i : Z)
    (val : Cell) :
  vb <> vv -> vb <> vi ->
  variables vm !! va = Some (CArr l) ->
  heap vm !! l = Some xs ->
  variables vm !! vi = Some (CInt i) ->
  variables vm !! vv = Some val ->
  0 <= i < Z.of_nat (length xs) ->
  exists vm1 vm2,
    eval op_Move [Some vb; Some va] vm = Ok tt vm1
    /\ eval op_APut [Some vv; Some vb; Some vi] vm1 = Ok tt vm2
    /\ eval op_Aget [Some vd; Some va; Some vi] vm2
       = Ok tt (set_variables <[vd := val]> vm2).
Proof.
  intros Hbv Hbi Ha Hh Hi Hv Hr.
  assert (H1 : eval op_Move [Some vb; Some va] vm
               = Ok tt (set_variables <[vb := CArr l]> vm)).
  { cbn [eval op_Move]. run. reflexivity. }
  assert (Hb1 : variables (set_variables <[vb := CArr l]> vm) !! vb
                = Some (CArr l)) by apply lookup_set_variables_eq.
  assert (Hi1 : variables (set_variables <[vb := CArr l]> vm) !! vi
                = Some (CInt i)).
  { rewrite lookup_set_variables_ne by exact Hbi. exact Hi. }
  assert (Hv1 : variables (set_variables <[vb := CArr l]> vm) !! vv = Some val).
  { rewrite lookup_set_variables_ne by exact Hbv. exact Hv. }
  assert (Ha1 : variables (set_variables <[vb := CArr l]> vm) !! va
                = Some (CArr l)).
  { rewrite lookup_set_variables.
    destruct (decide (vb = va)); [reflexivity | exact Ha]. }
  remember (set_variables <[vb := CArr l]> vm) as vm1 eqn:E.
  assert (Hh1 : heap vm1 !! l = Some xs) by (subst vm1; exact Hh).
  pose proof (aput_eval vm1 vv vb vi l xs i val Hb1 Hh1 Hi1 Hv1) as H2.
  replace (Z.of_nat (length xs) >? i) with true in H2 by lia.
  rewrite norm_index_in_range in H2 by lia.
  exists vm1, (set_heap <[l := <[Z.to_nat i := val]> xs]> vm1).
  split; [exact H1|]. split; [exact H2|].
  rewrite (aget_eval (set_heap <[l := <[Z.to_nat i := val]> xs]> vm1)
             vd va vi l (<[Z.to_nat i := val]> xs) i Ha1
             (lookup_set_heap vm1 l (<[Z.to_nat i := val]> xs)) Hi1).
  rewrite length_insert, norm_index_in_range by lia.
  rewrite list_lookup_insert_eq by lia. reflexivity.
Qed.

Lemma move_shares_the_array_witness :
  exists vm1 vm2,
    eval op_Move [Some "v7"; Some "v4"] vm_array = Ok tt vm1
    /\ eval op_APut [Some "v0"; Some "v7"; Some "v1"] vm1 = Ok tt vm2
    /\ eval op_Aget [Some "v3"; Some "v4"; Some "v1"] vm2
       = Ok tt (set_variables <["v3" := CInt 7]> vm2).
Proof.
  apply (move_shares_the_array vm_array "v4" "v7" "v0" "v1" "v3" 0
           [CInt 10; CInt 20] 0 (CInt 7));
    [discriminate | discriminate | reflexivity | reflexivity | reflexivity
    | reflexivity | cbn; lia].
Defined.

(** An [aput] that returns changes at most one place of one array: the
    array keeps its length or grows by one, at most one position of it
    differs from before, the other arrays and all registers are as they
    were. *)
Theorem aput_changes_at_most_one_place
    (vm vm' : VM) (vx vy vz : string) (l : nat) (xs : list Cell) (i : Z)
    (val : Cell) :
  variables vm !! vy = Some (CArr l) ->
  heap vm !! l = Some xs ->
  variables vm !! vz = Some (CInt i) ->
  variables vm !! vx = Some val ->
  eval op_APut [Some vx; Some vy; Some vz] vm = Ok tt vm' ->
  exists xs',
    heap vm' !! l = Some xs'
    /\ (length xs <= length xs' <= S (length xs))%nat
    /\ (forall j1 j2 : nat,
          xs' !! j1 <> xs !! j1 -> xs' !! j2 <> xs !! j2 -> j1 = j2)
    /\ (forall l', l' <> l -> heap vm' !! l' = heap vm !! l')
    /\ variables vm' = variables vm.
Proof.
  intros Hy Hh Hz Hx He.
  rewrite (aput_eval vm vx vy vz l xs i val Hy Hh Hz Hx) in He.
  destruct (Z.of_nat (length xs) >? i).
  - destruct (norm_index (length xs) i) as [j|]; [|discriminate].
    injection He as <-. exists (<[j := val]> xs).
    split; [apply lookup_set_heap|].
    split; [rewrite length_insert; lia|].
    split.
    + intros j1 j2 H1 H2.
      destruct (decide (j = j1)) as [<-|N1]; destruct (decide (j = j2)) as [<-|N2];
        try reflexivity.
      * rewrite list_lookup_insert_ne in H2 by exact N2. congruence.
      * rewrite list_lookup_insert_ne in H1 by exact N1. congruence.
      * rewrite list_lookup_insert_ne in H1 by exact N1. congruence.
    + split; [|reflexivity]. intros l' Hl. cbn.
      apply lookup_insert_ne. congruence.
  - destruct (i =? Z.of_nat (length xs)).
    + injection He as <-. exists (xs ++ [val])%list.
      split; [apply lookup_set_heap|].
      split; [rewrite length_app; cbn; lia|].
      split.
      * intros j1 j2 H1 H2.
        assert (K : forall j, ((xs ++ [val])%list !! j <> xs !! j) ->
                              j = length xs).
        { intros j Hj. destruct (lt_eq_lt_dec j (length xs)) as [[Hlt|Heq]|Hgt].
          - rewrite lookup_app_l in Hj by exact Hlt. congruence.
          - exact Heq.
          - rewrite (lookup_ge_None_2 xs j) in Hj by lia.
            rewrite lookup_ge_None_2 in Hj; [congruence|].
            rewrite length_app. cbn. lia. }
        rewrite (K j1 H1), (K j2 H2). reflexivity.
      * split; [|reflexivity]. intros l' Hl. cbn.
        apply lookup_insert_ne. congruence.
    + injection He as <-. exists xs.
      split; [exact Hh|]. split; [lia|].
      split; [intros j1 j2 H1; congruence|].
      split; reflexivity.
Qed.

Lemma aput_changes_at_most_one_place_witness :
  exists xs',
    heap (set_heap <[0%nat := [CInt 10; CInt 20; CInt 7]]> vm_array) !! 0%nat
      = Some xs'
    /\ (length [CInt 10; CInt 20] <= length xs'
        <= S (length [CInt 10; CInt 20]))%nat
    /\ (forall j1 j2 : nat,
          xs' !! j1 <> [CInt 10; CInt 20] !! j1 ->
          xs' !! j2 <> [CInt 10; CInt 20] !! j2 -> j1 = j2)
    /\ (forall l', l' <> 0%nat ->
          heap (set_heap <[0%nat := [CInt 10; CInt 20; CInt 7]]> vm_array) !! l'
          = heap vm_array !! l')
    /\ variables (set_heap <[0%nat := [CInt 10; CInt 20; CInt 7]]> vm_array)
       = variables vm_array.
Proof.
  apply (aput_changes_at_most_one_place vm_array
           (set_heap <[0%nat := [CInt 10; CInt 20; CInt 7]]> vm_array)
           "v0" "v4" "v2" 0 [CInt 10; CInt 20] 2 (CInt 7)); reflexivity.
Defined.

(** [array-length] stores the length of the array, and after an [aput] that
    returned it stores one more exactly when the index was the length. *)
Theorem array_length_counts_appends
    (vm : VM) (vx vy vz vd : string) (l : nat) (xs : list Cell) (i : Z)
    (val : Cell) :
  variables vm !! vy = Some (CArr l) ->
  heap vm !! l = Some xs ->
  variables vm !! vz = Some (CInt i) ->
  variables vm !! vx = Some val ->
  eval op_ArrayLength [Some vd; Some vy] vm
    = Ok tt (set_variables <[vd := CInt (Z.of_nat (length xs))]> vm)
  /\ forall vm',
      eval op_APut [Some vx; Some vy; Some vz] vm = Ok tt vm' ->
      eval op_ArrayLength [Some vd; Some vy] vm'
      = Ok tt (set_variables
                 <[vd := CInt (if i =? Z.of_nat (length xs)
                               then Z.of_nat (length xs) + 1
                               else Z.of_nat (length xs))]> vm').
Proof.
  intros Hy Hh Hz Hx.
  assert (Hlen : forall vm0 ys,
             variables vm0 !! vy = Some (CArr l) -> heap vm0 !! l = Some ys ->
             eval op_ArrayLength [Some vd; Some vy] vm0
             = Ok tt (set_variables <[vd := CInt (Z.of_nat (length ys))]> vm0)).
  { intros vm0 ys H1 H2. cbn [eval op_ArrayLength]. unfold bind, getitem.
    rewrite H1. cbn [py_len]. unfold bind, deref. rewrite H2. reflexivity. }
  split; [exact (Hlen vm xs Hy Hh)|].
  intros vm' He.
  rewrite (aput_eval vm vx vy vz l xs i val Hy Hh Hz Hx) in He.
  destruct (Z.of_nat (length xs) >? i) eqn:Hgt.
  - destruct (norm_index (length xs) i) as [j|]; [|discriminate].
    injection He as <-.
    rewrite (Hlen (set_heap <[l := <[j := val]> xs]> vm) (<[j := val]> xs) Hy
               (lookup_set_heap vm l (<[j := val]> xs))).
    rewrite length_insert. apply Z.gtb_lt in Hgt.
    replace (i =? Z.of_nat (length xs)) with false
      by (symmetry; apply Z.eqb_neq; lia).
    reflexivity.
  - destruct (i =? Z.of_nat (length xs)) eqn:Heq.
    + injection He as <-.
      rewrite (Hlen (set_heap <[l := (xs ++ [val])%list]> vm) (xs ++ [val])%list
                 Hy (lookup_set_heap vm l (xs ++ [val])%list)).
      rewrite length_app. cbn [length].
      replace (Z.of_nat (length xs + 1)) with (Z.of_nat (length xs) + 1) by lia.
      reflexivity.
    + injection He as <-. exact (Hlen vm xs Hy Hh).
Qed.

Lemma array_length_counts_appends_witness :
  eval op_ArrayLength [Some "v3"; Some "v4"] vm_array
    = Ok tt (set_variables <["v3" := CInt 2]> vm_array)
  /\ eval op_ArrayLength [Some "v3"; Some "v4"]
       (set_heap <[0%nat := [CInt 10; CInt 20; CInt 7]]> vm_array)
     = Ok tt (set_variables <["v3" := CInt 3]>
                (set_heap <[0%nat := [CInt 10; CInt 20; CInt 7]]> vm_array)).
Proof.
  destruct (array_length_counts_appends vm_array "v0" "v4" "v2" "v3" 0
              [CInt 10; CInt 20] 2 (CInt 7)
              ltac:(reflexivity) ltac:(reflexivity) ltac:(reflexivity)
              ltac:(reflexivity)) as [H1 H2].
  split; [exact H1|].
  exact (H2 (set_heap <[0%nat := [CInt 10; CInt 20; CInt 7]]> vm_array)
            ltac:(reflexivity)).
Defined.

(** ** What the patterns accept *)

Lemma rmatch_lit_mismatch (t : string) :
  forall pos s caps k,
    Py.starts_with t s = false -> Re.rmatch (Re.lit t) pos s caps k = None.
Proof.
  induction t as [|c t IH]; intros pos s caps k H; [discriminate|].
  destruct s as [|x s]; cbn [Py.starts_with] in H.
  - destruct t; reflexivity.
  - destruct (Ascii.eqb c x) eqn:E.
    + apply Ascii.eqb_eq in E. subst x. cbn [andb] in H.
      destruct t as [|c' t]; [discriminate|].
      change (Re.lit (String c (String c' t)))
        with (Re.Seq (Re.chr c) (Re.lit (String c' t))).
      rewrite rmatch_Seq, rmatch_chr. apply IH. exact H.
    + assert (Hx : x <> c).
      { intros ->. rewrite Ascii.eqb_refl in E. discriminate. }
      destruct t as [|c' t].
      * apply rmatch_chr_other. exact Hx.
      * change (Re.lit (String c (String c' t)))
          with (Re.Seq (Re.chr c) (Re.lit (String c' t))).
        rewrite rmatch_Seq. apply rmatch_chr_other. exact Hx.
Qed.

Lemma search_anchored_none (r : Re.regex) (n : nat) (s : string) :
  Re.rmatch r O s (replicate n None) Re.found = None ->
  Re.search_from (Re.Seq Re.Bol r) n O s = None.
Proof.
  intros H. destruct s as [|c s]; cbn [Re.search_from];
    rewrite rmatch_Seq, rmatch_Bol, H; [reflexivity|].
  apply search_from_anchored. discriminate.
Qed.

(** The line [xor-int ab, c] matches the pattern of [op_XorInt2Addr], with
    everything before the last comma as its first group. *)
Lemma xor_line_match (ab ws c : string) :
  ab <> "" -> Py.all_chars Py.is_dot ab = true ->
  Py.all_chars Py.is_space ws = true ->
  last_operand "," c = true ->
  Re.search (expression op_XorInt2Addr) ("xor-int " ++ ab ++ "," ++ ws ++ c)
  = Some [Some ab; Some c].
Proof.
  intros Hne Hdot Hws Hc. unfold Re.search. apply search_from_hit.
  change (Re.re (expression op_XorInt2Addr))
    with (Re.Seq Re.Bol
            (Re.Seq (Re.lit "xor-int")
               (Re.Seq (Re.Opt (Re.lit "/2addr"))
                  (Re.Seq (Re.chr " ") (Re.seqs (Re.operands2 0)))))).
  change (Re.ngroups (expression op_XorInt2Addr)) with 2%nat.
  change ("xor-int " ++ ab ++ "," ++ ws ++ c)
    with ("xor-int" ++ String " " (ab ++ "," ++ ws ++ c)).
  rewrite rmatch_Seq, rmatch_Bol, rmatch_Seq, rmatch_lit, rmatch_Seq.
  rewrite rmatch_Opt_skip by (apply rmatch_lit_mismatch; reflexivity).
  rewrite rmatch_Seq, rmatch_chr.
  rewrite (operands2_match 0 _ ab ws c _ Hne Hdot Hws Hc). reflexivity.
Qed.

(** The three-register form [xor-int vX, vY, vZ] is taken by the pattern of
    [op_XorInt2Addr] as a two-register form whose first register is the text
    [vX, vY]; unless a register of that name exists, the action raises
    [KeyError], which goes to [vm.exception], and no xor is computed. *)
Theorem xor_int_three_registers_taken_as_two
    (vm : VM) (a ws1 b ws2 c : string) :
  Py.all_chars Py.is_dot (a ++ "," ++ ws1 ++ b) = true ->
  Py.all_chars Py.is_space ws2 = true ->
  last_operand "," c = true ->
  variables vm !! Py.strip (a ++ "," ++ ws1 ++ b) = None ->
  Re.search (expression op_XorInt2Addr)
    ("xor-int " ++ (a ++ "," ++ ws1 ++ b) ++ "," ++ ws2 ++ c)
    = Some [Some (a ++ "," ++ ws1 ++ b); Some c]
  /\ exists key,
      parse op_XorInt2Addr
        ("xor-int " ++ (a ++ "," ++ ws1 ++ b) ++ "," ++ ws2 ++ c) vm
      = Ok true (exception (KeyError key) vm)
      /\ variables (exception (KeyError key) vm) = variables vm.
Proof.
  intros Hdot Hws Hc Hkey.
  assert (Hne : a ++ "," ++ ws1 ++ b <> "").
  { destruct a; discriminate. }
  pose proof (xor_line_match _ ws2 c Hne Hdot Hws Hc) as Hs.
  split; [exact Hs|].
  assert (He : exists key,
             eval op_XorInt2Addr
               [Some (Py.strip (a ++ "," ++ ws1 ++ b)); Some (Py.strip c)] vm
             = Raise (KeyError key) vm).
  { cbn [eval op_XorInt2Addr]. unfold bind, getitem.
    destruct (variables vm !! Py.strip c) as [cell|]; [|eauto].
    destruct (is_int cell); rewrite Hkey; eauto. }
  destruct He as [key He]. exists key.
  split; [exact (parse_raises _ _ _ _ _ _ Hs He) | apply exception_variables].
Qed.

Lemma xor_int_three_registers_taken_as_two_witness :
  Re.search (expression op_XorInt2Addr)
    ("xor-int " ++ ("v0" ++ "," ++ " " ++ "v1") ++ "," ++ " " ++ "v2")
    = Some [Some ("v0" ++ "," ++ " " ++ "v1"); Some "v2"]
  /\ exists key,
      parse op_XorInt2Addr
        ("xor-int " ++ ("v0" ++ "," ++ " " ++ "v1") ++ "," ++ " " ++ "v2")
        vm_small
      = Ok true (exception (KeyError key) vm_small)
      /\ variables (exception (KeyError key) vm_small) = variables vm_small.
Proof.
  apply (xor_int_three_registers_taken_as_two vm_small "v0" " " "v1" " " "v2");
    reflexivity.
Defined.

Lemma search_from_later (r : Re.regex) (n : nat) (p : string) :
  forall pos s c,
    Re.rmatch r (pos + String.length p)%nat s (replicate n None) Re.found
    = Some c ->
    exists c', Re.search_from r n pos (p ++ s) = Some c'.
Proof.
  induction p as [|ch p IH]; intros pos s c H.
  - cbn in H. rewrite Nat.add_0_r in H. rewrite append_empty_l.
    exists c. apply search_from_hit. exact H.
  - rewrite append_cons. cbn [Re.search_from].
    destruct (Re.rmatch r pos (String ch (p ++ s)) (replicate n None) Re.found)
      as [c0|]; [eauto|].
    apply (IH (S pos) s c). cbn in H. rewrite Nat.add_succ_r in H. exact H.
Qed.

(** The pattern of [op_ArrayLength] has no [^]: a line is accepted whatever
    text stands before the mnemonic, and [parse] never returns [False] on
    it. *)
Theorem array_length_matches_anywhere
    (vm : VM) (prefix a ws b : string) :
  a <> "" -> Py.all_chars Py.is_dot a = true ->
  Py.all_chars Py.is_space ws = true ->
  last_operand "," b = true ->
  (exists groups,
      Re.search (expression op_ArrayLength)
        (prefix ++ "array-length " ++ a ++ "," ++ ws ++ b) = Some groups)
  /\ Re.search (expression op_ArrayLength)
       ("array-length " ++ a ++ "," ++ ws ++ b) = Some [Some a; Some b]
  /\ forall vm',
      parse op_ArrayLength
        (prefix ++ "array-length " ++ a ++ "," ++ ws ++ b) vm
      <> Ok false vm'.
Proof.
  intros Ha Hdot Hws Hb.
  assert (Hm : forall pos,
             Re.rmatch (Re.re (expression op_ArrayLength)) pos
               ("array-length " ++ a ++ "," ++ ws ++ b)
               (replicate (Re.ngroups (expression op_ArrayLength)) None)
               Re.found
             = Some [Some a; Some b]).
  { intros pos.
    change (Re.re (expression op_ArrayLength))
      with (Re.Seq (Re.lit "array-length ") (Re.seqs (Re.operands2 0))).
    rewrite rmatch_Seq, rmatch_lit.
    rewrite (operands2_match 0 _ a ws b _ Ha Hdot Hws Hb). reflexivity. }
  assert (Hs : exists groups,
             Re.search (expression op_ArrayLength)
               (prefix ++ "array-length " ++ a ++ "," ++ ws ++ b) = Some groups).
  { unfold Re.search. eapply search_from_later. apply Hm. }
  split; [exact Hs|]. split.
  - unfold Re.search. apply search_from_hit. apply Hm.
  - intros vm'. destruct Hs as [groups Hs]. unfold parse. rewrite Hs.
    destruct (eval op_ArrayLength _ vm); discriminate.
Qed.

Lemma array_length_matches_anywhere_witness :
  (exists groups,
      Re.search (expression op_ArrayLength)
        ("# " ++ "array-length " ++ "v0" ++ "," ++ " " ++ "v4") = Some groups)
  /\ Re.search (expression op_ArrayLength)
       ("array-length " ++ "v0" ++ "," ++ " " ++ "v4")
     = Some [Some "v0"; Some "v4"]
  /\ forall vm',
      parse op_ArrayLength
        ("# " ++ "array-length " ++ "v0" ++ "," ++ " " ++ "v4") vm_array
      <> Ok false vm'.
Proof.
  apply (array_length_matches_anywhere vm_array "# " "v0" " " "v4");
    [discriminate | reflexivity ..].
Defined.

(** Which handler refuses the lines of which sibling mnemonic.  The
    three-register handlers of [div-int], [rem-int], [and-int] and [rsub-int]
    refuse every line that goes on with [/] after the mnemonic; the literal
    handlers of [div-int], [rem-int], [and-int], [xor-int] and [rsub-int]
    refuse every line that has a space after the mnemonic, and those of
    [and-int] and [xor-int] every [/2addr] line too; the handler of
    [and-int/2addr] refuses the [and-int ] and the [and-int/lit] lines.
    [xor-int] is the exception: it has one handler for the register forms,
    [op_XorInt2Addr], which refuses every [xor-int/lit] line but takes the
    [xor-int/2addr] line and the plain [xor-int] line alike.  [move] refuses
    [move-result] and [move-exception], and [const] refuses
    [const-string]. *)
Theorem sibling_mnemonic_lines_refused (rest : string) :
  Re.search (expression op_DivInt) ("div-int/" ++ rest) = None
  /\ Re.search (expression op_DivIntLit) ("div-int " ++ rest) = None
  /\ Re.search (expression op_RemInt) ("rem-int/" ++ rest) = None
  /\ Re.search (expression op_RemIntLit) ("rem-int " ++ rest) = None
  /\ Re.search (expression op_AndInt) ("and-int/" ++ rest) = None
  /\ Re.search (expression op_AndIntLit) ("and-int " ++ rest) = None
  /\ Re.search (expression op_AndInt2Addr) ("and-int " ++ rest) = None
  /\ Re.search (expression op_XorInt2Addr) ("xor-int/lit" ++ rest) = None
  /\ Re.search (expression op_XorIntLit) ("xor-int " ++ rest) = None
  /\ Re.search (expression op_RSubInt) ("rsub-int/" ++ rest) = None
  /\ Re.search (expression op_RSubIntLiteral) ("rsub-int " ++ rest) = None
  /\ Re.search (expression op_Move) ("move-result" ++ rest) = None
  /\ Re.search (expression op_Move) ("move-exception" ++ rest) = None
  /\ Re.search (expression op_Const) ("const-string" ++ rest) = None
  /\ Re.search (expression op_AndIntLit) ("and-int/2addr" ++ rest) = None
  /\ Re.search (expression op_AndInt2Addr) ("and-int/lit" ++ rest) = None
  /\ Re.search (expression op_XorIntLit) ("xor-int/2addr" ++ rest) = None
  /\ Re.search (expression op_XorInt2Addr) "xor-int/2addr v0, v1"
     = Some [Some "v0"; Some "v1"]
  /\ Re.search (expression op_XorInt2Addr) "xor-int v0, v1"
     = Some [Some "v0"; Some "v1"]
  /\ Re.search (expression op_XorInt2Addr) "xor-int v0, v1, v2"
     = Some [Some "v0, v1"; Some "v2"].
Proof.
  repeat split; try reflexivity; unfold Re.search.
  - change (Re.re (expression op_DivInt))
      with (Re.Seq Re.Bol (Re.Seq (Re.lit "div-int ") (Re.seqs (Re.operands3 0)))).
    apply search_anchored_none. rewrite rmatch_Seq.
    apply rmatch_lit_mismatch. reflexivity.
  - change (Re.re (expression op_DivIntLit))
      with (Re.Seq Re.Bol
              (Re.Seq (Re.lit "div-int/lit")
                 (Re.seqs ([Re.Plus Re.digit; Re.chr " "] ++ Re.operands3 0)))).
    apply search_anchored_none. rewrite rmatch_Seq.
    apply rmatch_lit_mismatch. reflexivity.
  - change (Re.re (expression op_RemInt))
      with (Re.Seq Re.Bol (Re.Seq (Re.lit "rem-int ") (Re.seqs (Re.operands3 0)))).
    apply search_anchored_none. rewrite rmatch_Seq.
    apply rmatch_lit_mismatch. reflexivity.
  - change (Re.re (expression op_RemIntLit))
      with (Re.Seq Re.Bol
              (Re.Seq (Re.lit "rem-int/lit")
                 (Re.seqs ([Re.Plus Re.digit; Re.chr " "] ++ Re.operands3 0)))).
    apply search_anchored_none. rewrite rmatch_Seq.
    apply rmatch_lit_mismatch. reflexivity.
  - change (Re.re (expression op_AndInt))
      with (Re.Seq Re.Bol
              (Re.Seq (Re.lit "and-int")
                 (Re.Seq (Re.chr " ") (Re.seqs (Re.operands3 0))))).
    apply search_anchored_none.
    change ("and-int/" ++ rest) with ("and-int" ++ String "/" rest).
    rewrite rmatch_Seq, rmatch_lit, rmatch_Seq.
    apply rmatch_chr_other. discriminate.
  - change (Re.re (expression op_AndIntLit))
      with (Re.Seq Re.Bol
              (Re.Seq (Re.lit "and-int/lit")
                 (Re.seqs ([Re.Plus Re.digit; Re.chr " "] ++ Re.operands3 0)))).
    apply search_anchored_none. rewrite rmatch_Seq.
    apply rmatch_lit_mismatch. reflexivity.
  - change (Re.re (expression op_AndInt2Addr))
      with (Re.Seq Re.Bol
              (Re.Seq (Re.lit "and-int/2addr ") (Re.seqs (Re.operands2 0)))).
    apply search_anchored_none. rewrite rmatch_Seq.
    apply rmatch_lit_mismatch. reflexivity.
  - change (Re.re (expression op_XorInt2Addr))
      with (Re.Seq Re.Bol
              (Re.Seq (Re.lit "xor-int")
                 (Re.Seq (Re.Opt (Re.lit "/2addr"))
                    (Re.Seq (Re.chr " ") (Re.seqs (Re.operands2 0)))))).
    apply search_anchored_none.
    change ("xor-int/lit" ++ rest) with ("xor-int" ++ String "/" ("lit" ++ rest)).
    rewrite rmatch_Seq, rmatch_lit, rmatch_Seq.
    rewrite rmatch_Opt_skip by (apply rmatch_lit_mismatch; reflexivity).
    rewrite rmatch_Seq. apply rmatch_chr_other. discriminate.
  - change (Re.re (expression op_XorIntLit))
      with (Re.Seq Re.Bol
              (Re.Seq (Re.lit "xor-int/lit")
                 (Re.seqs ([Re.Plus Re.digit; Re.chr " "] ++ Re.operands3 0)))).
    apply search_anchored_none. rewrite rmatch_Seq.
    apply rmatch_lit_mismatch. reflexivity.
  - change (Re.re (expression op_RSubInt))
      with (Re.Seq Re.Bol
              (Re.Seq (Re.lit "rsub-int")
                 (Re.Seq (Re.Plus Re.space) (Re.seqs (Re.operands3 0))))).
    apply search_anchored_none.
    change ("rsub-int/" ++ rest) with ("rsub-int" ++ String "/" rest).
    rewrite rmatch_Seq, rmatch_lit, rmatch_Seq. unfold Re.Plus.
    rewrite rmatch_Seq. reflexivity.
  - change (Re.re (expression op_RSubIntLiteral))
      with (Re.Seq Re.Bol
              (Re.Seq (Re.lit "rsub-int/lit")
                 (Re.seqs ([Re.Group 0 (Re.Plus Re.digit); Re.chr " "]
                           ++ Re.operands3 1)))).
    apply search_anchored_none. rewrite rmatch_Seq.
    apply rmatch_lit_mismatch. reflexivity.
  - change (Re.re (expression op_Move))
      with (Re.Seq Re.Bol
              (Re.Seq (Re.lit "move")
                 (Re.Seq (Re.Opt (Re.lit "-object"))
                    (Re.Seq (Re.chr " ") (Re.seqs (Re.operands2 0)))))).
    apply search_anchored_none.
    change ("move-result" ++ rest) with ("move" ++ String "-" ("result" ++ rest)).
    rewrite rmatch_Seq, rmatch_lit, rmatch_Seq.
    rewrite rmatch_Opt_skip by (apply rmatch_lit_mismatch; reflexivity).
    rewrite rmatch_Seq. apply rmatch_chr_other. discriminate.
  - change (Re.re (expression op_Move))
      with (Re.Seq Re.Bol
              (Re.Seq (Re.lit "move")
                 (Re.Seq (Re.Opt (Re.lit "-object"))
                    (Re.Seq (Re.chr " ") (Re.seqs (Re.operands2 0)))))).
    apply search_anchored_none.
    change ("move-exception" ++ rest)
      with ("move" ++ String "-" ("exception" ++ rest)).
    rewrite rmatch_Seq, rmatch_lit, rmatch_Seq.
    rewrite rmatch_Opt_skip by (apply rmatch_lit_mismatch; reflexivity).
    rewrite rmatch_Seq. apply rmatch_chr_other. discriminate.
  - change (Re.re (expression op_Const))
      with (Re.Seq Re.Bol
              (Re.Seq (Re.lit "const")
                 (Re.Seq (Re.Opt (Re.Seq (Re.chr "/") (Re.Plus Re.digit)))
                    (Re.Seq (Re.chr " ") (Re.seqs (Re.operands2 0)))))).
    apply search_anchored_none.
    change ("const-string" ++ rest) with ("const" ++ String "-" ("string" ++ rest)).
    rewrite rmatch_Seq, rmatch_lit, rmatch_Seq.
    rewrite rmatch_Opt_skip
      by (rewrite rmatch_Seq; apply rmatch_chr_other; discriminate).
    rewrite rmatch_Seq. apply rmatch_chr_other. discriminate.
  - change (Re.re (expression op_AndIntLit))
      with (Re.Seq Re.Bol
              (Re.Seq (Re.lit "and-int/lit")
                 (Re.seqs ([Re.Plus Re.digit; Re.chr " "] ++ Re.operands3 0)))).
    apply search_anchored_none. rewrite rmatch_Seq.
    apply rmatch_lit_mismatch. reflexivity.
  - change (Re.re (expression op_AndInt2Addr))
      with (Re.Seq Re.Bol
              (Re.Seq (Re.lit "and-int/2addr ") (Re.seqs (Re.operands2 0)))).
    apply search_anchored_none. rewrite rmatch_Seq.
    apply rmatch_lit_mismatch. reflexivity.
  - change (Re.re (expression op_XorIntLit))
      with (Re.Seq Re.Bol
              (Re.Seq (Re.lit "xor-int/lit")
                 (Re.seqs ([Re.Plus Re.digit; Re.chr " "] ++ Re.operands3 0)))).
    apply search_anchored_none. rewrite rmatch_Seq.
    apply rmatch_lit_mismatch. reflexivity.
Qed.

(** [get_int_value] strips every trailing [t], then every trailing [s]: a
    literal followed by any run of [s] and then any run of [t] has the value
    of the literal alone. *)
Theorem get_int_value_strips_runs_of_suffixes (body ss ts : string) (z : Z) :
  literal_eval body = Some z ->
  Py.all_chars (Py.is_char "s") ss = true ->
  Py.all_chars (Py.is_char "t") ts = true ->
  get_int_value (body ++ ss ++ ts) = Some z.
Proof.
  intros H Hss Hts. destruct (literal_eval_no_suffix _ _ H) as [Ht Hs].
  unfold get_int_value, Py.rstrip.
  rewrite <- append_assoc.
  rewrite (rstrip_by_append_all (Py.is_char "t") (body ++ ss) ts Hts).
  rewrite (rstrip_by_none (Py.is_char "t") (body ++ ss)).
  - rewrite (rstrip_by_append_all (Py.is_char "s") body ss Hss).
    rewrite (rstrip_by_none _ _ Hs). exact H.
  - rewrite all_chars_append, Ht. cbn [andb].
    revert Hss. apply all_chars_weaken. intros c Hc.
    apply is_char_eq in Hc. subst c. reflexivity.
Qed.

Lemma get_int_value_strips_runs_of_suffixes_witness :
  get_int_value ("0x7f" ++ "ss" ++ "ttt") = Some 127.
Proof.
  apply (get_int_value_strips_runs_of_suffixes "0x7f" "ss" "ttt" 127);
    reflexivity.
Defined.

Lemma failed_instruction_changes_nothing_witness :
  vm_array = vm_array
  /\ parse op_Aget "aget v0, v4, v2" vm_array
     = Ok true (exception IndexError vm_array)
  /\ variables (exception IndexError vm_array) = variables vm_array
  /\ heap (exception IndexError vm_array) = heap vm_array.
Proof.
  apply (failed_instruction_changes_nothing op_Aget "aget v0, v4, v2"
           [Some "v0"; Some "v4"; Some "v2"] vm_array vm_array IndexError);
    [unfold opcodes; cbn; tauto | reflexivity | reflexivity].
Defined.

Lemma computing_opcodes_leave_control_alone_witness :
  pc (set_heap <[0%nat := [CInt 7; CInt 20]]> vm_array) = pc vm_array
  /\ fatal (set_heap <[0%nat := [CInt 7; CInt 20]]> vm_array) = fatal vm_array
  /\ labels (set_heap <[0%nat := [CInt 7; CInt 20]]> vm_array)
     = labels vm_array
  /\ packed_switches (set_heap <[0%nat := [CInt 7; CInt 20]]> vm_array)
     = packed_switches vm_array
  /\ catch_blocks (set_heap <[0%nat := [CInt 7; CInt 20]]> vm_array)
     = catch_blocks vm_array
  /\ exceptions (set_heap <[0%nat := [CInt 7; CInt 20]]> vm_array)
     = exceptions vm_array.
Proof.
  apply (computing_opcodes_leave_control_alone op_APut
           [Some "v0"; Some "v4"; Some "v1"] vm_array
           (set_heap <[0%nat := [CInt 7; CInt 20]]> vm_array));
    [unfold data_opcodes; cbn; tauto | reflexivity].
Defined.

Lemma branch_opcodes_write_nothing_witness :
  variables (set_pc 10 vm_small) = variables vm_small
  /\ heap (set_pc 10 vm_small) = heap vm_small
  /\ fatal (set_pc 10 vm_small) = fatal vm_small
  /\ labels (set_pc 10 vm_small) = labels vm_small
  /\ packed_switches (set_pc 10 vm_small) = packed_switches vm_small
  /\ catch_blocks (set_pc 10 vm_small) = catch_blocks vm_small
  /\ exceptions (set_pc 10 vm_small) = exceptions vm_small.
Proof.
  apply (branch_opcodes_write_nothing op_IfLt
           [Some "v0"; Some "v1"; Some ":A"] vm_small (set_pc 10 vm_small));
    [unfold branch_opcodes; cbn; tauto | reflexivity].
Defined.
